(** * FreeScout integration: client cache, API client and job processor

    A shallow embedding of
      - [server/service/externalsvc/freescout.go] (the FreeScout API client,
        in its revision with the search for an existing conversation; the
        constructor and [FreeScoutConfigMatches] are the same in both
        revisions), and
      - the [worker] job processor for FreeScout (templates, [getClient],
        [Run], [runVuln], [runFailingPolicy], [createTemplatedConversation]).

    Go values are rendered as follows.
      - [(T, error)] results are the sum type [result T].
      - [int64] and [int] are [Z], [uint] is [nat]; no arithmetic on them
        occurs in the modelled code besides comparisons and printing.
      - [map[string]FreeScoutClient] is a [gmap string C]; a nil map and an
        empty map have the same lookups, and the code allocates the map
        before it writes to it.
      - an interface is a type class; a nil interface value or nil pointer is
        [None].
      - functions of Go's standard library and of packages outside the
        modelled files are section variables. *)

From Stdlib Require Import ZArith Ascii String List Bool DecimalString DecimalNat Lia.
From stdpp Require Import base option gmap strings list.

Local Open Scope string_scope.
Local Open Scope list_scope.
Local Open Scope Z_scope.

(* ===================================================================== *)
(** ** Errors and results *)
(* ===================================================================== *)

(** Go's [error] values as far as the modelled code builds them:
    [errors.New], [fmt.Errorf] / [ctxerr.Errorf] (the format and its printed
    arguments), [ctxerr.Wrap] with a label, and errors that come from outside
    (datastore, net/url, net/http, encoding/json). *)
Inductive error : Type :=
  | errors_New (msg : string)
  | fmt_Errorf (format : string) (args : list string)
  | ctxerr_Wrap (cause : error) (label : string)
  | external_error (origin : string).

Inductive result (A : Type) : Type :=
  | Ok (a : A)
  | Err (e : error).
Arguments Ok {A} a.
Arguments Err {A} e.

Definition is_Ok {A} (r : result A) : bool :=
  match r with Ok _ => true | Err _ => false end.

Definition is_Err {A} (r : result A) : bool := negb (is_Ok r).

Definition result_bind {A B} (r : result A) (k : A -> result B) : result B :=
  match r with
  | Ok a => k a
  | Err e => Err e
  end.

Notation "'try' x <- r ; k" := (result_bind r (fun x => k))
  (at level 10, x name, r at level 100, k at level 200).

(* ===================================================================== *)
(** ** Strings *)
(* ===================================================================== *)

Definition slash : ascii := "/"%char.

(** A line feed and a double quote, as one-character strings. *)
Definition nl : string := String (ascii_of_nat 10) EmptyString.
Definition dquote : string := String (ascii_of_nat 34) EmptyString.

(** [strings.TrimRight(s, "/")]: [s] without its trailing slashes. *)
Fixpoint TrimRight_slash (s : string) : string :=
  match s with
  | EmptyString => EmptyString
  | String c rest =>
      match TrimRight_slash rest with
      | EmptyString => if Ascii.eqb c slash then EmptyString else String c EmptyString
      | String _ _ as rest' => String c rest'
      end
  end.

(** [fmt.Sprint] / [%d] / [strconv.FormatInt(_, 10)] on integers. *)
Definition fmt_uint (n : nat) : string := NilZero.string_of_uint (Nat.to_uint n).
Definition fmt_int (z : Z) : string := NilZero.string_of_int (Z.to_int z).

(** [strings.TrimSpace]: [s] without the white space at its start and at
    its end. Go reads the string as UTF-8 and asks [unicode.IsSpace] of each
    code point: tab, line feed, vertical tab, form feed, carriage return and
    space, U+0085 and U+00A0, and of the code points above Latin-1 those with
    the property White_Space (U+1680, U+2000 to U+200A, U+2028, U+2029,
    U+202F, U+205F, U+3000). Bytes that are no valid encoding decode to
    U+FFFD, which is no white space. The strings of the model are byte
    strings, so the white space is listed by its UTF-8 encodings; no
    encoding in the list starts or ends another. *)
Definition bytes (l : list nat) : string := string_of_list_ascii (map ascii_of_nat l).

Definition white_space : list string :=
  map bytes
    [ [9]; [10]; [11]; [12]; [13]; [32];
      [194; 133]; [194; 160];
      [225; 154; 128];
      [226; 128; 128]; [226; 128; 129]; [226; 128; 130]; [226; 128; 131];
      [226; 128; 132]; [226; 128; 133]; [226; 128; 134]; [226; 128; 135];
      [226; 128; 136]; [226; 128; 137]; [226; 128; 138];
      [226; 128; 168]; [226; 128; 169]; [226; 128; 175];
      [226; 129; 159];
      [227; 128; 128] ]%nat.

(** [s] without the prefix [p], if it starts with [p]. *)
Fixpoint strip_prefix (p s : string) : option string :=
  match p, s with
  | EmptyString, _ => Some s
  | String a p', String b s' => if Ascii.eqb a b then strip_prefix p' s' else None
  | String _ _, EmptyString => None
  end.

Definition string_rev (s : string) : string :=
  string_of_list_ascii (rev (list_ascii_of_string s)).

(** [s] after its first code point if that is white space
    ([utf8.DecodeRuneInString]), and [s] before its last code point if that
    is white space ([utf8.DecodeLastRuneInString], which steps back over
    continuation bytes to the byte that starts the last code point). *)
Definition after_space (s : string) : option string :=
  fold_right
    (fun w r => match strip_prefix w s with Some t => Some t | None => r end)
    None white_space.

Definition before_space (s : string) : option string :=
  fold_right
    (fun w r =>
       match strip_prefix (string_rev w) (string_rev s) with
       | Some t => Some (string_rev t)
       | None => r
       end)
    None white_space.

(** [strings.TrimLeftFunc(s, unicode.IsSpace)] and
    [strings.TrimRightFunc(s, unicode.IsSpace)]; [n] bounds the number of
    code points dropped. *)
Fixpoint trim_left_n (n : nat) (s : string) : string :=
  match n with
  | O => s
  | S n' =>
      match after_space s with
      | Some t => trim_left_n n' t
      | None => s
      end
  end.

Fixpoint trim_right_n (n : nat) (s : string) : string :=
  match n with
  | O => s
  | S n' =>
      match before_space s with
      | Some t => trim_right_n n' t
      | None => s
      end
  end.

Definition trim_left (s : string) : string := trim_left_n (String.length s) s.
Definition trim_right (s : string) : string := trim_right_n (String.length s) s.

Definition strings_TrimSpace (s : string) : string := trim_right (trim_left s).

(** The last character of a string, if any. *)
Fixpoint last_char (s : string) : option ascii :=
  match s with
  | EmptyString => None
  | String c EmptyString => Some c
  | String _ rest => last_char rest
  end.

Definition ends_with_slash (s : string) : bool :=
  match last_char s with
  | Some c => Ascii.eqb c slash
  | None => false
  end.

(* ===================================================================== *)
(** ** Package externalsvc: options and construction *)
(* ===================================================================== *)

Module externalsvc.

(** [FreeScoutOptions] defines the options to configure a FreeScout client. *)
Record FreeScoutOptions : Type := {
  URL : string;
  APIToken : string;
  MailboxID : Z;
  CustomerEmail : string;
  AssignTo : Z
}.

#[export] Instance FreeScoutOptions_eq_dec : EqDecision FreeScoutOptions.
Proof. solve_decision. Defined.

(** Go's [==] on the struct: field-wise comparison. *)
Definition FreeScoutOptions_eqb (a b : FreeScoutOptions) : bool :=
  String.eqb (URL a) (URL b) && String.eqb (APIToken a) (APIToken b)
  && Z.eqb (MailboxID a) (MailboxID b)
  && String.eqb (CustomerEmail a) (CustomerEmail b)
  && Z.eqb (AssignTo a) (AssignTo b).

(** What [url.Parse] returns, as far as the constructor reads it. *)
Record url_URL : Type := { Scheme : string; Host : string }.

(** [FreeScout] is the client; the [*http.Client] of the Go struct carries
    no option and is represented by the transport the methods run on. *)
Record FreeScout : Type := { opts : FreeScoutOptions }.

Section Construction.
  (** [net/url.Parse]. *)
  Variable url_Parse : string -> result url_URL.

  (** [NewFreeScoutClient]: from a pointer to options (nil is [None]) to a
      client or an error. *)
Definition NewFreeScoutClient (o : option FreeScoutOptions) : result FreeScout :=
    match o with
    | None => Err (errors_New "missing FreeScout options")
    | Some o =>
        if String.eqb (URL o) EmptyString then Err (errors_New "missing FreeScout URL")
        else
          try parsedURL <- url_Parse (URL o);
          if String.eqb (Scheme parsedURL) EmptyString || String.eqb (Host parsedURL) EmptyString
          then Err (errors_New "invalid FreeScout URL")
          else
            let cleaned :=
              {| URL := TrimRight_slash (URL o);
                 APIToken := APIToken o;
                 MailboxID := MailboxID o;
                 CustomerEmail := CustomerEmail o;
                 AssignTo := AssignTo o |} in
            Ok {| opts := cleaned |}
    end.
End Construction.

(* --------------------------------------------------------------------- *)
(** *** Wire types *)

Record freeScoutCustomer : Type := { Email : string }.

Record freeScoutThread : Type := {
  thread_Text : string;
  thread_Type : string;
  thread_Customer : option freeScoutCustomer
}.

Record freeScoutThreadPayload : Type := {
  tp_Type : string;
  tp_Text : string;
  tp_Customer : option freeScoutCustomer;
  tp_Imported : bool;
  tp_Status : string
}.

Record freeScoutConversationPayload : Type := {
  cp_Type : string;
  cp_MailboxID : Z;
  cp_Subject : string;
  cp_Customer : option freeScoutCustomer;
  cp_Threads : list freeScoutThread;
  cp_Imported : bool;
  cp_AssignTo : option Z;
  cp_Status : string
}.

Record freeScoutConversation : Type := { ID : Z }.

(** [freeScoutConversationsResponse]: the [_embedded.conversations] array. *)
Record freeScoutConversationsResponse : Type := {
  Conversations : list freeScoutConversation
}.

(** A request body is the payload handed to [json.Marshal]; marshalling
    these structs of strings, integers and booleans does not fail, so the
    body is kept as the payload itself. *)
Inductive request_body : Type :=
  | no_body
  | conversation_body (p : freeScoutConversationPayload)
  | thread_body (p : freeScoutThreadPayload).

Inductive http_Method : Type := MethodGet | MethodPost.

Record http_Request : Type := {
  Method : http_Method;
  ReqURL : string;
  ReqHeader : list (string * string);
  ReqBody : request_body
}.

Record http_Response : Type := {
  StatusCode : Z;
  Header_Get : string -> string;
  Body : string
}.

(** [req.Header.Set(k, v)] on a header that does not hold [k] yet. *)
Definition Header_Set (k v : string) (req : http_Request) : http_Request :=
  {| Method := Method req; ReqURL := ReqURL req;
     ReqHeader := ReqHeader req ++ [(k, v)]; ReqBody := ReqBody req |}.

(* --------------------------------------------------------------------- *)
(** *** [net/url]: query encoding *)

Definition is_unreserved (c : ascii) : bool :=
  let n := nat_of_ascii c in
  ((97 <=? n) && (n <=? 122) || (65 <=? n) && (n <=? 90) || (48 <=? n) && (n <=? 57)
   || Ascii.eqb c "-" || Ascii.eqb c "_" || Ascii.eqb c "." || Ascii.eqb c "~")%nat.

Definition upperhex (n : nat) : ascii :=
  match nth_error (list_ascii_of_string "0123456789ABCDEF") n with
  | Some c => c
  | None => "0"%char
  end.

(** [url.QueryEscape]. *)
Fixpoint url_QueryEscape (s : string) : string :=
  match s with
  | EmptyString => EmptyString
  | String c rest =>
      if is_unreserved c then String c (url_QueryEscape rest)
      else if Ascii.eqb c " " then String "+" (url_QueryEscape rest)
      else
        let n := nat_of_ascii c in
        String "%" (String (upperhex (n / 16)) (String (upperhex (n mod 16))
          (url_QueryEscape rest)))
  end.

(** [url.Values]: the entries of the map literal. *)
Definition url_Values : Type := list (string * list string).

Fixpoint insert_by_key (kv : string * list string) (l : url_Values) : url_Values :=
  match l with
  | [] => [kv]
  | kv' :: l' =>
      if String.leb (fst kv) (fst kv') then kv :: l else kv' :: insert_by_key kv l'
  end.

Definition sort_by_key (l : url_Values) : url_Values := fold_right insert_by_key [] l.

Definition encode_entry (kv : string * list string) : list string :=
  map (fun v => url_QueryEscape (fst kv) +:+ "=" +:+ url_QueryEscape v) (snd kv).

Fixpoint join_amp (l : list string) : string :=
  match l with
  | [] => EmptyString
  | [x] => x
  | x :: l' => x +:+ "&" +:+ join_amp l'
  end.

(** [url.Values.Encode]: [key=value] pairs sorted by key, joined by [&]. *)
Definition url_Values_Encode (v : url_Values) : string :=
  join_amp (concat (map encode_entry (sort_by_key v))).

(* --------------------------------------------------------------------- *)
(** *** The client's methods *)

Section Client.
  (** [net/url.Parse], [encoding/json] decoding of the search response and
      [strconv.ParseInt(_, 10, 64)]. *)
  Variable url_Parse : string -> result url_URL.
  Variable json_Decode : string -> result freeScoutConversationsResponse.
  Variable strconv_ParseInt : string -> result Z.

  (** The remote service: [W] is its state, [http_Do] what one round trip of
      [f.client.Do] answers and how it changes that state. *)
  Variable W : Type.
  Variable http_Do : http_Request -> W -> result http_Response * W.

  (** The network as the client sees it: the service, and the requests sent
      so far in the order they were sent. *)
Record Net : Type := { world : W; sent : list http_Request }.

  (** Computations that send requests and may fail. *)
Definition M (A : Type) : Type := Net -> result A * Net.

Definition ret {A} (a : A) : M A := fun n => (Ok a, n).
Definition fail {A} (e : error) : M A := fun n => (Err e, n).
Definition bind {A B} (m : M A) (k : A -> M B) : M B :=
    fun n =>
      match m n with
      | (Ok a, n') => k a n'
      | (Err e, n') => (Err e, n')
      end.
Definition lift {A} (r : result A) : M A := fun n => (r, n).

  (** [f.client.Do(req)]. *)
Definition client_Do (req : http_Request) : M http_Response :=
    fun n =>
      let '(r, w') := http_Do req (world n) in
      (r, {| world := w'; sent := sent n ++ [req] |}).

  (** [http.NewRequestWithContext] with a valid method and context: it fails
      when the target does not parse. *)
Definition http_NewRequest (m : http_Method) (endpoint : string) (b : request_body)
    : result http_Request :=
    try _u <- url_Parse endpoint;
    Ok {| Method := m; ReqURL := endpoint; ReqHeader := []; ReqBody := b |}.

  (** The error of a response whose status is not 2xx: it is built from the
      status code and the response body. *)
Definition request_failed (resp : http_Response) : error :=
    fmt_Errorf "freescout request failed: status %d: %s"
      [fmt_int (StatusCode resp); strings_TrimSpace (Body resp)].

Definition status_2xx (resp : http_Response) : bool :=
    Z.eqb (Z.quot (StatusCode resp) 100) 2.

Definition set_headers (f : FreeScout) (req : http_Request) : http_Request :=
    Header_Set "Content-Type" "application/json"
      (Header_Set "X-FreeScout-API-Key" (APIToken (opts f)) req).

Definition search_params (f : FreeScout) (subject : string) : url_Values :=
    [ ("embed", ["threads"]);
      ("mailboxId", [fmt_int (MailboxID (opts f))]);
      ("status", ["active"]);
      ("state", ["published"]);
      ("type", ["email"]);
      ("customerEmail", [CustomerEmail (opts f)]);
      ("subject", [subject]);
      ("sortField", ["updatedAt"]);
      ("sortOrder", ["asc"]);
      ("page", ["1"]);
      ("pageSize", ["1"]) ].

Definition search_endpoint (f : FreeScout) (subject : string) : string :=
    URL (opts f) +:+ "/api/conversations?" +:+ url_Values_Encode (search_params f subject).

Definition findExistingConversationID (f : FreeScout) (subject : string) : M Z :=
    bind (lift (http_NewRequest MethodGet (search_endpoint f subject) no_body)) (fun req =>
    let req := set_headers f req in
    bind (client_Do req) (fun resp =>
    if negb (status_2xx resp) then fail (request_failed resp)
    else
      bind (lift (json_Decode (Body resp))) (fun payload =>
      match Conversations payload with
      | [] => ret 0
      | c :: _ => ret (ID c)
      end))).

Definition thread_payload (f : FreeScout) (message : string) : freeScoutThreadPayload :=
    {| tp_Type := "customer";
       tp_Text := message;
       tp_Customer := Some {| Email := CustomerEmail (opts f) |};
       tp_Imported := false;
       tp_Status := "active" |}.

Definition thread_endpoint (f : FreeScout) (conversationID : Z) : string :=
    URL (opts f) +:+ "/api/conversations/" +:+ fmt_int conversationID +:+ "/threads".

Definition createFreeScoutThread (f : FreeScout) (conversationID : Z) (message : string)
    : M unit :=
    bind (lift (http_NewRequest MethodPost (thread_endpoint f conversationID)
                  (thread_body (thread_payload f message)))) (fun req =>
    let req := set_headers f req in
    bind (client_Do req) (fun resp =>
    if negb (status_2xx resp) then fail (request_failed resp)
    else ret tt)).

Definition conversation_payload (f : FreeScout) (subject message : string)
    : freeScoutConversationPayload :=
    let payload :=
      {| cp_Type := "email";
         cp_MailboxID := MailboxID (opts f);
         cp_Subject := subject;
         cp_Customer := Some {| Email := CustomerEmail (opts f) |};
         cp_Threads :=
           [ {| thread_Text := message;
                thread_Type := "customer";
                thread_Customer := Some {| Email := CustomerEmail (opts f) |} |} ];
         cp_Imported := false;
         cp_AssignTo := None;
         cp_Status := "active" |} in
    if 0 <? AssignTo (opts f)
    then {| cp_Type := cp_Type payload; cp_MailboxID := cp_MailboxID payload;
            cp_Subject := cp_Subject payload; cp_Customer := cp_Customer payload;
            cp_Threads := cp_Threads payload; cp_Imported := cp_Imported payload;
            cp_AssignTo := Some (AssignTo (opts f)); cp_Status := cp_Status payload |}
    else payload.

Definition conversations_endpoint (f : FreeScout) : string :=
    URL (opts f) +:+ "/api/conversations".

  (** [CreateFreeScoutConversation] creates a conversation on the FreeScout
      server targeted by the client, or appends to an existing one. It
      returns the conversation ID or an error. *)
Definition CreateFreeScoutConversation (f : FreeScout) (subject message : string) : M Z :=
    bind (findExistingConversationID f subject) (fun existingID =>
    if 0 <? existingID then
      bind (createFreeScoutThread f existingID message) (fun _ => ret existingID)
    else
      bind (lift (http_NewRequest MethodPost (conversations_endpoint f)
                    (conversation_body (conversation_payload f subject message)))) (fun req =>
      let req := set_headers f req in
      bind (client_Do req) (fun resp =>
      if negb (status_2xx resp) then fail (request_failed resp)
      else
        let resourceID := Header_Get resp "Resource-ID" in
        if String.eqb resourceID EmptyString then ret 0
        else
          match strconv_ParseInt resourceID with
          | Err _ => ret 0
          | Ok id => ret id
          end))).
End Client.
Arguments world {W} _.
Arguments sent {W} _.

(** [FreeScoutConfigMatches]: [f.opts == *opts]. *)
Definition FreeScoutConfigMatches (f : FreeScout) (o : FreeScoutOptions) : bool :=
  FreeScoutOptions_eqb (opts f) o.

End externalsvc.

(* ===================================================================== *)
(** ** Package fleet: the configuration and host records the worker reads *)
(* ===================================================================== *)

Module fleet.

(** One configured FreeScout integration, with the fields that [getClient]
    copies into the client options and the two switches it tests. *)
Record FreescoutIntegration : Type := {
  URL : string;
  APIToken : string;
  MailboxID : Z;
  CustomerEmail : string;
  AssignTo : Z;
  EnableSoftwareVulnerabilities : bool;
  EnableFailingPolicies : bool
}.

Record Integrations : Type := { Freescout : list FreescoutIntegration }.

Record AppConfig : Type := { ac_Integrations : Integrations }.

Record HostVulnerabilitySummary : Type := {
  hv_ID : nat;
  hv_DisplayName : string;
  SoftwareInstalledPaths : list string
}.

Record PolicySetHost : Type := {
  ph_ID : nat;
  ph_DisplayName : string
}.

End fleet.

(* ===================================================================== *)
(** ** Package worker: the FreeScout job processor *)
(* ===================================================================== *)

Module worker.

(** Modelled from the spec: the constants [intgTypeVuln] and
    [intgTypeFailingPolicy] are declared in a file of the package that is
    not part of the excerpt; their values are the ones of the cache keys the
    comment on [clientsCache] gives (["vuln:123"], ["failingPolicy:"]). *)
Definition intgTypeVuln : string := "vuln".
Definition intgTypeFailingPolicy : string := "failingPolicy".

(** [FreeScoutClient] defines the methods required of the client that makes
    API calls to FreeScout. [W] is the state of whatever the client talks
    to: [CreateFreeScoutConversation] may change it. *)
Class FreeScoutClient (C W : Type) : Type := {
  CreateFreeScoutConversation : C -> string -> string -> W -> result Z * W;
  FreeScoutConfigMatches : C -> externalsvc.FreeScoutOptions -> bool
}.

(** [failingPolicyArgs] and [vulnArgs], as the queueing functions fill
    them. *)
Record failingPolicyArgs : Type := {
  PolicyID : nat;
  PolicyName : string;
  PolicyCritical : bool;
  TeamID : option nat;
  fp_Hosts : list fleet.PolicySetHost
}.

Record vulnArgs (float64 Time : Type) : Type := {
  CVE : string;
  AffectedSoftwareIDs : list nat;
  EPSSProbability : option float64;
  CVSSScore : option float64;
  CISAKnownExploit : option bool;
  CVEPublished : option Time
}.
Arguments CVE {float64 Time} _.
Arguments AffectedSoftwareIDs {float64 Time} _.
Arguments EPSSProbability {float64 Time} _.
Arguments CVSSScore {float64 Time} _.
Arguments CISAKnownExploit {float64 Time} _.
Arguments CVEPublished {float64 Time} _.

(** [freeScoutArgs] are the arguments for the FreeScout integration job. *)
Record freeScoutArgs (float64 Time : Type) : Type := {
  Vulnerability : option (vulnArgs float64 Time);
  FailingPolicy : option failingPolicyArgs
}.
Arguments Vulnerability {float64 Time} _.
Arguments FailingPolicy {float64 Time} _.

Definition integrationType {float64 Time} (a : freeScoutArgs float64 Time) : string :=
  match FailingPolicy a with
  | None => intgTypeVuln
  | Some _ => intgTypeFailingPolicy
  end.

(** The team record [TeamLite] returns: [tm.Config.Integrations]. *)
Record TeamConfig (TeamIntegrations : Type) : Type := {
  Integrations : TeamIntegrations
}.
Arguments Integrations {TeamIntegrations} _.

Record Team (TeamIntegrations : Type) : Type := {
  Config : TeamConfig TeamIntegrations
}.
Arguments Config {TeamIntegrations} _.

(** The methods of [fleet.Datastore] the processor calls. They read and do
    not write. *)
Record Datastore (TeamIntegrations : Type) : Type := {
  AppConfig : result fleet.AppConfig;
  TeamLite : nat -> result (Team TeamIntegrations);
  HostsByCVE : string -> result (list fleet.HostVulnerabilitySummary);
  HostVulnSummariesBySoftwareIDs : list nat -> result (list fleet.HostVulnerabilitySummary)
}.
Arguments AppConfig {TeamIntegrations} _.
Arguments TeamLite {TeamIntegrations} _ _.
Arguments HostsByCVE {TeamIntegrations} _ _.
Arguments HostVulnSummariesBySoftwareIDs {TeamIntegrations} _ _.

(** [FreeScout] is the job processor for freescout integrations: its
    immutable fields. *)
Record FreeScout (C TeamIntegrations : Type) : Type := {
  FleetURL : string;
  ds : Datastore TeamIntegrations;
  NewClientFunc : option externalsvc.FreeScoutOptions -> result C
}.
Arguments FleetURL {C TeamIntegrations} _.
Arguments ds {C TeamIntegrations} _.
Arguments NewClientFunc {C TeamIntegrations} _ _.

(** The mutable part of the processor: the map of integration type + team
    ID to FreeScout client, and (for the proofs only) the options of every
    call of [NewClientFunc] so far, oldest first. *)
Record Cache (C : Type) : Type := {
  clientsCache : gmap string C;
  constructions : list externalsvc.FreeScoutOptions
}.
Arguments clientsCache {C} _.
Arguments constructions {C} _.

(** The options of one configured integration. *)
Definition options_of (intg : fleet.FreescoutIntegration) : externalsvc.FreeScoutOptions :=
  {| externalsvc.URL := fleet.URL intg;
     externalsvc.APIToken := fleet.APIToken intg;
     externalsvc.MailboxID := fleet.MailboxID intg;
     externalsvc.CustomerEmail := fleet.CustomerEmail intg;
     externalsvc.AssignTo := fleet.AssignTo intg |}.

(** [for _, intg := range l { if cond(intg) { opts = &...; break } }]. *)
Fixpoint first_enabled (cond : fleet.FreescoutIntegration -> bool)
    (l : list fleet.FreescoutIntegration) : option externalsvc.FreeScoutOptions :=
  match l with
  | [] => None
  | intg :: l' => if cond intg then Some (options_of intg) else first_enabled cond l'
  end.

Section GetClient.
  Context {C W : Type} {client_of_C : FreeScoutClient C W}.
  Context {float64 Time TeamIntegrations : Type}.

  (** [fleet.TeamIntegrations.MatchWithIntegrations]. *)
  Variable MatchWithIntegrations :
    TeamIntegrations -> fleet.Integrations -> result fleet.Integrations.

  Abbreviation Args := (freeScoutArgs float64 Time).
  Abbreviation Processor := (FreeScout C TeamIntegrations).

  (** The team whose configuration is used, if any: the job is a failing
      policy job and carries a team ID. *)
Definition getClient_team (args : Args) : option nat :=
    if String.eqb (integrationType args) intgTypeFailingPolicy then
      match FailingPolicy args with
      | Some fp => TeamID fp
      | None => None
      end
    else None.

  (** The cache key: integration type, a colon, and the team ID if any. *)
Definition getClient_key (args : Args) : string :=
    let key := integrationType args +:+ ":" in
    match getClient_team args with
    | Some teamID => key +:+ fmt_uint teamID
    | None => key
    end.

  (** The configuration that would be used to create the client: the first
      enabled integration of the team or of the global configuration. *)
Definition getClient_options (f : Processor) (args : Args)
    : result (option externalsvc.FreeScoutOptions) :=
    let intgType := integrationType args in
    try ac <- AppConfig (ds f);
    match getClient_team args with
    | Some teamID =>
        try tm <- TeamLite (ds f) teamID;
        try intgs <- MatchWithIntegrations (Integrations (Config tm)) (fleet.ac_Integrations ac);
        Ok (first_enabled
              (fun intg => String.eqb intgType intgTypeFailingPolicy
                           && fleet.EnableFailingPolicies intg)
              (fleet.Freescout intgs))
    | None =>
        Ok (first_enabled
              (fun intg =>
                 String.eqb intgType intgTypeVuln && fleet.EnableSoftwareVulnerabilities intg
                 || String.eqb intgType intgTypeFailingPolicy && fleet.EnableFailingPolicies intg)
              (fleet.Freescout (fleet.ac_Integrations ac)))
    end.

  (** "otherwise create a new one": call [NewClientFunc]; on success store
      the client under the key. *)
Definition getClient_build (f : Processor) (key : string)
      (o : externalsvc.FreeScoutOptions) (st : Cache C)
    : result (option C) * Cache C :=
    let calls := constructions st ++ [o] in
    match NewClientFunc f (Some o) with
    | Err err =>
        (Err err, {| clientsCache := clientsCache st; constructions := calls |})
    | Ok cli =>
        (Ok (Some cli), {| clientsCache := <[key := cli]> (clientsCache st);
                           constructions := calls |})
    end.

  (** The part of [getClient] that runs with [f.mu] held: evict, reuse or
      build. *)
Definition getClient_locked (f : Processor) (key : string)
      (opts : option externalsvc.FreeScoutOptions) (st : Cache C)
    : result (option C) * Cache C :=
    match opts with
    | None =>
        (* no integration configured, clear any existing one *)
        (Ok None, {| clientsCache := delete key (clientsCache st);
                     constructions := constructions st |})
    | Some o =>
        (* check if the existing one can be reused *)
        match clientsCache st !! key with
        | Some cli =>
            if FreeScoutConfigMatches cli o then (Ok (Some cli), st)
            else getClient_build f key o st
        | None => getClient_build f key o st
        end
    end.

  (** [getClient] returns [nil, nil] (here [Ok None]) if there is no
      integration enabled for that message. *)
Definition getClient (f : Processor) (args : Args) (st : Cache C)
    : result (option C) * Cache C :=
    match getClient_options f args with
    | Err err => (Err err, st)
    | Ok opts => getClient_locked f (getClient_key args) opts st
    end.
End GetClient.

(* --------------------------------------------------------------------- *)
(** *** Templates *)

(** [{{ range l }} body {{ end }}]: the body once per element, in order. *)
Fixpoint range {A : Type} (body : A -> string) (l : list A) : string :=
  match l with
  | [] => EmptyString
  | x :: l' => body x +:+ range body l'
  end.

(** [{{ $end := len .Hosts }}{{ if gt $end 50 }}{{ $end = 50 }}{{ end }}]
    followed by [slice .Hosts 0 $end]. *)
Definition slice_hosts {A : Type} (hosts : list A) : list A :=
  let end_ := length hosts in
  let end_ := if (50 <? end_)%nat then 50%nat else end_ in
  firstn end_ hosts.

(** Modelled from the spec: [failingPoliciesTplArgs] and
    [newFailingPoliciesTplArgs] are declared in a file of the package that is
    not part of the excerpt; the record holds the fields the two failing
    policy templates read, filled from the job arguments, with the team ID
    zero when the policy has no team. *)
Record failingPoliciesTplArgs : Type := {
  fpt_FleetURL : string;
  fpt_PolicyID : nat;
  fpt_PolicyName : string;
  fpt_PolicyCritical : bool;
  fpt_TeamID : nat;
  fpt_Hosts : list fleet.PolicySetHost
}.

Definition newFailingPoliciesTplArgs (fleetURL : string) (args : failingPolicyArgs)
  : failingPoliciesTplArgs :=
  {| fpt_FleetURL := fleetURL;
     fpt_PolicyID := PolicyID args;
     fpt_PolicyName := PolicyName args;
     fpt_PolicyCritical := PolicyCritical args;
     fpt_TeamID := match TeamID args with Some t => t | None => 0%nat end;
     fpt_Hosts := fp_Hosts args |}.

Definition FailingPolicySummary (a : failingPoliciesTplArgs) : string :=
  fpt_PolicyName a +:+ " policy failed on " +:+ fmt_uint (length (fpt_Hosts a)) +:+ " host(s)".

Definition FailingPolicy_host (fleetURL : string) (h : fleet.PolicySetHost) : string :=
  nl +:+ "* [" +:+ fleet.ph_DisplayName h +:+ "](" +:+ fleetURL +:+ "/hosts/"
     +:+ fmt_uint (fleet.ph_ID h) +:+ ")" +:+ nl.

Definition FailingPolicy_head (a : failingPoliciesTplArgs) : string :=
  (if fpt_PolicyCritical a
   then "This policy is marked as **Critical** in Fleet." +:+ nl +:+ nl
   else EmptyString)
  +:+ "Hosts:" +:+ nl +:+ nl.

Definition FailingPolicy_tail (a : failingPoliciesTplArgs) : string :=
  nl +:+ nl +:+ "View hosts that failed " +:+ fpt_PolicyName a
  +:+ " on the [**Hosts**](" +:+ fpt_FleetURL a
  +:+ "/hosts/manage/?order_key=hostname&order_direction=asc&"
  +:+ (if (fpt_TeamID a =? 0)%nat then EmptyString
       else "team_id=" +:+ fmt_uint (fpt_TeamID a) +:+ "&")
  +:+ "policy_id=" +:+ fmt_uint (fpt_PolicyID a)
  +:+ "&policy_response=failing) page in Fleet." +:+ nl +:+ nl
  +:+ "----" +:+ nl +:+ nl
  +:+ "This conversation was created automatically by your Fleet FreeScout integration."
  +:+ nl.

Definition FailingPolicyDescription (a : failingPoliciesTplArgs) : string :=
  FailingPolicy_head a
  +:+ range (FailingPolicy_host (fpt_FleetURL a)) (slice_hosts (fpt_Hosts a))
  +:+ FailingPolicy_tail a.

Section VulnTemplates.
  Context {float64 Time : Type}.
  (** How [text/template] prints a [float64] and a [time.Time]. *)
  Variable fmt_float64 : float64 -> string.
  Variable fmt_Time : Time -> string.

Record freeScoutVulnTplArgs : Type := {
    NVDURL : string;
    vt_FleetURL : string;
    vt_CVE : string;
    vt_Hosts : list fleet.HostVulnerabilitySummary;
    (* Optional CVE metadata. *)
    vt_EPSSProbability : option float64;
    vt_CVSSScore : option float64;
    vt_CISAKnownExploit : option bool;
    vt_CVEPublished : option Time
  }.

Definition VulnSummary (a : freeScoutVulnTplArgs) : string :=
    "Vulnerability " +:+ vt_CVE a +:+ " detected on "
    +:+ fmt_uint (length (vt_Hosts a)) +:+ " host(s)".

Definition Vuln_path (path : string) : string :=
    nl +:+ "    * " +:+ path +:+ nl.

Definition Vuln_host (fleetURL : string) (h : fleet.HostVulnerabilitySummary) : string :=
    nl +:+ "* [" +:+ fleet.hv_DisplayName h +:+ "](" +:+ fleetURL +:+ "/hosts/"
       +:+ fmt_uint (fleet.hv_ID h) +:+ ")" +:+ nl
       +:+ range Vuln_path (fleet.SoftwareInstalledPaths h) +:+ nl.

Definition Vuln_head (a : freeScoutVulnTplArgs) : string :=
    "See vulnerability (CVE) details in National Vulnerability Database (NVD) here: ["
    +:+ vt_CVE a +:+ "](" +:+ NVDURL a +:+ vt_CVE a +:+ ")." +:+ nl +:+ nl
    +:+ match vt_EPSSProbability a with
        | Some p =>
            nl +:+ "Probability of exploit (reported by [FIRST.org/epss](https://www.first.org/epss/)): "
               +:+ fmt_float64 p +:+ nl
        | None => EmptyString
        end +:+ nl
    +:+ match vt_CVSSScore a with
        | Some p => "CVSS score (reported by [NVD](https://nvd.nist.gov/)): " +:+ fmt_float64 p +:+ nl
        | None => EmptyString
        end +:+ nl
    +:+ match vt_CVEPublished a with
        | Some t => "Published (reported by [NVD](https://nvd.nist.gov/)): " +:+ fmt_Time t +:+ nl
        | None => EmptyString
        end +:+ nl
    +:+ match vt_CISAKnownExploit a with
        | Some b =>
            "Known exploits (reported by [CISA](https://www.cisa.gov/known-exploited-vulnerabilities-catalog)): "
            +:+ (if b then "Yes" else "No") +:+ nl
        | None => EmptyString
        end +:+ nl
    +:+ nl +:+ "Affected hosts:" +:+ nl +:+ nl +:+ nl.

Definition Vuln_tail (a : freeScoutVulnTplArgs) : string :=
    nl +:+ nl +:+ "View the affected software and more affected hosts:" +:+ nl +:+ nl
    +:+ "1. Go to the [Software](" +:+ vt_FleetURL a +:+ "/software/manage) page in Fleet." +:+ nl
    +:+ "2. Above the list of software, in the **Search software** box, enter "
    +:+ dquote +:+ vt_CVE a +:+ dquote +:+ "." +:+ nl
    +:+ "3. Hover over the affected software and select **View all hosts**." +:+ nl +:+ nl
    +:+ "----" +:+ nl +:+ nl
    +:+ "This conversation was created automatically by your Fleet FreeScout integration."
    +:+ nl.

Definition VulnDescription (a : freeScoutVulnTplArgs) : string :=
    Vuln_head a
    +:+ range (Vuln_host (vt_FleetURL a)) (slice_hosts (vt_Hosts a))
    +:+ Vuln_tail a.
End VulnTemplates.

(** [tpl.Execute(&buf, args)] for a template whose execution on its
    argument type does not fail: the fields exist, [deref] is called on a
    pointer that was tested, and the bounds of [slice] are within the list. *)
Definition Execute {A : Type} (tpl : A -> string) (args : A) : result string :=
  Ok (tpl args).

(* --------------------------------------------------------------------- *)
(** *** Running a job *)

Section Run.
  Context {C W : Type} {client_of_C : FreeScoutClient C W}.
  Context {float64 Time TeamIntegrations : Type}.

  Variable MatchWithIntegrations :
    TeamIntegrations -> fleet.Integrations -> result fleet.Integrations.
  (** [json.Unmarshal(argsJSON, &args)]. *)
  Variable json_Unmarshal : string -> result (freeScoutArgs float64 Time).
  Variable fmt_float64 : float64 -> string.
  Variable fmt_Time : Time -> string.
  (** The constant [nvdCVEURL], declared outside the excerpt. *)
  Variable nvdCVEURL : string.

  Abbreviation Args' := (freeScoutArgs float64 Time).
  Abbreviation Processor' := (FreeScout C TeamIntegrations).

Definition createTemplatedConversation {A : Type} (cli : C)
      (summaryTpl descTpl : A -> result string) (args : A) (w : W) : result Z * W :=
    match summaryTpl args with
    | Err err => (Err (ctxerr_Wrap err "execute summary template"), w)
    | Ok summary =>
        match descTpl args with
        | Err err => (Err (ctxerr_Wrap err "execute description template"), w)
        | Ok description =>
            match CreateFreeScoutConversation cli summary description w with
            | (Err err, w') => (Err (ctxerr_Wrap err "create conversation"), w')
            | (Ok conversationID, w') => (Ok conversationID, w')
            end
        end
    end.

  (** The hosts of a vulnerability job: by CVE for an old payload without
      software IDs, by software IDs otherwise. *)
Definition runVuln_hosts (f : Processor') (vargs : vulnArgs float64 Time)
    : result (list fleet.HostVulnerabilitySummary) :=
    if (length (AffectedSoftwareIDs vargs) =? 0)%nat
    then HostsByCVE (ds f) (CVE vargs)
    else HostVulnSummariesBySoftwareIDs (ds f) (AffectedSoftwareIDs vargs).

Definition runVuln_tplArgs (f : Processor') (vargs : vulnArgs float64 Time)
      (hosts : list fleet.HostVulnerabilitySummary) : freeScoutVulnTplArgs :=
    {| NVDURL := nvdCVEURL;
       vt_FleetURL := FleetURL f;
       vt_CVE := CVE vargs;
       vt_Hosts := hosts;
       vt_EPSSProbability := EPSSProbability vargs;
       vt_CVSSScore := CVSSScore vargs;
       vt_CISAKnownExploit := CISAKnownExploit vargs;
       vt_CVEPublished := CVEPublished vargs |}.

Definition runVuln (f : Processor') (cli : C) (args : Args') (w : W) : result unit * W :=
    match Vulnerability args with
    | None => (Err (errors_New "invalid job args"), w)
    | Some vargs =>
        match runVuln_hosts f vargs with
        | Err err => (Err (ctxerr_Wrap err "fetching hosts"), w)
        | Ok hosts =>
            match createTemplatedConversation cli
                    (Execute VulnSummary) (Execute (VulnDescription fmt_float64 fmt_Time))
                    (runVuln_tplArgs f vargs hosts) w with
            | (Err err, w') => (Err err, w')
            | (Ok _, w') => (Ok tt, w')
            end
        end
    end.

  (** [runFailingPolicy] reads [args.FailingPolicy] without a test: a nil
      pointer there is a run-time panic, which [Run] excludes by its
      dispatch. *)
Definition runFailingPolicy (f : Processor') (cli : C) (args : Args') (w : W)
    : result unit * W :=
    match FailingPolicy args with
    | None => (Err (external_error "panic: nil pointer dereference"), w)
    | Some fp =>
        match createTemplatedConversation cli
                (Execute FailingPolicySummary) (Execute FailingPolicyDescription)
                (newFailingPoliciesTplArgs (FleetURL f) fp) w with
        | (Err err, w') => (Err err, w')
        | (Ok _, w') => (Ok tt, w')
        end
    end.

  (** [Run] executes the freescout job. *)
Definition Run (f : Processor') (argsJSON : string) (st : Cache C) (w : W)
    : result unit * Cache C * W :=
    match json_Unmarshal argsJSON with
    | Err err => (Err (ctxerr_Wrap err "unmarshal args"), st, w)
    | Ok args =>
        match getClient MatchWithIntegrations f args st with
        | (Err err, st') => (Err (ctxerr_Wrap err "get FreeScout client"), st', w)
        | (Ok None, st') =>
            (* this message was queued when an integration was enabled, but
               since then it has been disabled, so return success to mark the
               message as processed. *)
            (Ok tt, st', w)
        | (Ok (Some cli), st') =>
            let intgType := integrationType args in
            if String.eqb intgType intgTypeVuln then
              let '(r, w') := runVuln f cli args w in (r, st', w')
            else if String.eqb intgType intgTypeFailingPolicy then
              let '(r, w') := runFailingPolicy f cli args w in (r, st', w')
            else
              (Err (fmt_Errorf "unknown integration type: %v" [intgType]), st', w)
        end
    end.
End Run.

End worker.

(* ===================================================================== *)
(** ** The API client as the worker's client *)
(* ===================================================================== *)

Section ClientInstance.
  Variable url_Parse : string -> result externalsvc.url_URL.
  Variable json_Decode : string -> result externalsvc.freeScoutConversationsResponse.
  Variable strconv_ParseInt : string -> result Z.
  Variable W : Type.
  Variable http_Do : externalsvc.http_Request -> W -> result externalsvc.http_Response * W.

  (** [*externalsvc.FreeScout] implements [worker.FreeScoutClient]. *)
Definition FreeScout_client :
    worker.FreeScoutClient externalsvc.FreeScout (externalsvc.Net W) :=
    {| worker.CreateFreeScoutConversation :=
         externalsvc.CreateFreeScoutConversation url_Parse json_Decode strconv_ParseInt W http_Do;
       worker.FreeScoutConfigMatches := externalsvc.FreeScoutConfigMatches |}.
End ClientInstance.

(* ===================================================================== *)
(** ** Concurrent jobs

    Jobs run [getClient] concurrently, one goroutine per job. A goroutine
    advances by the steps below, one per access to shared state, in the
    order of the statements of [getClient]; goroutines interleave in any
    order. [f.mu.Lock()] waits until the mutex is free and takes it, the
    deferred [f.mu.Unlock()] frees it when the function returns. *)
(* ===================================================================== *)

Module concurrent.
Section Threads.
Context {C W : Type} {client_of_C : worker.FreeScoutClient C W}.
Context {float64 Time TeamIntegrations : Type}.
Variable MatchWithIntegrations :
  TeamIntegrations -> fleet.Integrations -> result fleet.Integrations.

(** A job: the processor as the job finds it (its datastore holds the
    configuration the job will read) and the arguments. *)
Record job : Type := {
  proc : worker.FreeScout C TeamIntegrations;
  jargs : worker.freeScoutArgs float64 Time
}.

Definition key_of (j : job) : string := worker.getClient_key (jargs j).

(** What the goroutines share: the mutex (the goroutine that holds it, if
    any) and the clients cache. *)
Record Shared : Type := {
  mu : option nat;
  cache : worker.Cache C
}.

(** Where a goroutine stands in [getClient]. *)
Inductive pc : Type :=
  | AtResolve
      (* loading the configuration, before [f.mu.Lock()] *)
  | AtLock (opts : option externalsvc.FreeScoutOptions)
      (* at [f.mu.Lock()] *)
  | AtCheckNil (opts : option externalsvc.FreeScoutOptions)
      (* the mutex taken: at [if f.clientsCache == nil] and [if opts == nil] *)
  | AtLookup (o : externalsvc.FreeScoutOptions)
      (* at [cli := f.clientsCache[key]] *)
  | AtMatch (o : externalsvc.FreeScoutOptions) (cli : option C)
      (* at [cli != nil && cli.FreeScoutConfigMatches(opts)] *)
  | AtNew (o : externalsvc.FreeScoutOptions)
      (* at [f.NewClientFunc(opts)] *)
  | AtStore (o : externalsvc.FreeScoutOptions) (cli : C)
      (* at [f.clientsCache[key] = cli] *)
  | AtUnlock (r : result (option C))
      (* returning: the deferred [f.mu.Unlock()] *)
  | Finished (r : result (option C)).

(** The goroutine is between [Lock] and [Unlock]. *)
Definition in_cs (p : pc) : bool :=
  match p with
  | AtCheckNil _ | AtLookup _ | AtMatch _ _ | AtNew _ | AtStore _ _ | AtUnlock _ => true
  | AtResolve | AtLock _ | Finished _ => false
  end.

(** The next step of the goroutine reads or writes the map. *)
Definition touches_map (p : pc) : bool :=
  match p with
  | AtCheckNil _ | AtLookup _ | AtStore _ _ => true
  | _ => false
  end.

Definition set_mu (m : option nat) (s : Shared) : Shared :=
  {| mu := m; cache := cache s |}.

Definition set_cache (c : worker.Cache C) (s : Shared) : Shared :=
  {| mu := mu s; cache := c |}.

(** One step of goroutine [t] running job [j] from [p]; [None] when it
    cannot move (it waits for the mutex, or it has finished). *)
Definition step_thread (t : nat) (j : job) (p : pc) (s : Shared) : option (pc * Shared) :=
  match p with
  | AtResolve =>
      match worker.getClient_options MatchWithIntegrations (proc j) (jargs j) with
      | Err err => Some (Finished (Err err), s)
      | Ok opts => Some (AtLock opts, s)
      end
  | AtLock opts =>
      match mu s with
      | None => Some (AtCheckNil opts, set_mu (Some t) s)
      | Some _ => None
      end
  | AtCheckNil None =>
      Some (AtUnlock (Ok None),
            set_cache {| worker.clientsCache := delete (key_of j) (worker.clientsCache (cache s));
                         worker.constructions := worker.constructions (cache s) |} s)
  | AtCheckNil (Some o) => Some (AtLookup o, s)
  | AtLookup o => Some (AtMatch o (worker.clientsCache (cache s) !! key_of j), s)
  | AtMatch o (Some cli) =>
      if worker.FreeScoutConfigMatches cli o then Some (AtUnlock (Ok (Some cli)), s)
      else Some (AtNew o, s)
  | AtMatch o None => Some (AtNew o, s)
  | AtNew o =>
      let called :=
        set_cache {| worker.clientsCache := worker.clientsCache (cache s);
                     worker.constructions := worker.constructions (cache s) ++ [o] |} s in
      match worker.NewClientFunc (proc j) (Some o) with
      | Err err => Some (AtUnlock (Err err), called)
      | Ok cli => Some (AtStore o cli, called)
      end
  | AtStore o cli =>
      Some (AtUnlock (Ok (Some cli)),
            set_cache {| worker.clientsCache :=
                           <[key_of j := cli]> (worker.clientsCache (cache s));
                         worker.constructions := worker.constructions (cache s) |} s)
  | AtUnlock r => Some (Finished r, set_mu None s)
  | Finished _ => None
  end.

(** The jobs that run concurrently; goroutine [t] runs the job at index
    [t]. *)
Variable jobs : list job.

Record config : Type := {
  shared : Shared;
  pcs : list pc
}.

Definition init (c0 : worker.Cache C) : config :=
  {| shared := {| mu := None; cache := c0 |};
     pcs := replicate (length jobs) AtResolve |}.

(** Any goroutine that can move may move next. *)
Inductive step : config -> config -> Prop :=
  | step_at (c : config) (t : nat) (j : job) (p p' : pc) (s' : Shared) :
      jobs !! t = Some j ->
      pcs c !! t = Some p ->
      step_thread t j p (shared c) = Some (p', s') ->
      step c {| shared := s'; pcs := <[t := p']> (pcs c) |}.

Inductive reachable (c0 : worker.Cache C) : config -> Prop :=
  | reachable_init : reachable c0 (init c0)
  | reachable_step (c c' : config) : reachable c0 c -> step c c' -> reachable c0 c'.

(** A schedule names the goroutine to move at each turn; a turn of a
    goroutine that cannot move is skipped. *)
Definition turn (t : nat) (c : config) : config :=
  match jobs !! t, pcs c !! t with
  | Some j, Some p =>
      match step_thread t j p (shared c) with
      | Some (p', s') => {| shared := s'; pcs := <[t := p']> (pcs c) |}
      | None => c
      end
  | _, _ => c
  end.

Definition run_schedule (sched : list nat) (c : config) : config :=
  fold_left (fun c t => turn t c) sched c.

(** A serial history: the jobs named in it run [getClient] one after the
    other, each to its end, from the cache [c0]; each entry holds the
    goroutine and what [getClient] returned to it. *)
Inductive Serial (c0 : worker.Cache C)
  : list (nat * result (option C)) -> worker.Cache C -> Prop :=
  | Serial_nil : Serial c0 [] c0
  | Serial_snoc (h : list (nat * result (option C))) (st : worker.Cache C)
      (t : nat) (j : job) :
      Serial c0 h st ->
      jobs !! t = Some j ->
      Serial c0
        (h ++ [(t, fst (worker.getClient MatchWithIntegrations (proc j) (jargs j) st))])
        (snd (worker.getClient MatchWithIntegrations (proc j) (jargs j) st)).

Definition finished (c : config) : Prop :=
  forall t j, jobs !! t = Some j -> exists r, pcs c !! t = Some (Finished r).

(** What the holder of the mutex has done so far, in terms of the cache
    [before] it took the mutex and the cache [now]. *)
Definition resolved (j : job) (opts : option externalsvc.FreeScoutOptions) : Prop :=
  worker.getClient_options MatchWithIntegrations (proc j) (jargs j) = Ok opts.

Definition no_match (j : job) (o : externalsvc.FreeScoutOptions) (before : worker.Cache C)
  : Prop :=
  forall cli, worker.clientsCache before !! key_of j = Some cli ->
              worker.FreeScoutConfigMatches cli o = false.

Definition pending (j : job) (p : pc) (before now : worker.Cache C) : Prop :=
  match p with
  | AtCheckNil opts => resolved j opts /\ now = before
  | AtLookup o => resolved j (Some o) /\ now = before
  | AtMatch o cli =>
      resolved j (Some o) /\ now = before
      /\ cli = worker.clientsCache before !! key_of j
  | AtNew o => resolved j (Some o) /\ now = before /\ no_match j o before
  | AtStore o cli =>
      resolved j (Some o) /\ no_match j o before
      /\ worker.NewClientFunc (proc j) (Some o) = Ok cli
      /\ now = {| worker.clientsCache := worker.clientsCache before;
                  worker.constructions := worker.constructions before ++ [o] |}
  | AtUnlock r =>
      exists opts, resolved j opts
        /\ worker.getClient_locked (proc j) (key_of j) opts before = (r, now)
  | AtResolve | AtLock _ | Finished _ => False
  end.

(** The invariant of the reachable configurations, for the history [h] of
    the goroutines that have finished and the cache [before] that their
    serial run leaves. *)
Record Inv (c0 : worker.Cache C) (c : config)
    (h : list (nat * result (option C))) (before : worker.Cache C) : Prop := {
  inv_length : length (pcs c) = length jobs;
  inv_serial : Serial c0 h before;
  inv_holder : forall t p, pcs c !! t = Some p -> in_cs p = true -> mu (shared c) = Some t;
  inv_free : mu (shared c) = None -> cache (shared c) = before;
  inv_held : forall t, mu (shared c) = Some t ->
             exists j p, jobs !! t = Some j /\ pcs c !! t = Some p
                         /\ pending j p before (cache (shared c));
  inv_waiting : forall t j opts, jobs !! t = Some j -> pcs c !! t = Some (AtLock opts) ->
                resolved j opts;
  inv_finished : forall t r, pcs c !! t = Some (Finished r) <-> In (t, r) h;
  inv_nodup : NoDup (map fst h)
}.
End Threads.
End concurrent.

(* ===================================================================== *)
(** ** Vocabulary of the specification *)
(* ===================================================================== *)

Section Vocabulary.
Variable url_Parse : string -> result externalsvc.url_URL.

(** The options a successfully built client stores: the options given,
    with the trailing slashes of the URL removed. *)
Definition cleaned (o : externalsvc.FreeScoutOptions) : externalsvc.FreeScoutOptions :=
  {| externalsvc.URL := TrimRight_slash (externalsvc.URL o);
     externalsvc.APIToken := externalsvc.APIToken o;
     externalsvc.MailboxID := externalsvc.MailboxID o;
     externalsvc.CustomerEmail := externalsvc.CustomerEmail o;
     externalsvc.AssignTo := externalsvc.AssignTo o |}.

(** A required option is missing, as the spec and the form that configures
    the integration have it: the options are the endpoint URL, the API token,
    the mailbox identifier and the customer email, and an assignee that is
    optional; the form refuses an empty URL, API token or customer email and
    the mailbox identifier zero. *)
Definition missing_required (o : option externalsvc.FreeScoutOptions) : bool :=
  match o with
  | None => true
  | Some o =>
      String.eqb (externalsvc.URL o) EmptyString
      || String.eqb (externalsvc.APIToken o) EmptyString
      || Z.eqb (externalsvc.MailboxID o) 0
      || String.eqb (externalsvc.CustomerEmail o) EmptyString
  end.

(** There are no options, or the URL is empty. *)
Definition missing_URL (o : option externalsvc.FreeScoutOptions) : bool :=
  match o with
  | None => true
  | Some o => String.eqb (externalsvc.URL o) EmptyString
  end.

(** The URL is invalid: it does not parse, or it has no scheme or no
    host. *)
Definition invalid_URL (o : option externalsvc.FreeScoutOptions) : bool :=
  match o with
  | None => false
  | Some o =>
      match url_Parse (externalsvc.URL o) with
      | Err _ => true
      | Ok u => String.eqb (externalsvc.Scheme u) EmptyString
                || String.eqb (externalsvc.Host u) EmptyString
      end
  end.

(** The three requests of the FreeScout API, written out field by field
    as the service is to receive them; the theorems compare what the client
    sends with them. The search asks for the active, published email
    conversations of the mailbox and the customer with the given subject,
    with their threads, sorted by update time in ascending order, first page,
    one conversation a page; [url.Values.Encode] writes the parameters in
    the order of their names. The thread is appended to conversation [id].
    The new conversation has one thread, which holds the message. *)
Definition search_request (f : externalsvc.FreeScout) (subject : string)
  : externalsvc.http_Request :=
  {| externalsvc.Method := externalsvc.MethodGet;
     externalsvc.ReqURL :=
       externalsvc.URL (externalsvc.opts f)
       +:+ "/api/conversations?customerEmail="
       +:+ externalsvc.url_QueryEscape (externalsvc.CustomerEmail (externalsvc.opts f))
       +:+ "&embed=threads&mailboxId=" +:+ fmt_int (externalsvc.MailboxID (externalsvc.opts f))
       +:+ "&page=1&pageSize=1&sortField=updatedAt&sortOrder=asc"
       +:+ "&state=published&status=active&subject="
       +:+ externalsvc.url_QueryEscape subject +:+ "&type=email";
     externalsvc.ReqHeader :=
       [("X-FreeScout-API-Key", externalsvc.APIToken (externalsvc.opts f));
        ("Content-Type", "application/json")];
     externalsvc.ReqBody := externalsvc.no_body |}.

Definition thread_request (f : externalsvc.FreeScout) (id : Z) (message : string)
  : externalsvc.http_Request :=
  {| externalsvc.Method := externalsvc.MethodPost;
     externalsvc.ReqURL :=
       externalsvc.URL (externalsvc.opts f) +:+ "/api/conversations/" +:+ fmt_int id
       +:+ "/threads";
     externalsvc.ReqHeader :=
       [("X-FreeScout-API-Key", externalsvc.APIToken (externalsvc.opts f));
        ("Content-Type", "application/json")];
     externalsvc.ReqBody :=
       externalsvc.thread_body
         {| externalsvc.tp_Type := "customer";
            externalsvc.tp_Text := message;
            externalsvc.tp_Customer :=
              Some {| externalsvc.Email :=
                        externalsvc.CustomerEmail (externalsvc.opts f) |};
            externalsvc.tp_Imported := false;
            externalsvc.tp_Status := "active" |} |}.

Definition create_request (f : externalsvc.FreeScout) (subject message : string)
  : externalsvc.http_Request :=
  {| externalsvc.Method := externalsvc.MethodPost;
     externalsvc.ReqURL := externalsvc.URL (externalsvc.opts f) +:+ "/api/conversations";
     externalsvc.ReqHeader :=
       [("X-FreeScout-API-Key", externalsvc.APIToken (externalsvc.opts f));
        ("Content-Type", "application/json")];
     externalsvc.ReqBody :=
       externalsvc.conversation_body
         {| externalsvc.cp_Type := "email";
            externalsvc.cp_MailboxID := externalsvc.MailboxID (externalsvc.opts f);
            externalsvc.cp_Subject := subject;
            externalsvc.cp_Customer :=
              Some {| externalsvc.Email :=
                        externalsvc.CustomerEmail (externalsvc.opts f) |};
            externalsvc.cp_Threads :=
              [ {| externalsvc.thread_Text := message;
                   externalsvc.thread_Type := "customer";
                   externalsvc.thread_Customer :=
                     Some {| externalsvc.Email :=
                               externalsvc.CustomerEmail (externalsvc.opts f) |} |} ];
            externalsvc.cp_Imported := false;
            externalsvc.cp_AssignTo :=
              if 0 <? externalsvc.AssignTo (externalsvc.opts f)
              then Some (externalsvc.AssignTo (externalsvc.opts f))
              else None;
            externalsvc.cp_Status := "active" |} |}.

(** A request that creates a conversation. *)
Definition is_create (req : externalsvc.http_Request) : bool :=
  match externalsvc.ReqBody req with
  | externalsvc.conversation_body _ => true
  | _ => false
  end.

(** The outcome of a request whose answer carries no value to read. *)
Definition outcome {A : Type} (r : result externalsvc.http_Response) (a : A) : result A :=
  match r with
  | Err e => Err e
  | Ok resp =>
      if externalsvc.status_2xx resp then Ok a else Err (externalsvc.request_failed resp)
  end.

End Vocabulary.

(* ===================================================================== *)
(** ** Sample collaborators

    Concrete stand-ins for what the model takes as variables, used to run
    the model on concrete inputs. *)
(* ===================================================================== *)

Module sample.

Definition is_letter (c : ascii) : bool :=
  let n := nat_of_ascii c in
  ((97 <=? n) && (n <=? 122) || (65 <=? n) && (n <=? 90))%nat.

Definition is_digit (c : ascii) : bool :=
  let n := nat_of_ascii c in ((48 <=? n) && (n <=? 57))%nat.

(** [getScheme] of [net/url]: the index of the colon that ends the scheme,
    if the text starts with one. *)
Fixpoint getScheme (i : nat) (s : string) : result (option nat) :=
  match s with
  | EmptyString => Ok None
  | String c rest =>
      if is_letter c then getScheme (S i) rest
      else if is_digit c || Ascii.eqb c "+" || Ascii.eqb c "-" || Ascii.eqb c "."
      then (if (i =? 0)%nat then Ok None else getScheme (S i) rest)
      else if Ascii.eqb c ":"
      then (if (i =? 0)%nat then Err (external_error "missing protocol scheme")
            else Ok (Some i))
      else Ok None
  end.

(** The text before the first [c]. *)
Fixpoint before (c : ascii) (s : string) : string :=
  match s with
  | EmptyString => EmptyString
  | String c' rest => if Ascii.eqb c c' then EmptyString else String c' (before c rest)
  end.

(** [net/url.Parse] on URLs of the shape [scheme://host/path?query#fragment]
    without control bytes, user information, ports, brackets or percent
    escapes: the scheme is what precedes the first colon, the host is what
    stands between the two slashes after it and the next slash. *)
Definition url_Parse (rawURL : string) : result externalsvc.url_URL :=
  let u := before "?" (before "#" rawURL) in
  try sch <- getScheme 0 u;
  match sch with
  | None =>
      Ok {| externalsvc.Scheme := EmptyString;
            externalsvc.Host :=
              if String.prefix "//" u
              then before "/" (String.substring 2 (String.length u - 2) u)
              else EmptyString |}
  | Some i =>
      let rest := String.substring (S i) (String.length u - S i) u in
      Ok {| externalsvc.Scheme := String.substring 0 i u;
            externalsvc.Host :=
              if String.prefix "//" rest
              then before "/" (String.substring 2 (String.length rest - 2) rest)
              else EmptyString |}
  end.

(** [strconv.ParseInt(s, 10, 64)] on unsigned decimal numerals. *)
Definition strconv_ParseInt (s : string) : result Z :=
  match NilEmpty.uint_of_string s with
  | Some (Decimal.Nil) => Err (external_error "strconv.ParseInt: invalid syntax")
  | Some d => Ok (Z.of_nat (Nat.of_uint d))
  | None => Err (external_error "strconv.ParseInt: invalid syntax")
  end.

(** Team integrations that are the team's own integrations, unmatched. *)
Definition MatchWithIntegrations (ti : fleet.Integrations) (_ : fleet.Integrations)
  : result fleet.Integrations := Ok ti.

(** No optional CVE metadata is printed in the samples. *)
Definition fmt_float64 (x : string) : string := x.
Definition fmt_Time (x : string) : string := x.
Definition nvdCVEURL : string := "https://nvd.nist.gov/vuln/detail/".

Abbreviation Args := (worker.freeScoutArgs string string).

(** JSON text of a name or string value. *)
Definition q (s : string) : string := dquote +:+ s +:+ dquote.

(** The payload of scenario A and the arguments it decodes to. *)
Definition vuln_payload : string :=
  "{" +:+ q "vulnerability" +:+ ":{" +:+ q "cve" +:+ ":" +:+ q "CVE-2024-0001" +:+ ","
      +:+ q "affected_software_ids" +:+ ":[1,2]}}".

Definition vuln_args : Args :=
  {| worker.Vulnerability :=
       Some {| worker.CVE := "CVE-2024-0001";
               worker.AffectedSoftwareIDs := [1%nat; 2%nat];
               worker.EPSSProbability := None;
               worker.CVSSScore := None;
               worker.CISAKnownExploit := None;
               worker.CVEPublished := None |};
     worker.FailingPolicy := None |}.

(** The empty JSON object decodes to arguments with neither payload. *)
Definition empty_args : Args :=
  {| worker.Vulnerability := None; worker.FailingPolicy := None |}.

(** [json.Unmarshal] on the two payloads above. *)
Definition json_Unmarshal (j : string) : result Args :=
  if String.eqb j "{}" then Ok empty_args
  else if String.eqb j vuln_payload then Ok vuln_args
  else Err (external_error "json: cannot unmarshal").

(** A FreeScout service that holds at most one active conversation: its
    state is the id of that conversation, [0] when there is none. A search
    answers with the id if there is one, a new conversation gets id 12, and
    a thread is accepted on the conversation that exists. *)
Definition search_body (id : Z) : string :=
  if (0 <? id)%Z then fmt_int id else EmptyString.

Definition http_Do (req : externalsvc.http_Request) (id : Z)
  : result externalsvc.http_Response * Z :=
  match externalsvc.ReqBody req with
  | externalsvc.no_body =>
      (Ok {| externalsvc.StatusCode := 200;
             externalsvc.Header_Get := fun _ => EmptyString;
             externalsvc.Body := search_body id |}, id)
  | externalsvc.conversation_body _ =>
      (Ok {| externalsvc.StatusCode := 201;
             externalsvc.Header_Get :=
               fun k => if String.eqb k "Resource-ID" then "12" else EmptyString;
             externalsvc.Body := EmptyString |}, 12%Z)
  | externalsvc.thread_body _ =>
      (Ok {| externalsvc.StatusCode := if (0 <? id)%Z then 201%Z else 404%Z;
             externalsvc.Header_Get := fun _ => EmptyString;
             externalsvc.Body := EmptyString |}, id)
  end.

(** The decoder of the search answers of that service. *)
Definition json_Decode (body : string) : result externalsvc.freeScoutConversationsResponse :=
  if String.eqb body EmptyString then Ok {| externalsvc.Conversations := [] |}
  else
    try id <- strconv_ParseInt body;
    Ok {| externalsvc.Conversations := [ {| externalsvc.ID := id |} ] |}.

(** The API client on that service, as the worker's client. *)
Definition client : worker.FreeScoutClient externalsvc.FreeScout (externalsvc.Net Z) :=
  FreeScout_client url_Parse json_Decode strconv_ParseInt Z http_Do.

Definition NewClientFunc (o : option externalsvc.FreeScoutOptions)
  : result externalsvc.FreeScout :=
  externalsvc.NewFreeScoutClient url_Parse o.

(** The configured integration at [url], enabled or not for both kinds of
    job, and the options [getClient] resolves from it when it is enabled. *)
Definition integration (url : string) (enabled : bool) : fleet.FreescoutIntegration :=
  {| fleet.URL := url;
     fleet.APIToken := "token";
     fleet.MailboxID := 1;
     fleet.CustomerEmail := "fleet@example.com";
     fleet.AssignTo := 0;
     fleet.EnableSoftwareVulnerabilities := enabled;
     fleet.EnableFailingPolicies := enabled |}.

Definition options (url : string) : externalsvc.FreeScoutOptions :=
  worker.options_of (integration url true).

(** A datastore with the given global integrations, no team and 60 hosts
    affected by any vulnerability. *)
Definition host (i : nat) : fleet.HostVulnerabilitySummary :=
  {| fleet.hv_ID := i;
     fleet.hv_DisplayName := "host" +:+ fmt_uint i;
     fleet.SoftwareInstalledPaths := [] |}.

Definition hosts60 : list fleet.HostVulnerabilitySummary := map host (seq 1 60).

Definition datastore (intgs : list fleet.FreescoutIntegration)
  : worker.Datastore fleet.Integrations :=
  {| worker.AppConfig := Ok {| fleet.ac_Integrations := {| fleet.Freescout := intgs |} |};
     worker.TeamLite := fun _ => Err (external_error "team not found");
     worker.HostsByCVE := fun _ => Ok hosts60;
     worker.HostVulnSummariesBySoftwareIDs := fun _ => Ok hosts60 |}.

Definition processor (intgs : list fleet.FreescoutIntegration)
  : worker.FreeScout externalsvc.FreeScout fleet.Integrations :=
  {| worker.FleetURL := "https://fleet.example.com";
     worker.ds := datastore intgs;
     worker.NewClientFunc := NewClientFunc |}.

Definition empty_cache : worker.Cache externalsvc.FreeScout :=
  {| worker.clientsCache := ∅; worker.constructions := [] |}.

(** [getClient] and [Run] of the processor with the given global
    integrations, on the sample service. *)
Definition getClient (intgs : list fleet.FreescoutIntegration) (args : Args)
    (st : worker.Cache externalsvc.FreeScout)
  : result (option externalsvc.FreeScout) * worker.Cache externalsvc.FreeScout :=
  worker.getClient (client_of_C := client) MatchWithIntegrations (processor intgs) args st.

Definition Run (intgs : list fleet.FreescoutIntegration) (argsJSON : string)
    (st : worker.Cache externalsvc.FreeScout) (n : externalsvc.Net Z)
  : result unit * worker.Cache externalsvc.FreeScout * externalsvc.Net Z :=
  worker.Run (client_of_C := client) MatchWithIntegrations json_Unmarshal
    fmt_float64 fmt_Time nvdCVEURL (processor intgs) argsJSON st n.

(** The network before any request, with the service holding the
    conversation [id] ([0]: none). *)
Definition net (id : Z) : externalsvc.Net Z :=
  {| externalsvc.world := id; externalsvc.sent := [] |}.

(** The conversations created by the requests sent so far: the subject
    and the texts of the threads of each. *)
Definition created (n : externalsvc.Net Z) : list (string * list string) :=
  flat_map
    (fun req =>
       match externalsvc.ReqBody req with
       | externalsvc.conversation_body p =>
           [(externalsvc.cp_Subject p,
             map externalsvc.thread_Text (externalsvc.cp_Threads p))]
       | _ => []
       end)
    (externalsvc.sent n).

(** The template arguments of scenario A: the vulnerability of the sample
    payload with the 60 hosts of the sample datastore. *)
Definition scenarioA_tplArgs : worker.freeScoutVulnTplArgs :=
  {| worker.NVDURL := nvdCVEURL;
     worker.vt_FleetURL := "https://fleet.example.com";
     worker.vt_CVE := "CVE-2024-0001";
     worker.vt_Hosts := hosts60;
     worker.vt_EPSSProbability := @None string;
     worker.vt_CVSSScore := None;
     worker.vt_CISAKnownExploit := None;
     worker.vt_CVEPublished := @None string |}.

(** The same endpoint written with and without a trailing slash. *)
Definition url_slash : string := "https://support.example.com/".
Definition url_plain : string := "https://support.example.com".

(** The cache after one job with the integration at [url] enabled. *)
Definition cache_after (url : string) : worker.Cache externalsvc.FreeScout :=
  snd (getClient [integration url true] vuln_args empty_cache).

(** Two jobs for the same vulnerability race on the key ["vuln:"], with the
    integration at [url] enabled. *)
Definition racing_jobs (url : string)
  : list (@concurrent.job externalsvc.FreeScout string string fleet.Integrations) :=
  let j := {| concurrent.proc := processor [integration url true];
              concurrent.jargs := vuln_args |} in
  [j; j].

Definition run_schedule (url : string) (sched : list nat)
  : @concurrent.config externalsvc.FreeScout :=
  concurrent.run_schedule (client_of_C := client) MatchWithIntegrations (racing_jobs url)
    sched (concurrent.init (racing_jobs url) empty_cache).

(** Goroutine 0 resolves its configuration and takes the mutex while
    goroutine 1 has not started. *)
Definition schedule_mid : list nat := [0; 0]%nat.

(** Both goroutines resolve; goroutine 0 takes the mutex, goroutine 1
    waits for it (its turn is skipped); goroutine 0 runs to its end, then
    goroutine 1 does. *)
Definition schedule_full : list nat :=
  [0; 1; 0; 1; 0; 0; 0; 0; 0; 0; 1; 1; 1; 1; 1; 1]%nat.

End sample.

(* ===================================================================== *)
(** ** Configuration resolution: vocabulary *)
(* ===================================================================== *)

Section ResolutionVocabulary.
Context {float64 Time : Type}.

(** The switch of an integration that [getClient] tests for a job: failing
    policies for a failing policy job, software vulnerabilities otherwise. *)
Definition enabled_for (args : worker.freeScoutArgs float64 Time)
    (intg : fleet.FreescoutIntegration) : bool :=
  match worker.FailingPolicy args with
  | Some _ => fleet.EnableFailingPolicies intg
  | None => fleet.EnableSoftwareVulnerabilities intg
  end.

End ResolutionVocabulary.

(* ===================================================================== *)
(** ** The API client: the second half of [CreateFreeScoutConversation] *)
(* ===================================================================== *)

Section ClientParts.
Variable url_Parse : string -> result externalsvc.url_URL.
Variable strconv_ParseInt : string -> result Z.
Variable W : Type.
Variable http_Do : externalsvc.http_Request -> W -> result externalsvc.http_Response * W.

(** The id that a successful creation returns: the [Resource-ID] header of
    the answer as a decimal number, [0] when it is absent or is no number. *)
Definition resource_id (resp : externalsvc.http_Response) : Z :=
  let resourceID := externalsvc.Header_Get resp "Resource-ID" in
  if String.eqb resourceID EmptyString then 0
  else
    match strconv_ParseInt resourceID with
    | Err _ => 0
    | Ok id => id
    end.

(** What [CreateFreeScoutConversation] does when the search found no
    conversation: the statements after [if existingID > 0 { ... }]. *)
Definition create_conversation (f : externalsvc.FreeScout) (subject message : string)
  : externalsvc.M W Z :=
  externalsvc.bind W
    (externalsvc.lift W
       (externalsvc.http_NewRequest url_Parse externalsvc.MethodPost
          (externalsvc.conversations_endpoint f)
          (externalsvc.conversation_body
             (externalsvc.conversation_payload f subject message))))
    (fun req =>
       let req := externalsvc.set_headers f req in
       externalsvc.bind W (externalsvc.client_Do W http_Do req)
         (fun resp =>
            if negb (externalsvc.status_2xx resp)
            then externalsvc.fail W (externalsvc.request_failed resp)
            else externalsvc.ret W (resource_id resp))).
End ClientParts.

(* ===================================================================== *)
(** ** The API client: the earlier revision of the file

    [server/service/externalsvc/freescout.go] as it was before the search
    for an existing conversation was added. Options, constructor, wire types
    and [FreeScoutConfigMatches] are those of the later revision. *)
(* ===================================================================== *)

Module externalsvc_prev.
Section Client.
Variable url_Parse : string -> result externalsvc.url_URL.
Variable strconv_ParseInt : string -> result Z.
Variable W : Type.
Variable http_Do : externalsvc.http_Request -> W -> result externalsvc.http_Response * W.

Definition conversation_payload (f : externalsvc.FreeScout) (subject message : string)
  : externalsvc.freeScoutConversationPayload :=
  let payload :=
    {| externalsvc.cp_Type := "email";
       externalsvc.cp_MailboxID := externalsvc.MailboxID (externalsvc.opts f);
       externalsvc.cp_Subject := subject;
       externalsvc.cp_Customer :=
         Some {| externalsvc.Email := externalsvc.CustomerEmail (externalsvc.opts f) |};
       externalsvc.cp_Threads :=
         [ {| externalsvc.thread_Text := message;
              externalsvc.thread_Type := "customer";
              externalsvc.thread_Customer :=
                Some {| externalsvc.Email :=
                          externalsvc.CustomerEmail (externalsvc.opts f) |} |} ];
       externalsvc.cp_Imported := true;
       externalsvc.cp_AssignTo := None;
       externalsvc.cp_Status := "active" |} in
  if 0 <? externalsvc.AssignTo (externalsvc.opts f)
  then {| externalsvc.cp_Type := externalsvc.cp_Type payload;
          externalsvc.cp_MailboxID := externalsvc.cp_MailboxID payload;
          externalsvc.cp_Subject := externalsvc.cp_Subject payload;
          externalsvc.cp_Customer := externalsvc.cp_Customer payload;
          externalsvc.cp_Threads := externalsvc.cp_Threads payload;
          externalsvc.cp_Imported := externalsvc.cp_Imported payload;
          externalsvc.cp_AssignTo := Some (externalsvc.AssignTo (externalsvc.opts f));
          externalsvc.cp_Status := externalsvc.cp_Status payload |}
  else payload.

(** [CreateFreeScoutConversation] creates a conversation on the FreeScout
    server targeted by the client. It returns the created conversation ID or
    an error. *)
Definition CreateFreeScoutConversation (f : externalsvc.FreeScout) (subject message : string)
  : externalsvc.M W Z :=
  externalsvc.bind W
    (externalsvc.lift W
       (externalsvc.http_NewRequest url_Parse externalsvc.MethodPost
          (externalsvc.conversations_endpoint f)
          (externalsvc.conversation_body (conversation_payload f subject message))))
    (fun req =>
       let req := externalsvc.set_headers f req in
       externalsvc.bind W (externalsvc.client_Do W http_Do req)
         (fun resp =>
            if negb (externalsvc.status_2xx resp)
            then externalsvc.fail W (externalsvc.request_failed resp)
            else
              let resourceID := externalsvc.Header_Get resp "Resource-ID" in
              if String.eqb resourceID EmptyString then externalsvc.ret W 0
              else
                match strconv_ParseInt resourceID with
                | Err _ => externalsvc.ret W 0
                | Ok id => externalsvc.ret W id
                end)).
End Client.

(** The creation request of this revision, as sent. *)
Definition create_request (f : externalsvc.FreeScout) (subject message : string)
  : externalsvc.http_Request :=
  externalsvc.set_headers f
    {| externalsvc.Method := externalsvc.MethodPost;
       externalsvc.ReqURL := externalsvc.conversations_endpoint f;
       externalsvc.ReqHeader := [];
       externalsvc.ReqBody := externalsvc.conversation_body (conversation_payload f subject message) |}.
End externalsvc_prev.

(** A payload with its [imported] flag set. *)
Definition set_Imported (b : bool) (p : externalsvc.freeScoutConversationPayload)
  : externalsvc.freeScoutConversationPayload :=
  {| externalsvc.cp_Type := externalsvc.cp_Type p;
     externalsvc.cp_MailboxID := externalsvc.cp_MailboxID p;
     externalsvc.cp_Subject := externalsvc.cp_Subject p;
     externalsvc.cp_Customer := externalsvc.cp_Customer p;
     externalsvc.cp_Threads := externalsvc.cp_Threads p;
     externalsvc.cp_Imported := b;
     externalsvc.cp_AssignTo := externalsvc.cp_AssignTo p;
     externalsvc.cp_Status := externalsvc.cp_Status p |}.

(* ===================================================================== *)
(** ** Package worker: queueing jobs *)
(* ===================================================================== *)

Module queue.

(** What the queueing functions read of a [fleet.SoftwareVulnerability]
    ([GetCVE()] and [Affected()]), of a [fleet.CVEMeta] and of a
    [fleet.Policy]. *)
Record SoftwareVulnerability : Type := {
  GetCVE : string;
  Affected : nat
}.

Record CVEMeta (float64 Time : Type) : Type := {
  meta_EPSSProbability : option float64;
  meta_CVSSScore : option float64;
  meta_CISAKnownExploit : option bool;
  meta_Published : option Time
}.
Arguments meta_EPSSProbability {float64 Time} _.
Arguments meta_CVSSScore {float64 Time} _.
Arguments meta_CISAKnownExploit {float64 Time} _.
Arguments meta_Published {float64 Time} _.

Record Policy : Type := {
  policy_ID : nat;
  policy_Name : string;
  policy_Critical : bool;
  policy_TeamID : option nat
}.

(** [freescoutName] is the name of the job as registered in the worker. *)
Definition freescoutName : string := "freescout".

Section Queue.
Context {float64 Time : Type}.

Abbreviation Args := (worker.freeScoutArgs float64 Time).

(** [QueueJob], a function of the package outside the excerpt: [Q] is the
    state of the job queue, and a call returns the ID of the queued job or an
    error. *)
Variable Q : Type.
Variable QueueJob : string -> Args -> Q -> result nat * Q.

(** The queue with the calls of [QueueJob] so far, oldest first. *)
Record Queue : Type := { store : Q; calls : list (string * Args) }.

Definition queue_job (name : string) (args : Args) (q : Queue) : result nat * Queue :=
  let '(r, s') := QueueJob name args (store q) in
  (r, {| store := s'; calls := calls q ++ [(name, args)] |}).

(** [cveGrouped[v.GetCVE()] = append(cveGrouped[v.GetCVE()], v.Affected())]
    for each vulnerability in turn. *)
Definition group_step (m : gmap string (list nat)) (v : SoftwareVulnerability)
  : gmap string (list nat) :=
  <[GetCVE v := default [] (m !! GetCVE v) ++ [Affected v]]> m.

Definition cveGrouped (recentVulns : list SoftwareVulnerability) : gmap string (list nat) :=
  fold_left group_step recentVulns ∅.

(** The arguments of the job of one CVE. *)
Definition vuln_job (cveMeta : gmap string (CVEMeta float64 Time))
    (cve : string) (sIDs : list nat) : Args :=
  let args :=
    match cveMeta !! cve with
    | Some meta =>
        {| worker.CVE := cve;
           worker.AffectedSoftwareIDs := sIDs;
           worker.EPSSProbability := meta_EPSSProbability meta;
           worker.CVSSScore := meta_CVSSScore meta;
           worker.CISAKnownExploit := meta_CISAKnownExploit meta;
           worker.CVEPublished := meta_Published meta |}
    | None =>
        {| worker.CVE := cve;
           worker.AffectedSoftwareIDs := sIDs;
           worker.EPSSProbability := None;
           worker.CVSSScore := None;
           worker.CISAKnownExploit := None;
           worker.CVEPublished := None |}
    end in
  {| worker.Vulnerability := Some args; worker.FailingPolicy := None |}.

(** [for cve, sIDs := range cveGrouped { ... }] over the entries in the
    order the loop meets them: it returns at the first job that cannot be
    queued. *)
Fixpoint queue_each (cveMeta : gmap string (CVEMeta float64 Time))
    (entries : list (string * list nat)) (q : Queue) : result unit * Queue :=
  match entries with
  | [] => (Ok tt, q)
  | (cve, sIDs) :: rest =>
      match queue_job freescoutName (vuln_job cveMeta cve sIDs) q with
      | (Err err, q') => (Err (ctxerr_Wrap err "queueing job"), q')
      | (Ok _, q') => queue_each cveMeta rest q'
      end
  end.

(** The order in which a [range] loop meets the entries of a map; Go
    leaves it unspecified. *)
Variable range_map : gmap string (list nat) -> list (string * list nat).

(** [QueueFreeScoutVulnJobs] queues the FreeScout vulnerability jobs to
    process asynchronously via the worker. *)
Definition QueueFreeScoutVulnJobs (recentVulns : list SoftwareVulnerability)
    (cveMeta : gmap string (CVEMeta float64 Time)) (q : Queue) : result unit * Queue :=
  queue_each cveMeta (range_map (cveGrouped recentVulns)) q.

Definition failing_policy_job (policy : Policy) (hosts : list fleet.PolicySetHost) : Args :=
  {| worker.Vulnerability := None;
     worker.FailingPolicy :=
       Some {| worker.PolicyID := policy_ID policy;
               worker.PolicyName := policy_Name policy;
               worker.PolicyCritical := policy_Critical policy;
               worker.TeamID := policy_TeamID policy;
               worker.fp_Hosts := hosts |} |}.

(** [QueueFreeScoutFailingPolicyJob] queues a FreeScout job for a failing
    policy to process asynchronously via the worker. The policy is read
    through its pointer without a test; the callers pass a policy. *)
Definition QueueFreeScoutFailingPolicyJob (policy : Policy)
    (hosts : list fleet.PolicySetHost) (q : Queue) : result unit * Queue :=
  if (length hosts =? 0)%nat then (Ok tt, q)
  else
    match queue_job freescoutName (failing_policy_job policy hosts) q with
    | (Err err, q') => (Err (ctxerr_Wrap err "queueing job"), q')
    | (Ok _, q') => (Ok tt, q')
    end.
End Queue.
Arguments store {float64 Time Q} _.
Arguments calls {float64 Time Q} _.

(** The store after the calls [l] of [QueueJob], made one after the other
    from the store [s]. *)
Definition store_after {float64 Time Q : Type}
    (QueueJob : string -> worker.freeScoutArgs float64 Time -> Q -> result nat * Q)
    (l : list (string * worker.freeScoutArgs float64 Time)) (s : Q) : Q :=
  fold_left (fun s c => snd (QueueJob (fst c) (snd c) s)) l s.

(** The job the queue is expected to hold for [cve], written out field by
    field: a vulnerability payload and no failing policy payload; the CVE;
    the IDs of the software affected by the vulnerabilities of that CVE, in
    the order of the list; each piece of metadata that the metadata map holds
    for the CVE, and none if it holds no entry. *)
Definition expected_job {float64 Time : Type}
    (cveMeta : gmap string (CVEMeta float64 Time))
    (recentVulns : list SoftwareVulnerability) (cve : string)
  : worker.freeScoutArgs float64 Time :=
  {| worker.Vulnerability :=
       Some {| worker.CVE := cve;
               worker.AffectedSoftwareIDs :=
                 map Affected (filter (fun v => GetCVE v = cve) recentVulns);
               worker.EPSSProbability :=
                 match cveMeta !! cve with
                 | Some meta => meta_EPSSProbability meta
                 | None => None
                 end;
               worker.CVSSScore :=
                 match cveMeta !! cve with
                 | Some meta => meta_CVSSScore meta
                 | None => None
                 end;
               worker.CISAKnownExploit :=
                 match cveMeta !! cve with
                 | Some meta => meta_CISAKnownExploit meta
                 | None => None
                 end;
               worker.CVEPublished :=
                 match cveMeta !! cve with
                 | Some meta => meta_Published meta
                 | None => None
                 end |};
     worker.FailingPolicy := None |}.

End queue.

(* ===================================================================== *)
(** ** Concurrent jobs: measures *)
(* ===================================================================== *)

Section Measures.
Context {C : Type}.

(** The steps a goroutine at [p] has at most ahead of it. *)
Definition steps_left (p : @concurrent.pc C) : nat :=
  match p with
  | concurrent.AtResolve => 8
  | concurrent.AtLock _ => 7
  | concurrent.AtCheckNil _ => 6
  | concurrent.AtLookup _ => 5
  | concurrent.AtMatch _ _ => 4
  | concurrent.AtNew _ => 3
  | concurrent.AtStore _ _ => 2
  | concurrent.AtUnlock _ => 1
  | concurrent.Finished _ => 0
  end.

Definition total_steps_left (c : @concurrent.config C) : nat :=
  list_sum (map steps_left (concurrent.pcs c)).

Definition is_finished (p : @concurrent.pc C) : bool :=
  match p with
  | concurrent.Finished _ => true
  | _ => false
  end.
End Measures.

(** Runs of a given number of steps. *)
Inductive steps {C W : Type} {client_of_C : worker.FreeScoutClient C W}
    {float64 Time TeamIntegrations : Type}
    (MatchWithIntegrations :
       TeamIntegrations -> fleet.Integrations -> result fleet.Integrations)
    (jobs : list (@concurrent.job C float64 Time TeamIntegrations))
  : nat -> @concurrent.config C -> @concurrent.config C -> Prop :=
  | steps_O (c : @concurrent.config C) : steps MatchWithIntegrations jobs 0 c c
  | steps_S (k : nat) (c c' c'' : @concurrent.config C) :
      steps MatchWithIntegrations jobs k c c' ->
      concurrent.step MatchWithIntegrations jobs c' c'' ->
      steps MatchWithIntegrations jobs (S k) c c''.

(* ===================================================================== *)
(** ** Further sample collaborators *)
(* ===================================================================== *)

(** The line that lists a host in the body of a message: a list item with
    the name of the host, linked to the page of the host in Fleet. *)
Definition host_item (fleetURL name : string) (id : nat) : string :=
  "* [" +:+ name +:+ "](" +:+ fleetURL +:+ "/hosts/" +:+ fmt_uint id +:+ ")".

(** [part] occurs in [text]; and the test of it on given texts. *)
Definition occurs (part text : string) : Prop :=
  exists pre post, text = pre +:+ part +:+ post.

Definition occurs_b (part text : string) : bool :=
  match String.index 0 part text with
  | Some _ => true
  | None => false
  end.

(** A run of [k] slashes. *)
Fixpoint slashes (k : nat) : string :=
  match k with
  | O => EmptyString
  | S k => String slash (slashes k)
  end.

Module scenarios.

(** A FreeScout service under maintenance: it answers every request with
    the status 503 and a text between white space, of which a no-break space
    (U+00A0), a line separator (U+2028) and a next line (U+0085) in UTF-8. *)
Definition http_Do_down (req : externalsvc.http_Request) (id : Z)
  : result externalsvc.http_Response * Z :=
  (Ok {| externalsvc.StatusCode := 503;
         externalsvc.Header_Get := fun _ => EmptyString;
         externalsvc.Body :=
           bytes [194; 160]%nat +:+ " down for maintenance "
           +:+ bytes [226; 128; 168; 194; 133]%nat +:+ nl |}, id).

(** A FreeScout service whose search answers with one conversation that
    has no id: the answer decodes to a conversation with id 0. *)
Definition http_Do_unnumbered (req : externalsvc.http_Request) (id : Z)
  : result externalsvc.http_Response * Z :=
  match externalsvc.ReqBody req with
  | externalsvc.no_body =>
      (Ok {| externalsvc.StatusCode := 200;
             externalsvc.Header_Get := fun _ => EmptyString;
             externalsvc.Body := "0" |}, id)
  | externalsvc.conversation_body _ =>
      (Ok {| externalsvc.StatusCode := 201;
             externalsvc.Header_Get :=
               fun k => if String.eqb k "Resource-ID" then "12" else EmptyString;
             externalsvc.Body := EmptyString |}, 12%Z)
  | externalsvc.thread_body _ =>
      (Ok {| externalsvc.StatusCode := 201;
             externalsvc.Header_Get := fun _ => EmptyString;
             externalsvc.Body := EmptyString |}, id)
  end.

(** The client the constructor builds from the sample options. *)
Definition api_client : externalsvc.FreeScout :=
  {| externalsvc.opts := sample.options sample.url_plain |}.

(** A job queue that hands out consecutive job IDs, and one that is
    full. *)
Definition QueueJob (name : string) (args : sample.Args) (next : nat) : result nat * nat :=
  (Ok next, S next).

Definition QueueJob_full (name : string) (args : sample.Args) (next : nat)
  : result nat * nat :=
  (Err (external_error "queue full"), next).

Definition empty_queue : @queue.Queue string string nat :=
  {| queue.store := 1%nat; queue.calls := [] |}.

(** Three recent vulnerabilities of two CVEs, one with metadata. *)
Definition recentVulns : list queue.SoftwareVulnerability :=
  [ {| queue.GetCVE := "CVE-2024-0001"; queue.Affected := 1%nat |};
    {| queue.GetCVE := "CVE-2024-0002"; queue.Affected := 7%nat |};
    {| queue.GetCVE := "CVE-2024-0001"; queue.Affected := 2%nat |} ].

Definition cveMeta : gmap string (queue.CVEMeta string string) :=
  {[ "CVE-2024-0002" :=
       {| queue.meta_EPSSProbability := Some "0.5";
          queue.meta_CVSSScore := Some "9.8";
          queue.meta_CISAKnownExploit := Some true;
          queue.meta_Published := None |} ]}.

(** The entries of a map in the order of its keys. *)
Definition range_map (m : gmap string (list nat)) : list (string * list nat) :=
  map_to_list m.

Definition policy : queue.Policy :=
  {| queue.policy_ID := 3%nat;
     queue.policy_Name := "disk encryption";
     queue.policy_Critical := true;
     queue.policy_TeamID := Some 5%nat |}.

(** Sixty hosts that fail the policy. *)
Definition failing_hosts60 : list fleet.PolicySetHost :=
  map (fun i => {| fleet.ph_ID := i; fleet.ph_DisplayName := "host" +:+ fmt_uint i |})
      (seq 1 60).

Definition failing_host : fleet.PolicySetHost :=
  {| fleet.ph_ID := 1%nat; fleet.ph_DisplayName := "host1" |}.

End scenarios.

(* ===================================================================== *)
(** * Properties *)
(* ===================================================================== *)

(** ** Strings and options *)

Lemma TrimRight_slash_no_slash (s : string) :
  ends_with_slash s = false -> TrimRight_slash s = s.
Proof.
  unfold ends_with_slash.
  induction s as [|c s IH]; [reflexivity|].
  cbn [last_char TrimRight_slash]. destruct s as [|c' s'].
  - cbn. intros ->. reflexivity.
  - intros H. rewrite (IH H). reflexivity.
Qed.

Lemma TrimRight_slash_ends (s : string) :
  ends_with_slash (TrimRight_slash s) = false.
Proof.
  unfold ends_with_slash.
  induction s as [|c s IH]; [reflexivity|].
  cbn [TrimRight_slash]. destruct (TrimRight_slash s) as [|c' s'] eqn:E.
  - destruct (Ascii.eqb c slash) eqn:Ec; cbn; [reflexivity|]. now rewrite Ec.
  - cbn [last_char]. exact IH.
Qed.

Lemma TrimRight_slash_changes (s : string) :
  ends_with_slash s = true -> TrimRight_slash s <> s.
Proof.
  intros H E. pose proof (TrimRight_slash_ends s) as H'.
  rewrite E in H'. congruence.
Qed.

Lemma FreeScoutOptions_eqb_eq (a b : externalsvc.FreeScoutOptions) :
  externalsvc.FreeScoutOptions_eqb a b = true <-> a = b.
Proof.
  unfold externalsvc.FreeScoutOptions_eqb. split.
  - rewrite !andb_true_iff, !String.eqb_eq, !Z.eqb_eq.
    destruct a, b; cbn. intros [[[[-> ->] ->] ->] ->]. reflexivity.
  - intros ->. rewrite !String.eqb_refl, !Z.eqb_refl. reflexivity.
Qed.

Lemma FreeScoutOptions_eqb_neq (a b : externalsvc.FreeScoutOptions) :
  externalsvc.FreeScoutOptions_eqb a b = false <-> a <> b.
Proof.
  rewrite <- FreeScoutOptions_eqb_eq. destruct (externalsvc.FreeScoutOptions_eqb a b).
  - split; [discriminate | intros H; now destruct H].
  - split; [discriminate | reflexivity].
Qed.

(** [FreeScoutConfigMatches] is structural equality between the options the
    client stores and the options supplied. *)
Lemma FreeScoutConfigMatches_iff (f : externalsvc.FreeScout) (o : externalsvc.FreeScoutOptions) :
  externalsvc.FreeScoutConfigMatches f o = true <-> externalsvc.opts f = o.
Proof. apply FreeScoutOptions_eqb_eq. Qed.

(** ** Printed numbers and texts *)

Lemma to_uint_not_Nil (n : nat) : Nat.to_uint n <> Decimal.Nil.
Proof.
  intros H. pose proof (DecimalNat.Unsigned.to_of (Nat.to_uint n)) as E.
  rewrite DecimalNat.Unsigned.of_to, H in E. discriminate.
Qed.

Lemma fmt_uint_inj (n m : nat) : fmt_uint n = fmt_uint m -> n = m.
Proof.
  unfold fmt_uint. intros H. apply DecimalNat.Unsigned.to_uint_inj.
  pose proof (NilZero.usu _ (to_uint_not_Nil n)) as Hn.
  pose proof (NilZero.usu _ (to_uint_not_Nil m)) as Hm.
  rewrite H in Hn. congruence.
Qed.

Lemma fmt_uint_not_empty (n : nat) : fmt_uint n <> EmptyString.
Proof.
  unfold fmt_uint. intros H.
  pose proof (NilZero.usu _ (to_uint_not_Nil n)) as Hn. rewrite H in Hn. discriminate.
Qed.

Lemma append_assoc (a b c : string) : (a +:+ b) +:+ c = a +:+ (b +:+ c).
Proof.
  induction a as [|x a IH]; [reflexivity|].
  change (String x ((a +:+ b) +:+ c) = String x (a +:+ (b +:+ c))). now rewrite IH.
Qed.

Lemma append_empty_r (a : string) : a +:+ EmptyString = a.
Proof.
  induction a as [|x a IH]; [reflexivity|].
  change (String x (a +:+ EmptyString) = String x a). now rewrite IH.
Qed.

Lemma list_ascii_of_string_app (a b : string) :
  list_ascii_of_string (a +:+ b) = list_ascii_of_string a ++ list_ascii_of_string b.
Proof.
  induction a as [|c a IH]; [reflexivity|].
  change (String c a +:+ b) with (String c (a +:+ b)). cbn. now rewrite IH.
Qed.

Lemma list_ascii_of_string_inj (a b : string) :
  list_ascii_of_string a = list_ascii_of_string b -> a = b.
Proof.
  intros H. rewrite <- (string_of_list_ascii_of_string a), H.
  apply string_of_list_ascii_of_string.
Qed.

Lemma string_of_uint_no_space (d : Decimal.uint) :
  Forall (fun c => c <> " "%char) (list_ascii_of_string (NilEmpty.string_of_uint d)).
Proof. induction d; cbn; constructor; (discriminate || assumption). Qed.

Lemma fmt_uint_no_space (n : nat) :
  Forall (fun c => c <> " "%char) (list_ascii_of_string (fmt_uint n)).
Proof.
  unfold fmt_uint, NilZero.string_of_uint.
  destruct (Nat.to_uint n) eqn:E; try apply string_of_uint_no_space.
  cbn. constructor; [discriminate | constructor].
Qed.

(** A text, a separator that ends in a space, a number and a closing text:
    the whole determines the text and the number. *)
Lemma numbered_text_inj (a b S d e T : list ascii) :
  Forall (fun c => c <> " "%char) d ->
  Forall (fun c => c <> " "%char) e ->
  a ++ (S ++ [" "%char]) ++ d ++ T = b ++ (S ++ [" "%char]) ++ e ++ T ->
  a = b /\ d = e.
Proof.
  assert (Hside : forall (c l S' : list ascii),
            c ++ S' ++ [" "%char] = (S' ++ [" "%char]) ++ l ->
            Forall (fun x => x <> " "%char) l -> c = []).
  { intros c l S' Heq Hl. destruct l as [|x l _] using rev_ind.
    - rewrite app_nil_r in Heq. apply (f_equal length) in Heq.
      rewrite !length_app in Heq. destruct c; [reflexivity | cbn in Heq; lia].
    - apply Forall_app in Hl as [_ Hx]. inversion Hx as [|? ? Hne _]; subst.
      rewrite !app_assoc in Heq. apply app_inj_tail in Heq as [_ Heq]. congruence. }
  assert (Hcase : forall (c d' e' : list ascii),
            Forall (fun x => x <> " "%char) e' ->
            c ++ (S ++ [" "%char]) ++ d' ++ T = (S ++ [" "%char]) ++ e' ++ T -> c = []).
  { intros c d' e' He' Heq.
    assert (Heq' : (c ++ S ++ [" "%char]) ++ d' = (S ++ [" "%char]) ++ e').
    { apply (app_inv_tail T). rewrite <- !app_assoc. rewrite <- !app_assoc in Heq.
      exact Heq. }
    apply app_eq_app in Heq' as [l [[H1 H2]|[H1 H2]]].
    - apply (Hside c l S H1). rewrite H2 in He'. now apply Forall_app in He' as [Hl _].
    - apply (f_equal length) in H1. rewrite !length_app in H1.
      destruct c; [reflexivity | cbn in H1; lia]. }
  intros Hd He Heq.
  apply app_eq_app in Heq as Hsplit. destruct Hsplit as [c [[H1 H2]|[H1 H2]]].
  - subst a. assert (c = []) as -> by (eapply (Hcase c d e He); now rewrite H2).
    rewrite app_nil_r in *. split; [reflexivity|].
    cbn [app] in H2. apply app_inv_head in H2. symmetry in H2. now apply app_inv_tail in H2.
  - subst b. assert (c = []) as -> by (eapply (Hcase c e d Hd); now rewrite H2).
    rewrite app_nil_r in *. split; [reflexivity|].
    cbn [app] in H2. apply app_inv_head in H2. now apply app_inv_tail in H2.
Qed.

Lemma numbered_string_inj (a b S T : string) (n m : nat) :
  a +:+ (S +:+ " ") +:+ fmt_uint n +:+ T = b +:+ (S +:+ " ") +:+ fmt_uint m +:+ T ->
  a = b /\ n = m.
Proof.
  intros H. apply (f_equal list_ascii_of_string) in H.
  rewrite !list_ascii_of_string_app in H.
  apply numbered_text_inj in H as [Ha Hn]; try apply fmt_uint_no_space.
  split; [now apply list_ascii_of_string_inj|].
  now apply fmt_uint_inj, list_ascii_of_string_inj.
Qed.

(** ** Construction *)

Section ConstructionFacts.
  Variable url_Parse : string -> result externalsvc.url_URL.

Lemma NewFreeScoutClient_Ok (o : externalsvc.FreeScoutOptions) (c : externalsvc.FreeScout) :
    externalsvc.NewFreeScoutClient url_Parse (Some o) = Ok c ->
    externalsvc.opts c = cleaned o.
  Proof.
    unfold externalsvc.NewFreeScoutClient.
    destruct (String.eqb (externalsvc.URL o) EmptyString); [discriminate|].
    destruct (url_Parse (externalsvc.URL o)) as [u|e]; cbn; [|discriminate].
    destruct (_ || _); [discriminate|].
    intros [= <-]. reflexivity.
  Qed.

Lemma NewFreeScoutClient_is_Err (o : option externalsvc.FreeScoutOptions) :
    is_Err (externalsvc.NewFreeScoutClient url_Parse o)
    = missing_URL o || invalid_URL url_Parse o.
  Proof.
    destruct o as [o|]; [|reflexivity]. cbn.
    destruct (String.eqb (externalsvc.URL o) EmptyString); [reflexivity|].
    destruct (url_Parse (externalsvc.URL o)) as [u|e]; cbn; [|reflexivity].
    destruct (_ || _); reflexivity.
  Qed.
End ConstructionFacts.

(** ** The client cache *)

Section CacheFacts.
Context {C W : Type} {client_of_C : worker.FreeScoutClient C W}.
Context {float64 Time TeamIntegrations : Type}.
Variable MatchWithIntegrations :
  TeamIntegrations -> fleet.Integrations -> result fleet.Integrations.

Implicit Types (f : worker.FreeScout C TeamIntegrations) (st : worker.Cache C).
Implicit Types (key : string) (o : externalsvc.FreeScoutOptions) (cli : C).
Implicit Types (args : worker.freeScoutArgs float64 Time).

(** Whether the cache holds a client for [key] that matches [o]. *)
Lemma getClient_locked_hit f key o st cli :
  worker.clientsCache st !! key = Some cli ->
  worker.FreeScoutConfigMatches cli o = true ->
  worker.getClient_locked f key (Some o) st = (Ok (Some cli), st).
Proof.
  intros Hk Hm. unfold worker.getClient_locked. now rewrite Hk, Hm.
Qed.

Lemma getClient_locked_miss f key o st :
  (forall cli, worker.clientsCache st !! key = Some cli ->
               worker.FreeScoutConfigMatches cli o = false) ->
  worker.getClient_locked f key (Some o) st = worker.getClient_build f key o st.
Proof.
  intros Hm. unfold worker.getClient_locked.
  destruct (worker.clientsCache st !! key) as [cli|] eqn:Hk; [|reflexivity].
  now rewrite (Hm cli eq_refl).
Qed.

Lemma getClient_build_Ok f key o st cli :
  worker.NewClientFunc f (Some o) = Ok cli ->
  worker.getClient_build f key o st =
    (Ok (Some cli),
     {| worker.clientsCache := <[key := cli]> (worker.clientsCache st);
        worker.constructions := worker.constructions st ++ [o] |}).
Proof. intros H. unfold worker.getClient_build. now rewrite H. Qed.

Lemma getClient_build_Err f key o st e :
  worker.NewClientFunc f (Some o) = Err e ->
  worker.getClient_build f key o st =
    (Err e,
     {| worker.clientsCache := worker.clientsCache st;
        worker.constructions := worker.constructions st ++ [o] |}).
Proof. intros H. unfold worker.getClient_build. now rewrite H. Qed.

(** [getClient] is the locked part run on the resolved options. *)
Lemma getClient_resolved f args st opts :
  worker.getClient_options MatchWithIntegrations f args = Ok opts ->
  worker.getClient MatchWithIntegrations f args st =
    worker.getClient_locked f (worker.getClient_key args) opts st.
Proof. intros H. unfold worker.getClient. now rewrite H. Qed.

(** An error of the locked part is an error of the constructor, called on
    the resolved options, and the map is the one before the call. *)
Lemma getClient_locked_Err f key opts st e :
  fst (worker.getClient_locked f key opts st) = Err e ->
  worker.clientsCache (snd (worker.getClient_locked f key opts st)) = worker.clientsCache st
  /\ exists o, opts = Some o /\ worker.NewClientFunc f (Some o) = Err e.
Proof.
  unfold worker.getClient_locked, worker.getClient_build.
  destruct opts as [o|]; [|discriminate].
  destruct (worker.clientsCache st !! key) as [cli|].
  - destruct (worker.FreeScoutConfigMatches cli o); [discriminate|].
    destruct (worker.NewClientFunc f (Some o)) as [c|e'] eqn:E; cbn; [discriminate|].
    intros [= ->]. eauto.
  - destruct (worker.NewClientFunc f (Some o)) as [c|e'] eqn:E; cbn; [discriminate|].
    intros [= ->]. eauto.
Qed.

(** C3. When configuration resolution yields no enabled integration,
    [getClient] removes the entry of the key from the cache map, whatever
    the cache held, leaves every other entry alone, calls no constructor, and
    returns no client and no error. *)
Theorem getClient_no_options_evicts f args st :
  worker.getClient_options MatchWithIntegrations f args = Ok None ->
  let key := worker.getClient_key args in
  let r := worker.getClient MatchWithIntegrations f args st in
  fst r = Ok None
  /\ worker.clientsCache (snd r) = delete key (worker.clientsCache st)
  /\ worker.clientsCache (snd r) !! key = None
  /\ (forall k, k <> key -> worker.clientsCache (snd r) !! k = worker.clientsCache st !! k)
  /\ worker.constructions (snd r) = worker.constructions st.
Proof.
  intros Hopts key r. subst r.
  rewrite (getClient_resolved _ _ _ _ Hopts). fold key. cbn.
  repeat split.
  - apply lookup_delete_eq.
  - intros k Hk. now apply lookup_delete_ne.
Qed.

(** The constructor is called and fails: its error and the old map. *)
Lemma getClient_construction_fails f args st o e :
  worker.getClient_options MatchWithIntegrations f args = Ok (Some o) ->
  (forall cli, worker.clientsCache st !! worker.getClient_key args = Some cli ->
               worker.FreeScoutConfigMatches cli o = false) ->
  worker.NewClientFunc f (Some o) = Err e ->
  worker.getClient MatchWithIntegrations f args st =
    (Err e, {| worker.clientsCache := worker.clientsCache st;
               worker.constructions := worker.constructions st ++ [o] |}).
Proof.
  intros Hopts Hmiss Herr.
  rewrite (getClient_resolved _ _ _ _ Hopts).
  rewrite (getClient_locked_miss _ _ _ _ Hmiss).
  apply (getClient_build_Err _ _ _ _ _ Herr).
Qed.

(** C10. If [NewClientFunc] returns an error inside [getClient], that error
    is returned and the cache map is left as it was: a client cached for
    the key before the call, also one built from other options, is still
    the entry of the key. *)
Theorem getClient_failed_construction_keeps_cache f args st o e :
  worker.getClient_options MatchWithIntegrations f args = Ok (Some o) ->
  (forall cli, worker.clientsCache st !! worker.getClient_key args = Some cli ->
               worker.FreeScoutConfigMatches cli o = false) ->
  worker.NewClientFunc f (Some o) = Err e ->
  let r := worker.getClient MatchWithIntegrations f args st in
  fst r = Err e
  /\ worker.clientsCache (snd r) = worker.clientsCache st
  /\ worker.clientsCache (snd r) !! worker.getClient_key args
     = worker.clientsCache st !! worker.getClient_key args
  /\ worker.constructions (snd r) = worker.constructions st ++ [o].
Proof.
  intros Hopts Hmiss Herr r. subst r.
  rewrite (getClient_construction_fails _ _ _ _ _ Hopts Hmiss Herr). cbn. auto.
Qed.

(** Whatever error [getClient] returns, the cache map is the one before
    the call. *)
Lemma getClient_Err_keeps_cache f args st e :
  fst (worker.getClient MatchWithIntegrations f args st) = Err e ->
  worker.clientsCache (snd (worker.getClient MatchWithIntegrations f args st))
  = worker.clientsCache st.
Proof.
  unfold worker.getClient.
  destruct (worker.getClient_options MatchWithIntegrations f args) as [opts|e'];
    [|reflexivity].
  intros H. now apply getClient_locked_Err in H.
Qed.
End CacheFacts.

(** The witness of C3: an integration that was enabled when the cache was
    filled and is disabled when the next job runs. *)
Lemma getClient_no_options_evicts_witness :
  worker.clientsCache (sample.cache_after sample.url_plain) !! "vuln:"
    = Some {| externalsvc.opts := sample.options sample.url_plain |}
  /\ fst (sample.getClient [sample.integration sample.url_plain false] sample.vuln_args
            (sample.cache_after sample.url_plain)) = Ok None
  /\ worker.clientsCache
       (snd (sample.getClient [sample.integration sample.url_plain false] sample.vuln_args
               (sample.cache_after sample.url_plain))) !! "vuln:" = None.
Proof.
  split; [vm_compute; reflexivity|].
  pose proof (getClient_no_options_evicts (client_of_C := sample.client)
                sample.MatchWithIntegrations
                (sample.processor [sample.integration sample.url_plain false])
                sample.vuln_args (sample.cache_after sample.url_plain) eq_refl) as H.
  cbv zeta in H. destruct H as (H1 & _ & H3 & _). split; [exact H1 | exact H3].
Defined.

(** The witness of C10: the URL of the enabled integration was changed to
    one without a scheme after the cache was filled. *)
Lemma getClient_failed_construction_keeps_cache_witness :
  fst (sample.getClient [sample.integration "support" true] sample.vuln_args
         (sample.cache_after sample.url_plain)) = Err (errors_New "invalid FreeScout URL")
  /\ worker.clientsCache
       (snd (sample.getClient [sample.integration "support" true] sample.vuln_args
               (sample.cache_after sample.url_plain)))
     = worker.clientsCache (sample.cache_after sample.url_plain).
Proof.
  pose proof (getClient_failed_construction_keeps_cache (client_of_C := sample.client)
                sample.MatchWithIntegrations
                (sample.processor [sample.integration "support" true])
                sample.vuln_args (sample.cache_after sample.url_plain)
                (sample.options "support") (errors_New "invalid FreeScout URL")
                eq_refl) as H.
  cbv zeta in H. destruct H as (H1 & H2 & _).
  - intros cli Hcli. vm_compute in Hcli. injection Hcli as <-. reflexivity.
  - reflexivity.
  - split; [exact H1 | exact H2].
Defined.

(** ** The cache with the API client *)

Section ApiClientCache.
Variable url_Parse : string -> result externalsvc.url_URL.
Variable json_Decode : string -> result externalsvc.freeScoutConversationsResponse.
Variable strconv_ParseInt : string -> result Z.
Variable W : Type.
Variable http_Do : externalsvc.http_Request -> W -> result externalsvc.http_Response * W.
Context {float64 Time TeamIntegrations : Type}.
Variable MatchWithIntegrations :
  TeamIntegrations -> fleet.Integrations -> result fleet.Integrations.

Implicit Types (f : worker.FreeScout externalsvc.FreeScout TeamIntegrations).
Implicit Types (st : worker.Cache externalsvc.FreeScout).
Implicit Types (old new o : externalsvc.FreeScoutOptions) (c : externalsvc.FreeScout).
Implicit Types (args : worker.freeScoutArgs float64 Time).

(** A client built from [o] matches the options [cleaned o] and no
    others. *)
Lemma built_client_matches o c o' :
  externalsvc.NewFreeScoutClient url_Parse (Some o) = Ok c ->
  externalsvc.FreeScoutConfigMatches c o' = true <-> o' = cleaned o.
Proof.
  intros Hc. rewrite FreeScoutConfigMatches_iff, (NewFreeScoutClient_Ok _ _ _ Hc).
  split; congruence.
Qed.

Lemma cleaned_id o : ends_with_slash (externalsvc.URL o) = false -> cleaned o = o.
Proof.
  intros H. unfold cleaned. rewrite (TrimRight_slash_no_slash _ H). now destruct o.
Qed.

(** X23. The rule by which [getClient] reuses or rebuilds a cached API
    client. The cache holds the client built from [old], and the options
    resolved for the job are [new]. If [new] is [old] with the trailing
    slashes of its URL removed, the cached client is returned and nothing
    changes. Otherwise the constructor is called once, on [new]: the client
    it returns is stored under the key in place of the prior entry and
    returned, and holds [new] with the trailing slashes of its URL removed;
    the error it returns is returned, and the prior entry stays. *)
Theorem getClient_rebuilds_on_changed_options f args st old new c_old :
  (forall p : option externalsvc.FreeScoutOptions,
      worker.NewClientFunc f p = externalsvc.NewFreeScoutClient url_Parse p) ->
  worker.getClient_options MatchWithIntegrations f args = Ok (Some new) ->
  externalsvc.NewFreeScoutClient url_Parse (Some old) = Ok c_old ->
  worker.clientsCache st !! worker.getClient_key args = Some c_old ->
  let key := worker.getClient_key args in
  let r := worker.getClient
             (client_of_C := FreeScout_client url_Parse json_Decode strconv_ParseInt W http_Do)
             MatchWithIntegrations f args st in
  (new = cleaned old -> r = (Ok (Some c_old), st))
  /\ (new <> cleaned old ->
      forall c_new, externalsvc.NewFreeScoutClient url_Parse (Some new) = Ok c_new ->
        fst r = Ok (Some c_new)
        /\ worker.clientsCache (snd r) = <[key := c_new]> (worker.clientsCache st)
        /\ worker.clientsCache (snd r) !! key = Some c_new
        /\ worker.constructions (snd r) = worker.constructions st ++ [new]
        /\ externalsvc.opts c_new = cleaned new)
  /\ (new <> cleaned old ->
      forall e, externalsvc.NewFreeScoutClient url_Parse (Some new) = Err e ->
        fst r = Err e
        /\ worker.clientsCache (snd r) = worker.clientsCache st
        /\ worker.constructions (snd r) = worker.constructions st ++ [new]).
Proof.
  intros Hf Hopts Hold Hcache key r. subst r.
  rewrite (getClient_resolved _ _ _ _ _ Hopts). fold key. fold key in Hcache.
  assert (Hmiss : new <> cleaned old ->
            forall cli, worker.clientsCache st !! key = Some cli ->
                        externalsvc.FreeScoutConfigMatches cli new = false).
  { intros Hne cli Hcli. rewrite Hcache in Hcli. injection Hcli as <-.
    apply not_true_is_false. intros Hm.
    now apply (built_client_matches old c_old new Hold) in Hm. }
  split; [|split].
  - intros Hsame. apply getClient_locked_hit; [exact Hcache|].
    cbn. now apply (built_client_matches old c_old new Hold).
  - intros Hne c_new Hnew. rewrite getClient_locked_miss by (intros cli Hcli; exact (Hmiss Hne cli Hcli)).
    rewrite (getClient_build_Ok _ _ _ _ c_new) by (rewrite Hf; exact Hnew). cbn.
    repeat split.
    + apply lookup_insert_eq.
    + now apply NewFreeScoutClient_Ok with (url_Parse := url_Parse).
  - intros Hne e Hnew. rewrite getClient_locked_miss by (intros cli Hcli; exact (Hmiss Hne cli Hcli)).
    rewrite (getClient_build_Err _ _ _ _ e) by (rewrite Hf; exact Hnew). cbn.
    repeat split.
Qed.
End ApiClientCache.

(** The witness of X23: the URL of the enabled integration changed between
    two jobs. *)
Lemma getClient_rebuilds_on_changed_options_witness :
  let r := sample.getClient [sample.integration "https://desk.example.com" true]
             sample.vuln_args (sample.cache_after sample.url_plain) in
  fst r = Ok (Some {| externalsvc.opts := sample.options "https://desk.example.com" |})
  /\ worker.clientsCache (snd r) !! "vuln:"
     = Some {| externalsvc.opts := sample.options "https://desk.example.com" |}
  /\ worker.constructions (snd r)
     = [sample.options sample.url_plain; sample.options "https://desk.example.com"].
Proof.
  pose proof (getClient_rebuilds_on_changed_options
                sample.url_Parse sample.json_Decode sample.strconv_ParseInt Z sample.http_Do
                sample.MatchWithIntegrations
                (sample.processor [sample.integration "https://desk.example.com" true])
                sample.vuln_args (sample.cache_after sample.url_plain)
                (sample.options sample.url_plain)
                (sample.options "https://desk.example.com")
                {| externalsvc.opts := sample.options sample.url_plain |}
                (fun _ => eq_refl) eq_refl eq_refl eq_refl) as H.
  cbv zeta in H. destruct H as (_ & H & _).
  destruct (H ltac:(discriminate)
              {| externalsvc.opts := sample.options "https://desk.example.com" |} eq_refl)
    as (H1 & _ & H3 & H4 & _).
  cbv zeta. split; [exact H1|]. split; [exact H3 | exact H4].
Defined.

(** C2, at the input where the code departs from it. The cache holds the
    client built from options whose URL ends in a slash; the configuration
    then changes to the same URL without the slash, so the options resolved
    for the next job differ from the old ones in the URL, and a client can
    be built from them. [getClient] does not call the constructor: it
    returns the client built from the old options, and the cache and the log
    of constructor calls stay as they were. *)
Lemma getClient_changed_options_not_rebuilt :
  let old := sample.options sample.url_slash in
  let new := sample.options sample.url_plain in
  let c_old := {| externalsvc.opts := sample.options sample.url_plain |} in
  let st := sample.cache_after sample.url_slash in
  let intgs := [sample.integration sample.url_plain true] in
  let r := sample.getClient intgs sample.vuln_args st in
  old <> new
  /\ sample.NewClientFunc (Some old) = Ok c_old
  /\ is_Ok (sample.NewClientFunc (Some new)) = true
  /\ worker.clientsCache st !! "vuln:" = Some c_old
  /\ worker.constructions st = [old]
  /\ worker.getClient_options sample.MatchWithIntegrations (sample.processor intgs)
       sample.vuln_args = Ok (Some new)
  /\ externalsvc.FreeScoutConfigMatches c_old new = true
  /\ fst r = Ok (Some c_old)
  /\ worker.constructions (snd r) = [old]
  /\ snd r = st.
Proof. cbv zeta. split; [discriminate|]. vm_compute. repeat split. Qed.

(** ** Matching and construction: the trailing slash *)

(** C1, at the input where the code departs from it. The enabled
    integration has a URL that ends in a slash, and two jobs run in a row
    with that same configuration. Both calls of [getClient] resolve the same
    options, both call the constructor, and both return a client: the client
    cached by the first call stores the URL without its slash, so the second
    call does not find it matching. *)
Lemma getClient_twice_trailing_slash :
  let intgs := [sample.integration sample.url_slash true] in
  let o := sample.options sample.url_slash in
  let c := {| externalsvc.opts := sample.options sample.url_plain |} in
  let r1 := sample.getClient intgs sample.vuln_args sample.empty_cache in
  let r2 := sample.getClient intgs sample.vuln_args (snd r1) in
  worker.getClient_options sample.MatchWithIntegrations (sample.processor intgs)
    sample.vuln_args = Ok (Some o)
  /\ fst r1 = Ok (Some c)
  /\ worker.clientsCache (snd r1) !! "vuln:" = Some c
  /\ externalsvc.FreeScoutConfigMatches c o = false
  /\ fst r2 = Ok (Some c)
  /\ worker.constructions (snd r2) = [o; o].
Proof. vm_compute. repeat split. Qed.

(** C5, at the input where the code departs from it. A client is built
    from options whose URL ends in a slash. It does not match those options,
    and it matches the different options whose URL has no slash. *)
Lemma FreeScoutConfigMatches_trailing_slash :
  let o := sample.options sample.url_slash in
  let o' := sample.options sample.url_plain in
  let c := {| externalsvc.opts := o' |} in
  externalsvc.NewFreeScoutClient sample.url_Parse (Some o) = Ok c
  /\ externalsvc.FreeScoutConfigMatches c o = false
  /\ o' <> o
  /\ externalsvc.FreeScoutConfigMatches c o' = true.
Proof. cbv zeta. repeat split; try (vm_compute; reflexivity). discriminate. Qed.

Section ConstructionAndMatching.
Variable url_Parse : string -> result externalsvc.url_URL.

(** A client built from options whose URL has no trailing slash matches
    exactly those options. *)
Lemma built_client_matches_exactly (o o' : externalsvc.FreeScoutOptions)
    (c : externalsvc.FreeScout) :
  ends_with_slash (externalsvc.URL o) = false ->
  externalsvc.NewFreeScoutClient url_Parse (Some o) = Ok c ->
  externalsvc.FreeScoutConfigMatches c o = true
  /\ (o' <> o -> externalsvc.FreeScoutConfigMatches c o' = false).
Proof.
  intros Hs Hc. pose proof (built_client_matches url_Parse o c) as H.
  rewrite (cleaned_id _ Hs) in H. split.
  - now apply H.
  - intros Hne. apply not_true_is_false. intros Hm. apply (H o' Hc) in Hm. contradiction.
Qed.

(** A client built from options whose URL ends in a slash does not match
    them. *)
Lemma built_client_mismatch (o : externalsvc.FreeScoutOptions) (c : externalsvc.FreeScout) :
  ends_with_slash (externalsvc.URL o) = true ->
  externalsvc.NewFreeScoutClient url_Parse (Some o) = Ok c ->
  externalsvc.FreeScoutConfigMatches c o = false.
Proof.
  intros Hs Hc. apply not_true_is_false. intros Hm.
  apply (built_client_matches url_Parse o c o Hc) in Hm.
  apply (TrimRight_slash_changes _ Hs). unfold cleaned in Hm.
  now rewrite Hm at 2.
Qed.
End ConstructionAndMatching.

(** ** Running a job *)

Section RunFacts.
Context {C W : Type} {client_of_C : worker.FreeScoutClient C W}.
Context {float64 Time TeamIntegrations : Type}.
Variable MatchWithIntegrations :
  TeamIntegrations -> fleet.Integrations -> result fleet.Integrations.
Variable json_Unmarshal : string -> result (worker.freeScoutArgs float64 Time).
Variable fmt_float64 : float64 -> string.
Variable fmt_Time : Time -> string.
Variable nvdCVEURL : string.

Implicit Types (f : worker.FreeScout C TeamIntegrations) (st : worker.Cache C) (w : W).
Implicit Types (args : worker.freeScoutArgs float64 Time) (j : string).


Lemma integrationType_vuln args :
  worker.FailingPolicy args = None -> worker.integrationType args = worker.intgTypeVuln.
Proof. unfold worker.integrationType. now intros ->. Qed.

Lemma integrationType_failingPolicy args fp :
  worker.FailingPolicy args = Some fp ->
  worker.integrationType args = worker.intgTypeFailingPolicy.
Proof. unfold worker.integrationType. now intros ->. Qed.

(** An error of [getClient] is the error of [Run], labelled. *)
Lemma Run_getClient_Err f j args st st' w e :
  json_Unmarshal j = Ok args ->
  worker.getClient MatchWithIntegrations f args st = (Err e, st') ->
  worker.Run MatchWithIntegrations json_Unmarshal fmt_float64 fmt_Time nvdCVEURL
     f j st w = (Err (ctxerr_Wrap e "get FreeScout client"), st', w).
Proof. intros Hj Hg. unfold worker.Run. now rewrite Hj, Hg. Qed.

(** No client: the job succeeds and the client is not called. *)
Lemma Run_no_client f j args st st' w :
  json_Unmarshal j = Ok args ->
  worker.getClient MatchWithIntegrations f args st = (Ok None, st') ->
  worker.Run MatchWithIntegrations json_Unmarshal fmt_float64 fmt_Time nvdCVEURL
     f j st w = (Ok tt, st', w).
Proof. intros Hj Hg. unfold worker.Run. now rewrite Hj, Hg. Qed.

(** C8, as amended. For a payload with neither sub-payload, [Run] returns
    the error "invalid job args" when [getClient] yields a client, and
    succeeds without calling the client when [getClient] yields none; an
    error of [getClient] is returned labelled. A payload with a failing
    policy sub-payload, with or without a vulnerability sub-payload beside
    it, is run as a failing policy job. *)
Theorem Run_missing_payload f j args st w :
  json_Unmarshal j = Ok args ->
  (worker.Vulnerability args = None -> worker.FailingPolicy args = None ->
   worker.Run MatchWithIntegrations json_Unmarshal fmt_float64 fmt_Time nvdCVEURL
     f j st w =
     match worker.getClient MatchWithIntegrations f args st with
     | (Err e, st') => (Err (ctxerr_Wrap e "get FreeScout client"), st', w)
     | (Ok None, st') => (Ok tt, st', w)
     | (Ok (Some _), st') => (Err (errors_New "invalid job args"), st', w)
     end)
  /\ (forall fp, worker.FailingPolicy args = Some fp ->
      worker.Run MatchWithIntegrations json_Unmarshal fmt_float64 fmt_Time nvdCVEURL
     f j st w =
        match worker.getClient MatchWithIntegrations f args st with
        | (Err e, st') => (Err (ctxerr_Wrap e "get FreeScout client"), st', w)
        | (Ok None, st') => (Ok tt, st', w)
        | (Ok (Some cli), st') =>
            let '(r, w') := worker.runFailingPolicy f cli args w in (r, st', w')
        end).
Proof.
  intros Hj. split.
  - intros Hv Hp. unfold worker.Run. rewrite Hj.
    destruct (worker.getClient MatchWithIntegrations f args st) as [[[cli|]|e] st']; try reflexivity.
    rewrite (integrationType_vuln _ Hp). cbn.
    unfold worker.runVuln. now rewrite Hv.
  - intros fp Hp. unfold worker.Run. rewrite Hj.
    destruct (worker.getClient MatchWithIntegrations f args st) as [[[cli|]|e] st']; try reflexivity.
    rewrite (integrationType_failingPolicy _ _ Hp). reflexivity.
Qed.
End RunFacts.

(** The witness of the amended C8: the empty JSON object as payload, with
    an integration enabled. *)
Lemma Run_missing_payload_witness :
  sample.json_Unmarshal "{}" = Ok sample.empty_args
  /\ fst (fst (sample.Run [sample.integration sample.url_plain true] "{}"
                 sample.empty_cache (sample.net 0)))
     = Err (errors_New "invalid job args").
Proof.
  split; [reflexivity|].
  pose proof (Run_missing_payload (client_of_C := sample.client)
                sample.MatchWithIntegrations sample.json_Unmarshal
                sample.fmt_float64 sample.fmt_Time sample.nvdCVEURL
                (sample.processor [sample.integration sample.url_plain true])
                "{}" sample.empty_args sample.empty_cache (sample.net 0) eq_refl) as [H _].
  unfold sample.Run. rewrite (H eq_refl eq_refl). vm_compute. reflexivity.
Defined.

(** The counterexample to C8 as stated: the empty JSON object as payload,
    which carries neither sub-payload, with the integration disabled. [Run]
    returns no error, and no request is sent. *)
Lemma Run_empty_payload_disabled :
  let r := sample.Run [sample.integration sample.url_plain false] "{}"
             sample.empty_cache (sample.net 0) in
  sample.json_Unmarshal "{}" = Ok sample.empty_args
  /\ worker.Vulnerability sample.empty_args = None
  /\ worker.FailingPolicy sample.empty_args = None
  /\ fst (fst r) = Ok tt
  /\ externalsvc.sent (snd r) = [].
Proof. vm_compute. repeat split. Qed.

(** ** Construction errors *)

Section ConstructionErrors.
Variable url_Parse : string -> result externalsvc.url_URL.
Variable json_Decode : string -> result externalsvc.freeScoutConversationsResponse.
Variable strconv_ParseInt : string -> result Z.
Variable W : Type.
Variable http_Do : externalsvc.http_Request -> W -> result externalsvc.http_Response * W.
Context {float64 Time TeamIntegrations : Type}.
Variable MatchWithIntegrations :
  TeamIntegrations -> fleet.Integrations -> result fleet.Integrations.
Variable json_Unmarshal : string -> result (worker.freeScoutArgs float64 Time).
Variable fmt_float64 : float64 -> string.
Variable fmt_Time : Time -> string.
Variable nvdCVEURL : string.

Lemma NewFreeScoutClient_valid (o : externalsvc.FreeScoutOptions) :
  missing_URL (Some o) = false ->
  invalid_URL url_Parse (Some o) = false ->
  externalsvc.NewFreeScoutClient url_Parse (Some o) = Ok {| externalsvc.opts := cleaned o |}.
Proof.
  cbn. intros Hm Hi. rewrite Hm.
  destruct (url_Parse (externalsvc.URL o)) as [u|e]; [|discriminate]. cbn.
  now rewrite Hi.
Qed.

(** Every option the constructor misses is one the spec requires. *)
Lemma missing_URL_required (p : option externalsvc.FreeScoutOptions) :
  missing_URL p = true -> missing_required p = true.
Proof.
  destruct p as [o|]; [|reflexivity]. cbn. intros ->. reflexivity.
Qed.

(** C7, as amended. [NewFreeScoutClient] returns an error exactly when
    there are no options, the URL is empty, or the URL is invalid (it does
    not parse, or has no scheme or no host). Every such error is one of a
    missing required option or of an invalid URL, as the claim says, and
    names its cause. The converse holds for the URL only: of the required
    options the constructor tests the URL alone, so whether it fails depends
    on no other field, and options without API token, mailbox or customer
    email give a client. When it succeeds the client stores the options
    with the trailing slashes of the URL removed. The error is not swallowed
    on the way to the caller: when [getClient] has no matching client cached
    and calls the constructor, [Run] returns the constructor's error under
    the label of the failed step. *)
Theorem NewFreeScoutClient_error_iff (p : option externalsvc.FreeScoutOptions) :
  is_Err (externalsvc.NewFreeScoutClient url_Parse p)
    = missing_URL p || invalid_URL url_Parse p
  /\ (is_Err (externalsvc.NewFreeScoutClient url_Parse p) = true ->
      missing_required p || invalid_URL url_Parse p = true)
  /\ (p = None ->
      externalsvc.NewFreeScoutClient url_Parse p
      = Err (errors_New "missing FreeScout options"))
  /\ (forall o, p = Some o -> externalsvc.URL o = EmptyString ->
      externalsvc.NewFreeScoutClient url_Parse p = Err (errors_New "missing FreeScout URL"))
  /\ (forall o, p = Some o -> externalsvc.URL o <> EmptyString ->
      externalsvc.NewFreeScoutClient url_Parse p
      = match url_Parse (externalsvc.URL o) with
        | Err e => Err e
        | Ok u =>
            if String.eqb (externalsvc.Scheme u) EmptyString
               || String.eqb (externalsvc.Host u) EmptyString
            then Err (errors_New "invalid FreeScout URL")
            else Ok {| externalsvc.opts :=
                         {| externalsvc.URL := TrimRight_slash (externalsvc.URL o);
                            externalsvc.APIToken := externalsvc.APIToken o;
                            externalsvc.MailboxID := externalsvc.MailboxID o;
                            externalsvc.CustomerEmail := externalsvc.CustomerEmail o;
                            externalsvc.AssignTo := externalsvc.AssignTo o |} |}
        end)
  /\ (forall o o', p = Some o -> externalsvc.URL o' = externalsvc.URL o ->
        is_Err (externalsvc.NewFreeScoutClient url_Parse (Some o'))
        = is_Err (externalsvc.NewFreeScoutClient url_Parse p))
  /\ (forall e o (f : worker.FreeScout externalsvc.FreeScout TeamIntegrations) j args st w,
        externalsvc.NewFreeScoutClient url_Parse p = Err e ->
        p = Some o ->
        worker.NewClientFunc f p = externalsvc.NewFreeScoutClient url_Parse p ->
        json_Unmarshal j = Ok args ->
        worker.getClient_options MatchWithIntegrations f args = Ok p ->
        (forall cli, worker.clientsCache st !! worker.getClient_key args = Some cli ->
                     externalsvc.FreeScoutConfigMatches cli o = false) ->
        fst (fst (worker.Run
                    (client_of_C :=
                       FreeScout_client url_Parse json_Decode strconv_ParseInt W http_Do)
                    MatchWithIntegrations json_Unmarshal fmt_float64 fmt_Time nvdCVEURL
                    f j st w))
        = Err (ctxerr_Wrap e "get FreeScout client")).
Proof.
  split; [apply NewFreeScoutClient_is_Err|]. split; [|split; [|split; [|split; [|split]]]].
  - rewrite NewFreeScoutClient_is_Err. intros [H|H]%orb_true_iff; apply orb_true_iff.
    + left. now apply missing_URL_required.
    + now right.
  - now intros ->.
  - intros o -> Hu. cbn. now rewrite Hu.
  - intros o -> Hu. cbn. apply String.eqb_neq in Hu. rewrite Hu.
    destruct (url_Parse (externalsvc.URL o)) as [u|e]; [|reflexivity]. cbn.
    now destruct (_ || _).
  - intros o o' -> Hurl. rewrite !NewFreeScoutClient_is_Err. cbn. now rewrite Hurl.
  - intros e o f j args st w He -> Hf Hj Hopts Hmiss.
    rewrite He in Hf.
    pose proof (getClient_construction_fails
                  (client_of_C :=
                     FreeScout_client url_Parse json_Decode strconv_ParseInt W http_Do)
                  MatchWithIntegrations f args st o e Hopts Hmiss Hf) as Hg.
    unfold worker.Run. rewrite Hj, Hg. reflexivity.
Qed.
End ConstructionErrors.

(** The counterexample to C7 as stated: options with a valid URL and
    without API token, mailbox and customer email. Required options are
    missing, and the constructor returns a client. *)
Lemma NewFreeScoutClient_accepts_missing_options :
  let o := {| externalsvc.URL := "https://support.example.com";
              externalsvc.APIToken := EmptyString;
              externalsvc.MailboxID := 0;
              externalsvc.CustomerEmail := EmptyString;
              externalsvc.AssignTo := 0 |} in
  missing_required (Some o) = true
  /\ invalid_URL sample.url_Parse (Some o) = false
  /\ externalsvc.NewFreeScoutClient sample.url_Parse (Some o) = Ok {| externalsvc.opts := o |}
  /\ is_Err (externalsvc.NewFreeScoutClient sample.url_Parse (Some o)) = false.
Proof. vm_compute. repeat split. Qed.

(** ** Templates: the host list *)

Lemma slice_hosts_firstn {A : Type} (l : list A) : worker.slice_hosts l = firstn 50 l.
Proof.
  unfold worker.slice_hosts. destruct (50 <? length l)%nat eqn:E; [reflexivity|].
  apply Nat.ltb_ge in E. rewrite !firstn_all2 by lia. reflexivity.
Qed.

Lemma slice_hosts_length {A : Type} (l : list A) :
  length (worker.slice_hosts l) = Nat.min 50 (length l).
Proof. rewrite slice_hosts_firstn. apply length_firstn. Qed.

Lemma occurs_within (part text pre post : string) :
  occurs part text -> occurs part (pre +:+ text +:+ post).
Proof.
  intros (p & q & ->). exists (pre +:+ p), (q +:+ post).
  now rewrite !append_assoc.
Qed.

Lemma occurs_range {A : Type} (body : A -> string) (l : list A) (i : nat) (x : A)
    (part : string) :
  l !! i = Some x -> occurs part (body x) -> occurs part (worker.range body l).
Proof.
  revert i. induction l as [|y l IH]; intros i; [discriminate|].
  destruct i as [|i]; cbn [worker.range].
  - intros [= ->] H.
    now apply (occurs_within part (body x) EmptyString (worker.range body l)).
  - intros Hi H. destruct (IH i Hi H) as (p & q & ->).
    exists (body y +:+ p), q. now rewrite append_assoc.
Qed.

(** C9. The body of a message lists the first 50 hosts of the host list
    and depends on no other host; the summary states the length of the whole
    list. For the vulnerability templates and for the failing policy
    templates alike: the item of each of the first 50 hosts (its name, linked
    to its page in Fleet) occurs in the body; two lists of hosts with the same
    first 50 hosts give the same body, whatever follows them and however
    long they are; the summary ends in the number of all hosts, so the
    summaries of lists of different lengths differ. In scenario A (a
    vulnerability job on 60 affected hosts) the conversation is created with
    the summary "Vulnerability CVE-2024-0001 detected on 60 host(s)" and
    a body in which the items of hosts 1 to 50 occur and the names of hosts 51
    to 60 do not; likewise for a failing policy job on 60 hosts. *)
Theorem host_list_capped :
  (forall (float64 Time : Type) (fmt_float64 : float64 -> string) (fmt_Time : Time -> string),
      (forall (a : worker.freeScoutVulnTplArgs) (i : nat) (h : fleet.HostVulnerabilitySummary),
          worker.vt_Hosts a !! i = Some h -> (i < 50)%nat ->
          occurs (host_item (worker.vt_FleetURL a) (fleet.hv_DisplayName h) (fleet.hv_ID h))
            (worker.VulnDescription fmt_float64 fmt_Time a))
      /\ (forall a b : worker.freeScoutVulnTplArgs,
            worker.NVDURL a = worker.NVDURL b ->
            worker.vt_FleetURL a = worker.vt_FleetURL b ->
            worker.vt_CVE a = worker.vt_CVE b ->
            worker.vt_EPSSProbability a = worker.vt_EPSSProbability b ->
            worker.vt_CVSSScore a = worker.vt_CVSSScore b ->
            worker.vt_CISAKnownExploit a = worker.vt_CISAKnownExploit b ->
            worker.vt_CVEPublished a = worker.vt_CVEPublished b ->
            firstn 50 (worker.vt_Hosts a) = firstn 50 (worker.vt_Hosts b) ->
            worker.VulnDescription fmt_float64 fmt_Time a
            = worker.VulnDescription fmt_float64 fmt_Time b)
      /\ (forall a : @worker.freeScoutVulnTplArgs float64 Time,
            worker.VulnSummary a
            = "Vulnerability " +:+ worker.vt_CVE a +:+ " detected on "
              +:+ fmt_uint (length (worker.vt_Hosts a)) +:+ " host(s)")
      /\ (forall a b : @worker.freeScoutVulnTplArgs float64 Time,
            length (worker.vt_Hosts a) <> length (worker.vt_Hosts b) ->
            worker.VulnSummary a <> worker.VulnSummary b))
  /\ ((forall (a : worker.failingPoliciesTplArgs) (i : nat) (h : fleet.PolicySetHost),
          worker.fpt_Hosts a !! i = Some h -> (i < 50)%nat ->
          occurs (host_item (worker.fpt_FleetURL a) (fleet.ph_DisplayName h) (fleet.ph_ID h))
            (worker.FailingPolicyDescription a))
      /\ (forall a b : worker.failingPoliciesTplArgs,
            worker.fpt_FleetURL a = worker.fpt_FleetURL b ->
            worker.fpt_PolicyID a = worker.fpt_PolicyID b ->
            worker.fpt_PolicyName a = worker.fpt_PolicyName b ->
            worker.fpt_PolicyCritical a = worker.fpt_PolicyCritical b ->
            worker.fpt_TeamID a = worker.fpt_TeamID b ->
            firstn 50 (worker.fpt_Hosts a) = firstn 50 (worker.fpt_Hosts b) ->
            worker.FailingPolicyDescription a = worker.FailingPolicyDescription b)
      /\ (forall a : worker.failingPoliciesTplArgs,
            worker.FailingPolicySummary a
            = worker.fpt_PolicyName a +:+ " policy failed on "
              +:+ fmt_uint (length (worker.fpt_Hosts a)) +:+ " host(s)")
      /\ (forall a b : worker.failingPoliciesTplArgs,
            length (worker.fpt_Hosts a) <> length (worker.fpt_Hosts b) ->
            worker.FailingPolicySummary a <> worker.FailingPolicySummary b))
  /\ (let r := sample.Run [sample.integration sample.url_plain true] sample.vuln_payload
                 sample.empty_cache (sample.net 0) in
      length sample.hosts60 = 60%nat
      /\ fst (fst r) = Ok tt
      /\ exists body,
           sample.created (snd r)
           = [("Vulnerability CVE-2024-0001 detected on 60 host(s)", [body])]
           /\ forallb (fun i => occurs_b (host_item "https://fleet.example.com"
                                            ("host" +:+ fmt_uint i) i) body)
                (seq 1 50) = true
           /\ forallb (fun i => negb (occurs_b ("host" +:+ fmt_uint i) body))
                (seq 51 10) = true)
  /\ (let r := worker.runFailingPolicy (client_of_C := sample.client)
                 (sample.processor [sample.integration sample.url_plain true])
                 scenarios.api_client
                 (queue.failing_policy_job (float64 := string) (Time := string)
                    scenarios.policy scenarios.failing_hosts60)
                 (sample.net 0) in
      length scenarios.failing_hosts60 = 60%nat
      /\ fst r = Ok tt
      /\ exists body,
           sample.created (snd r) = [("disk encryption policy failed on 60 host(s)", [body])]
           /\ forallb (fun i => occurs_b (host_item "https://fleet.example.com"
                                            ("host" +:+ fmt_uint i) i) body)
                (seq 1 50) = true
           /\ forallb (fun i => negb (occurs_b ("host" +:+ fmt_uint i) body))
                (seq 51 10) = true).
Proof.
  split; [|split; [|split]].
  - intros float64 Time fmt_float64 fmt_Time. split; [|split; [|split]].
    + intros a i h Hi Hlt. unfold worker.VulnDescription. rewrite slice_hosts_firstn.
      apply occurs_within.
      apply (occurs_range _ _ i h); [now rewrite lookup_take_lt|].
      exists nl, (nl +:+ worker.range worker.Vuln_path (fleet.SoftwareInstalledPaths h) +:+ nl).
      unfold worker.Vuln_host, host_item. now rewrite !append_assoc.
    + intros a b H1 H2 H3 H4 H5 H6 H7 H.
      unfold worker.VulnDescription, worker.Vuln_head, worker.Vuln_tail.
      now rewrite !slice_hosts_firstn, H, H1, H2, H3, H4, H5, H6, H7.
    + reflexivity.
    + intros a b Hne H. unfold worker.VulnSummary in H.
      change ("Vulnerability " +:+ worker.vt_CVE a +:+ (" detected on" +:+ " ")
              +:+ fmt_uint (length (worker.vt_Hosts a)) +:+ " host(s)"
              = "Vulnerability " +:+ worker.vt_CVE b +:+ (" detected on" +:+ " ")
                +:+ fmt_uint (length (worker.vt_Hosts b)) +:+ " host(s)") in H.
      rewrite <- !(append_assoc "Vulnerability ") in H.
      now apply numbered_string_inj in H as [_ Hn].
  - split; [|split; [|split]].
    + intros a i h Hi Hlt. unfold worker.FailingPolicyDescription. rewrite slice_hosts_firstn.
      apply occurs_within.
      apply (occurs_range _ _ i h); [now rewrite lookup_take_lt|].
      exists nl, nl. unfold worker.FailingPolicy_host, host_item. now rewrite !append_assoc.
    + intros a b H1 H2 H3 H4 H5 H.
      unfold worker.FailingPolicyDescription, worker.FailingPolicy_head,
        worker.FailingPolicy_tail.
      now rewrite !slice_hosts_firstn, H, H1, H2, H3, H4, H5.
    + reflexivity.
    + intros a b Hne H. unfold worker.FailingPolicySummary in H.
      change (worker.fpt_PolicyName a +:+ (" policy failed on" +:+ " ")
              +:+ fmt_uint (length (worker.fpt_Hosts a)) +:+ " host(s)"
              = worker.fpt_PolicyName b +:+ (" policy failed on" +:+ " ")
                +:+ fmt_uint (length (worker.fpt_Hosts b)) +:+ " host(s)") in H.
      now apply numbered_string_inj in H as [_ Hn].
  - cbv zeta. split; [reflexivity|]. split; [vm_compute; reflexivity|].
    exists (worker.VulnDescription sample.fmt_float64 sample.fmt_Time sample.scenarioA_tplArgs).
    split; [vm_compute; reflexivity|]. split; vm_compute; reflexivity.
  - cbv zeta. split; [reflexivity|]. split; [vm_compute; reflexivity|].
    exists (worker.FailingPolicyDescription
              (worker.newFailingPoliciesTplArgs "https://fleet.example.com"
                 {| worker.PolicyID := 3%nat;
                    worker.PolicyName := "disk encryption";
                    worker.PolicyCritical := true;
                    worker.TeamID := Some 5%nat;
                    worker.fp_Hosts := scenarios.failing_hosts60 |})).
    split; [vm_compute; reflexivity|]. split; vm_compute; reflexivity.
Qed.

(** ** The API client: the requests it builds *)

Lemma url_QueryEscape_uint (d : Decimal.uint) :
  externalsvc.url_QueryEscape (NilEmpty.string_of_uint d) = NilEmpty.string_of_uint d.
Proof. induction d; cbn; [reflexivity | now rewrite IHd ..]. Qed.

(** A printed integer holds digits and a sign: the query encoding leaves
    it as it is. *)
Lemma url_QueryEscape_fmt_int (z : Z) :
  externalsvc.url_QueryEscape (fmt_int z) = fmt_int z.
Proof.
  unfold fmt_int, NilZero.string_of_int, NilZero.string_of_uint.
  destruct (Z.to_int z) as [d|d]; destruct d; try reflexivity;
    try (cbn [externalsvc.url_QueryEscape]; cbn; f_equal);
    rewrite ?url_QueryEscape_uint; try reflexivity;
    change (externalsvc.url_QueryEscape (NilEmpty.string_of_uint d) = NilEmpty.string_of_uint d);
    apply url_QueryEscape_uint.
Qed.

(** What the three methods hand to [f.client.Do] are the requests of the
    API. *)
Lemma search_request_sent (f : externalsvc.FreeScout) (subject : string) :
  externalsvc.set_headers f
    {| externalsvc.Method := externalsvc.MethodGet;
       externalsvc.ReqURL := externalsvc.search_endpoint f subject;
       externalsvc.ReqHeader := [];
       externalsvc.ReqBody := externalsvc.no_body |}
  = search_request f subject.
Proof.
  unfold search_request. rewrite <- url_QueryEscape_fmt_int. reflexivity.
Qed.

Lemma thread_request_sent (f : externalsvc.FreeScout) (id : Z) (message : string) :
  externalsvc.set_headers f
    {| externalsvc.Method := externalsvc.MethodPost;
       externalsvc.ReqURL := externalsvc.thread_endpoint f id;
       externalsvc.ReqHeader := [];
       externalsvc.ReqBody := externalsvc.thread_body (externalsvc.thread_payload f message) |}
  = thread_request f id message.
Proof. reflexivity. Qed.

Lemma create_request_sent (f : externalsvc.FreeScout) (subject message : string) :
  externalsvc.set_headers f
    {| externalsvc.Method := externalsvc.MethodPost;
       externalsvc.ReqURL := externalsvc.conversations_endpoint f;
       externalsvc.ReqHeader := [];
       externalsvc.ReqBody :=
         externalsvc.conversation_body (externalsvc.conversation_payload f subject message) |}
  = create_request f subject message.
Proof.
  unfold create_request, externalsvc.conversation_payload.
  now destruct (0 <? externalsvc.AssignTo (externalsvc.opts f)).
Qed.

(** ** The API client: one conversation per subject *)

Section Dedup.
Variable url_Parse : string -> result externalsvc.url_URL.
Variable json_Decode : string -> result externalsvc.freeScoutConversationsResponse.
Variable strconv_ParseInt : string -> result Z.
Variable W : Type.
Variable http_Do : externalsvc.http_Request -> W -> result externalsvc.http_Response * W.

Implicit Types (f : externalsvc.FreeScout) (n : externalsvc.Net W).
Implicit Types (subject message : string).

Lemma http_NewRequest_Ok m endpoint b :
  is_Ok (url_Parse endpoint) = true ->
  externalsvc.http_NewRequest url_Parse m endpoint b
  = Ok {| externalsvc.Method := m; externalsvc.ReqURL := endpoint;
          externalsvc.ReqHeader := []; externalsvc.ReqBody := b |}.
Proof.
  unfold externalsvc.http_NewRequest. now destruct (url_Parse endpoint).
Qed.

(** The search, when it is answered with a list of conversations. *)
Lemma findExistingConversationID_Ok f subject n resp w1 payload :
  is_Ok (url_Parse (externalsvc.search_endpoint f subject)) = true ->
  http_Do (search_request f subject) (externalsvc.world n) = (Ok resp, w1) ->
  externalsvc.status_2xx resp = true ->
  json_Decode (externalsvc.Body resp) = Ok payload ->
  externalsvc.findExistingConversationID url_Parse json_Decode W http_Do f subject n
  = (Ok match externalsvc.Conversations payload with
        | [] => 0
        | c :: _ => externalsvc.ID c
        end,
     {| externalsvc.world := w1;
        externalsvc.sent := externalsvc.sent n ++ [search_request f subject] |}).
Proof.
  intros Hu Hdo H2 Hdec.
  unfold externalsvc.findExistingConversationID, externalsvc.bind, externalsvc.lift.
  rewrite (http_NewRequest_Ok _ _ _ Hu).
  unfold externalsvc.client_Do. rewrite (search_request_sent f subject). rewrite Hdo.
  rewrite H2. cbn [negb]. rewrite Hdec.
  now destruct (externalsvc.Conversations payload).
Qed.

Lemma createFreeScoutThread_run f id message n :
  is_Ok (url_Parse (externalsvc.thread_endpoint f id)) = true ->
  externalsvc.createFreeScoutThread url_Parse W http_Do f id message n
  = (outcome (fst (http_Do (thread_request f id message) (externalsvc.world n))) tt,
     {| externalsvc.world := snd (http_Do (thread_request f id message) (externalsvc.world n));
        externalsvc.sent := externalsvc.sent n ++ [thread_request f id message] |}).
Proof.
  intros Hu.
  unfold externalsvc.createFreeScoutThread, externalsvc.bind, externalsvc.lift.
  rewrite (http_NewRequest_Ok _ _ _ Hu).
  unfold externalsvc.client_Do. rewrite (thread_request_sent f id message).
  destruct (http_Do (thread_request f id message) (externalsvc.world n)) as [[resp|e] w2];
    cbn; [|reflexivity].
  now destruct (externalsvc.status_2xx resp).
Qed.
(** The creation, after a search that found no conversation to append
    to. *)
Lemma CreateFreeScoutConversation_new f subject message n w1 req_sent id :
  externalsvc.findExistingConversationID url_Parse json_Decode W http_Do f subject n
  = (Ok id, {| externalsvc.world := w1; externalsvc.sent := req_sent |}) ->
  id <= 0 ->
  is_Ok (url_Parse (externalsvc.conversations_endpoint f)) = true ->
  externalsvc.CreateFreeScoutConversation url_Parse json_Decode strconv_ParseInt W http_Do
    f subject message n
  = (match fst (http_Do (create_request f subject message) w1) with
     | Err e => Err e
     | Ok resp =>
         if externalsvc.status_2xx resp
         then Ok (resource_id strconv_ParseInt resp)
         else Err (externalsvc.request_failed resp)
     end,
     {| externalsvc.world := snd (http_Do (create_request f subject message) w1);
        externalsvc.sent := req_sent ++ [create_request f subject message] |}).
Proof.
  intros Hfind Hid Hu.
  unfold externalsvc.CreateFreeScoutConversation, externalsvc.bind at 1.
  rewrite Hfind. apply Z.ltb_ge in Hid. rewrite Hid.
  unfold externalsvc.bind, externalsvc.lift.
  rewrite (http_NewRequest_Ok _ _ _ Hu).
  unfold externalsvc.client_Do. rewrite (create_request_sent f subject message).
  cbn [externalsvc.world externalsvc.sent].
  destruct (http_Do (create_request f subject message) w1) as [[resp|e] w2];
    cbn [fst snd]; [|reflexivity].
  destruct (externalsvc.status_2xx resp); cbn [negb]; [|reflexivity].
  unfold resource_id, externalsvc.ret.
  destruct (String.eqb _ _); [reflexivity|].
  now destruct (strconv_ParseInt _).
Qed.

Lemma CreateFreeScoutConversation_existing f subject message n w1 req_sent id :
  externalsvc.findExistingConversationID url_Parse json_Decode W http_Do f subject n
  = (Ok id, {| externalsvc.world := w1; externalsvc.sent := req_sent |}) ->
  0 < id ->
  is_Ok (url_Parse (externalsvc.thread_endpoint f id)) = true ->
  externalsvc.CreateFreeScoutConversation url_Parse json_Decode strconv_ParseInt W http_Do
    f subject message n
  = (outcome (fst (http_Do (thread_request f id message) w1)) id,
     {| externalsvc.world := snd (http_Do (thread_request f id message) w1);
        externalsvc.sent := req_sent ++ [thread_request f id message] |}).
Proof.
  intros Hfind Hpos Hu.
  unfold externalsvc.CreateFreeScoutConversation, externalsvc.bind at 1.
  rewrite Hfind. apply Z.ltb_lt in Hpos. rewrite Hpos.
  unfold externalsvc.bind. rewrite (createFreeScoutThread_run _ _ _ _ Hu).
  cbn [externalsvc.world externalsvc.sent].
  destruct (http_Do (thread_request f id message) w1) as [[resp2|e] w2];
    cbn [fst snd outcome]; [|reflexivity].
  now destruct (externalsvc.status_2xx resp2).
Qed.

Lemma search_endpoint_eq f subject :
  externalsvc.search_endpoint f subject = externalsvc.ReqURL (search_request f subject).
Proof. now rewrite <- search_request_sent. Qed.

(** C6, as amended. The requests are written out in the statement. The
    search asks for the active conversations of the mailbox with the given
    subject, sorted by update time in ascending order, one a page. When its
    answer starts with a conversation whose id is positive,
    [CreateFreeScoutConversation] sends, after the search, one request that
    appends a thread holding the message to that conversation, and no request
    that creates a conversation; it returns the id of that conversation once
    the thread is accepted, and the error of the thread request otherwise.
    When the answer holds no conversation, or starts with one whose id is
    not positive, it sends, after the search, one request that creates a
    conversation with that subject and one thread holding the message, and
    returns the id the service names for it. *)
Theorem CreateFreeScoutConversation_dedup f subject message n resp w1 payload :
  let headers :=
    [("X-FreeScout-API-Key", externalsvc.APIToken (externalsvc.opts f));
     ("Content-Type", "application/json")] in
  let customer :=
    Some {| externalsvc.Email := externalsvc.CustomerEmail (externalsvc.opts f) |} in
  let search :=
    {| externalsvc.Method := externalsvc.MethodGet;
       externalsvc.ReqURL :=
         externalsvc.URL (externalsvc.opts f)
         +:+ "/api/conversations?customerEmail="
         +:+ externalsvc.url_QueryEscape (externalsvc.CustomerEmail (externalsvc.opts f))
         +:+ "&embed=threads&mailboxId="
         +:+ fmt_int (externalsvc.MailboxID (externalsvc.opts f))
         +:+ "&page=1&pageSize=1&sortField=updatedAt&sortOrder=asc"
         +:+ "&state=published&status=active&subject="
         +:+ externalsvc.url_QueryEscape subject +:+ "&type=email";
       externalsvc.ReqHeader := headers;
       externalsvc.ReqBody := externalsvc.no_body |} in
  let append := fun id : Z =>
    {| externalsvc.Method := externalsvc.MethodPost;
       externalsvc.ReqURL :=
         externalsvc.URL (externalsvc.opts f) +:+ "/api/conversations/" +:+ fmt_int id
         +:+ "/threads";
       externalsvc.ReqHeader := headers;
       externalsvc.ReqBody :=
         externalsvc.thread_body
           {| externalsvc.tp_Type := "customer";
              externalsvc.tp_Text := message;
              externalsvc.tp_Customer := customer;
              externalsvc.tp_Imported := false;
              externalsvc.tp_Status := "active" |} |} in
  let create :=
    {| externalsvc.Method := externalsvc.MethodPost;
       externalsvc.ReqURL := externalsvc.URL (externalsvc.opts f) +:+ "/api/conversations";
       externalsvc.ReqHeader := headers;
       externalsvc.ReqBody :=
         externalsvc.conversation_body
           {| externalsvc.cp_Type := "email";
              externalsvc.cp_MailboxID := externalsvc.MailboxID (externalsvc.opts f);
              externalsvc.cp_Subject := subject;
              externalsvc.cp_Customer := customer;
              externalsvc.cp_Threads :=
                [ {| externalsvc.thread_Text := message;
                     externalsvc.thread_Type := "customer";
                     externalsvc.thread_Customer := customer |} ];
              externalsvc.cp_Imported := false;
              externalsvc.cp_AssignTo :=
                if 0 <? externalsvc.AssignTo (externalsvc.opts f)
                then Some (externalsvc.AssignTo (externalsvc.opts f))
                else None;
              externalsvc.cp_Status := "active" |} |} in
  let failed := fun r : externalsvc.http_Response =>
    fmt_Errorf "freescout request failed: status %d: %s"
      [fmt_int (externalsvc.StatusCode r); strings_TrimSpace (externalsvc.Body r)] in
  is_Ok (url_Parse (externalsvc.ReqURL search)) = true ->
  http_Do search (externalsvc.world n) = (Ok resp, w1) ->
  Z.quot (externalsvc.StatusCode resp) 100 = 2 ->
  json_Decode (externalsvc.Body resp) = Ok payload ->
  let run :=
    externalsvc.CreateFreeScoutConversation url_Parse json_Decode strconv_ParseInt W http_Do
      f subject message n in
  (forall c rest,
     externalsvc.Conversations payload = c :: rest ->
     0 < externalsvc.ID c ->
     is_Ok (url_Parse (externalsvc.ReqURL (append (externalsvc.ID c)))) = true ->
     externalsvc.sent (snd run) = externalsvc.sent n ++ [search; append (externalsvc.ID c)]
     /\ externalsvc.world (snd run) = snd (http_Do (append (externalsvc.ID c)) w1)
     /\ fst run
        = match fst (http_Do (append (externalsvc.ID c)) w1) with
          | Err e => Err e
          | Ok r =>
              if Z.quot (externalsvc.StatusCode r) 100 =? 2
              then Ok (externalsvc.ID c)
              else Err (failed r)
          end)
  /\ (externalsvc.Conversations payload = []
      \/ (exists c rest, externalsvc.Conversations payload = c :: rest
                         /\ externalsvc.ID c <= 0) ->
      is_Ok (url_Parse (externalsvc.ReqURL create)) = true ->
      externalsvc.sent (snd run) = externalsvc.sent n ++ [search; create]
      /\ externalsvc.world (snd run) = snd (http_Do create w1)
      /\ fst run
         = match fst (http_Do create w1) with
           | Err e => Err e
           | Ok r =>
               if Z.quot (externalsvc.StatusCode r) 100 =? 2
               then
                 let header := externalsvc.Header_Get r "Resource-ID" in
                 Ok (match strconv_ParseInt header with
                     | Ok id => if String.eqb header EmptyString then 0 else id
                     | Err _ => 0
                     end)
               else Err (failed r)
           end).
Proof.
  intros headers customer search append create failed.
  change search with (search_request f subject).
  change create with (create_request f subject message).
  change append with (fun id => thread_request f id message).
  subst failed. cbv beta.
  intros Hu Hdo H2 Hdec run.
  rewrite <- search_endpoint_eq in Hu.
  assert (H2' : externalsvc.status_2xx resp = true)
    by (unfold externalsvc.status_2xx; now apply Z.eqb_eq).
  pose proof (findExistingConversationID_Ok f subject n resp w1 payload Hu Hdo H2' Hdec)
    as Hfind.
  split.
  - intros c rest Hc Hpos Hu2. rewrite Hc in Hfind. subst run.
    rewrite (CreateFreeScoutConversation_existing _ _ _ _ _ _ _ Hfind Hpos Hu2).
    cbn [fst snd externalsvc.sent externalsvc.world]. rewrite <- app_assoc.
    split; [reflexivity|]. split; [reflexivity|].
    now destruct (fst (http_Do (thread_request f (externalsvc.ID c) message) w1)).
  - intros Hnone Hu2. subst run.
    assert (Hid : match externalsvc.Conversations payload with
                  | [] => 0
                  | c :: _ => externalsvc.ID c
                  end <= 0).
    { destruct Hnone as [->|(c & rest & -> & Hle)]; [reflexivity | exact Hle]. }
    rewrite (CreateFreeScoutConversation_new _ _ _ _ _ _ _ Hfind Hid Hu2).
    cbn [fst snd externalsvc.sent externalsvc.world]. rewrite <- app_assoc.
    split; [reflexivity|]. split; [reflexivity|].
    destruct (fst (http_Do (create_request f subject message) w1)) as [r|e]; [|reflexivity].
    unfold externalsvc.status_2xx, resource_id.
    destruct (Z.quot (externalsvc.StatusCode r) 100 =? 2); [|reflexivity]. cbv zeta.
    destruct (String.eqb _ _); [|reflexivity].
    now destruct (strconv_ParseInt _).
Qed.
End Dedup.

(** The witness of the amended C6: the sample service holds conversation
    7, and a message with the subject of that conversation is appended to
    it. The search is sent to the URL below. *)
Lemma CreateFreeScoutConversation_dedup_witness :
  let f := {| externalsvc.opts := sample.options sample.url_plain |} in
  let run :=
    externalsvc.CreateFreeScoutConversation sample.url_Parse sample.json_Decode
      sample.strconv_ParseInt Z sample.http_Do f "Disk encryption policy failed on 2 host(s)"
      "message" (sample.net 7) in
  externalsvc.sent (snd run)
  = [search_request f "Disk encryption policy failed on 2 host(s)";
     thread_request f 7 "message"]
  /\ fst run = Ok 7
  /\ map externalsvc.ReqURL (externalsvc.sent (snd run))
     = ["https://support.example.com/api/conversations?customerEmail=fleet%40example.com"
        +:+ "&embed=threads&mailboxId=1&page=1&pageSize=1&sortField=updatedAt&sortOrder=asc"
        +:+ "&state=published&status=active"
        +:+ "&subject=Disk+encryption+policy+failed+on+2+host%28s%29&type=email";
        "https://support.example.com/api/conversations/7/threads"].
Proof.
  cbv zeta.
  pose proof (CreateFreeScoutConversation_dedup
                sample.url_Parse sample.json_Decode sample.strconv_ParseInt Z sample.http_Do
                {| externalsvc.opts := sample.options sample.url_plain |}
                "Disk encryption policy failed on 2 host(s)" "message" (sample.net 7)
                {| externalsvc.StatusCode := 200;
                   externalsvc.Header_Get := fun _ => EmptyString;
                   externalsvc.Body := "7" |}
                7 {| externalsvc.Conversations := [ {| externalsvc.ID := 7 |} ] |}
                eq_refl eq_refl eq_refl eq_refl) as H.
  cbv zeta in H. destruct H as (H & _).
  destruct (H {| externalsvc.ID := 7 |} [] eq_refl eq_refl eq_refl) as (Hs & _ & Hr).
  split; [exact Hs|]. split; [exact Hr|]. rewrite Hs. reflexivity.
Defined.

(** The counterexample to C6 as stated: the search returns a match, a
    conversation whose id is 0 (as an answer without the field decodes).
    No thread is appended: the client creates a new conversation. *)
Lemma CreateFreeScoutConversation_match_without_id :
  let f := scenarios.api_client in
  let run :=
    externalsvc.CreateFreeScoutConversation sample.url_Parse sample.json_Decode
      sample.strconv_ParseInt Z scenarios.http_Do_unnumbered f "subject" "message"
      (sample.net 0) in
  fst (scenarios.http_Do_unnumbered (search_request f "subject") 0)
  = Ok {| externalsvc.StatusCode := 200;
          externalsvc.Header_Get := fun _ => EmptyString;
          externalsvc.Body := "0" |}
  /\ sample.json_Decode "0"
     = Ok {| externalsvc.Conversations := [ {| externalsvc.ID := 0 |} ] |}
  /\ externalsvc.sent (snd run)
     = [search_request f "subject"; create_request f "subject" "message"]
  /\ filter is_create (externalsvc.sent (snd run)) = [create_request f "subject" "message"]
  /\ fst run = Ok 12.
Proof. cbv zeta. repeat split; vm_compute; reflexivity. Qed.

(** ** Concurrent jobs: the mutex *)

Section ThreadFacts.
Context {C W : Type} {client_of_C : worker.FreeScoutClient C W}.
Context {float64 Time TeamIntegrations : Type}.
Variable MatchWithIntegrations :
  TeamIntegrations -> fleet.Integrations -> result fleet.Integrations.
Variable jobs : list (@concurrent.job C float64 Time TeamIntegrations).

Abbreviation job := (@concurrent.job C float64 Time TeamIntegrations).
Abbreviation config := (@concurrent.config C).
Abbreviation pc := (@concurrent.pc C).
Abbreviation history := (list (nat * result (option C))).
Abbreviation Inv := (concurrent.Inv MatchWithIntegrations jobs).
Abbreviation step := (concurrent.step MatchWithIntegrations jobs).
Abbreviation reachable := (concurrent.reachable MatchWithIntegrations jobs).
Abbreviation Serial := (concurrent.Serial MatchWithIntegrations jobs).

Implicit Types (c : config) (t : nat) (j : job) (p q : pc) (h : history).
Implicit Types (start before : worker.Cache C).

Lemma Inv_init start : Inv start (concurrent.init jobs start) [] start.
Proof.
  split; cbn.
  - apply length_replicate.
  - constructor.
  - intros t p Hp. apply lookup_replicate in Hp as [-> _]. discriminate.
  - reflexivity.
  - discriminate.
  - intros t j opts _ Hp. apply lookup_replicate in Hp as [? _]. discriminate.
  - intros t r. split; [|contradiction].
    intros Hp. apply lookup_replicate in Hp as [? _]. discriminate.
  - constructor.
Qed.

(** The entry of a goroutine after goroutine [t] moved to [p']. *)
Lemma lookup_moved (l : list pc) t t' p p' q :
  l !! t = Some p ->
  <[t := p']> l !! t' = Some q ->
  (t' = t /\ q = p') \/ (t' <> t /\ l !! t' = Some q).
Proof.
  intros Hp Hq. destruct (decide (t' = t)) as [->|Hne].
  - left. rewrite list_lookup_insert_eq in Hq by (eapply lookup_lt_Some; eauto).
    split; congruence.
  - right. rewrite list_lookup_insert_ne in Hq by congruence. auto.
Qed.

Lemma lookup_moved_self (l : list pc) t p p' :
  l !! t = Some p -> <[t := p']> l !! t = Some p'.
Proof. intros Hp. apply list_lookup_insert_eq. eapply lookup_lt_Some; eauto. Qed.

(** A goroutine that is not yet finished is not in the history. *)
Lemma not_in_history start c h before t p :
  Inv start c h before ->
  concurrent.pcs c !! t = Some p ->
  (forall r, p <> concurrent.Finished r) ->
  ~ In t (map fst h).
Proof.
  intros HI Hp Hnf Hin. apply in_map_iff in Hin as [[t' r] [Ht Hin]]. cbn in Ht. subst t'.
  apply (concurrent.inv_finished _ _ _ _ _ _ HI) in Hin. rewrite Hp in Hin.
  injection Hin as ->. now apply (Hnf r).
Qed.

(** What the holder of the mutex knows. *)
Lemma holder_pending start c h before t j p :
  Inv start c h before ->
  jobs !! t = Some j ->
  concurrent.pcs c !! t = Some p ->
  concurrent.in_cs p = true ->
  concurrent.mu (concurrent.shared c) = Some t
  /\ concurrent.pending MatchWithIntegrations j p before
       (concurrent.cache (concurrent.shared c)).
Proof.
  intros HI Hj Hp Hcs.
  pose proof (concurrent.inv_holder _ _ _ _ _ _ HI t p Hp Hcs) as Hmu.
  split; [exact Hmu|].
  destruct (concurrent.inv_held _ _ _ _ _ _ HI t Hmu) as (j' & p' & Hj' & Hp' & Hpend).
  congruence.
Qed.

(** A step of the holder of the mutex that keeps the mutex. *)
Lemma Inv_inside start c h before t j p p' now :
  Inv start c h before ->
  jobs !! t = Some j ->
  concurrent.pcs c !! t = Some p ->
  concurrent.in_cs p = true ->
  concurrent.in_cs p' = true ->
  concurrent.pending MatchWithIntegrations j p' before now ->
  Inv start
    {| concurrent.shared :=
         {| concurrent.mu := concurrent.mu (concurrent.shared c); concurrent.cache := now |};
       concurrent.pcs := <[t := p']> (concurrent.pcs c) |} h before.
Proof.
  intros HI Hj Hp Hcs Hcs' Hpend.
  destruct (holder_pending _ _ _ _ _ _ _ HI Hj Hp Hcs) as [Hmu _].
  destruct HI as [Hlen Hser Hhold Hfree Hheld Hwait Hfin Hnd].
  split; cbn.
  - now rewrite length_insert.
  - exact Hser.
  - intros t' q Hq Hq'. destruct (lookup_moved _ _ _ _ _ _ Hp Hq) as [[-> ->]|[Hne Hq0]];
      [exact Hmu | eauto].
  - rewrite Hmu. discriminate.
  - intros t' Ht'. rewrite Hmu in Ht'. injection Ht' as <-.
    exists j, p'. split; [exact Hj|]. split; [now apply lookup_moved_self with p | exact Hpend].
  - intros t' j' opts Hj' Hq. destruct (lookup_moved _ _ _ _ _ _ Hp Hq) as [[-> Heq]|[Hne Hq0]];
      [rewrite <- Heq in Hcs'; discriminate | eauto].
  - intros t' r. rewrite <- Hfin. split; intros Hq.
    + destruct (lookup_moved _ _ _ _ _ _ Hp Hq) as [[-> Heq]|[Hne Hq0]];
        [rewrite <- Heq in Hcs'; discriminate | exact Hq0].
    + destruct (decide (t' = t)) as [->|Hne].
      * rewrite Hp in Hq. injection Hq as ->. discriminate.
      * now rewrite list_lookup_insert_ne by congruence.
  - exact Hnd.
Qed.

(** A step of a goroutine outside the mutex that neither takes the mutex
    nor finishes. *)
Lemma Inv_outside start c h before t j p opts :
  Inv start c h before ->
  jobs !! t = Some j ->
  concurrent.pcs c !! t = Some p ->
  concurrent.in_cs p = false ->
  (forall r, p <> concurrent.Finished r) ->
  concurrent.resolved MatchWithIntegrations j opts ->
  Inv start
    {| concurrent.shared := concurrent.shared c;
       concurrent.pcs := <[t := concurrent.AtLock opts]> (concurrent.pcs c) |} h before.
Proof.
  intros HI Hj Hp Hcs Hnf Hres.
  destruct HI as [Hlen Hser Hhold Hfree Hheld Hwait Hfin Hnd].
  split; cbn.
  - now rewrite length_insert.
  - exact Hser.
  - intros t' q Hq Hq'. destruct (lookup_moved _ _ _ _ _ _ Hp Hq) as [[-> ->]|[Hne Hq0]];
      [discriminate | eauto].
  - exact Hfree.
  - intros t' Ht'. destruct (Hheld t' Ht') as (j' & p' & Hj' & Hp' & Hpend).
    exists j', p'. split; [exact Hj'|]. split; [|exact Hpend].
    destruct (decide (t' = t)) as [->|Hne].
    + rewrite Hp in Hp'. injection Hp' as <-.
      destruct p; cbn in Hcs, Hpend; try discriminate; contradiction.
    + now rewrite list_lookup_insert_ne by congruence.
  - intros t' j' opts' Hj' Hq. destruct (lookup_moved _ _ _ _ _ _ Hp Hq) as [[-> Heq]|[Hne Hq0]].
    + injection Heq as ->. congruence.
    + eauto.
  - intros t' r. rewrite <- Hfin. split; intros Hq.
    + destruct (lookup_moved _ _ _ _ _ _ Hp Hq) as [[-> ?]|[Hne Hq0]];
        [discriminate | exact Hq0].
    + destruct (decide (t' = t)) as [->|Hne].
      * rewrite Hp in Hq. injection Hq as ->. now destruct (Hnf r).
      * now rewrite list_lookup_insert_ne by congruence.
  - exact Hnd.
Qed.

(** A goroutine finishes with the result [r] of its job, which leaves the
    cache [after]: it joins the history. The mutex is free afterwards
    unless another goroutine holds it. *)
Lemma Inv_finish start c h before t j p r after m :
  Inv start c h before ->
  jobs !! t = Some j ->
  concurrent.pcs c !! t = Some p ->
  (forall r', p <> concurrent.Finished r') ->
  worker.getClient MatchWithIntegrations (concurrent.proc j) (concurrent.jargs j) before
    = (r, after) ->
  (if concurrent.in_cs p
   then m = None /\ after = concurrent.cache (concurrent.shared c)
   else m = concurrent.mu (concurrent.shared c) /\ after = before) ->
  Inv start
    {| concurrent.shared :=
         {| concurrent.mu := m; concurrent.cache := concurrent.cache (concurrent.shared c) |};
       concurrent.pcs := <[t := concurrent.Finished r]> (concurrent.pcs c) |}
    (h ++ [(t, r)]) after.
Proof.
  intros HI Hj Hp Hnf Hrun Hm.
  pose proof (not_in_history _ _ _ _ _ _ HI Hp Hnf) as Hfresh.
  assert (Hmu : concurrent.in_cs p = true -> concurrent.mu (concurrent.shared c) = Some t)
    by (intros Hcs; now apply (concurrent.inv_holder _ _ _ _ _ _ HI t p)).
  destruct HI as [Hlen Hser Hhold Hfree Hheld Hwait Hfin Hnd].
  split; cbn.
  - now rewrite length_insert.
  - pose proof (concurrent.Serial_snoc MatchWithIntegrations jobs _ _ _ t j Hser Hj) as H.
    now rewrite Hrun in H.
  - intros t' q Hq Hq'. destruct (lookup_moved _ _ _ _ _ _ Hp Hq) as [[-> ->]|[Hne Hq0]];
      [discriminate|].
    pose proof (Hhold t' q Hq0 Hq') as Ht'.
    destruct (concurrent.in_cs p) eqn:Hcs.
    + rewrite (Hmu eq_refl) in Ht'. congruence.
    + destruct Hm as [-> _]. exact Ht'.
  - intros Hnone. destruct (concurrent.in_cs p) eqn:Hcs.
    + now destruct Hm as [_ ->].
    + destruct Hm as [-> ->]. auto.
  - intros t' Ht'. destruct (concurrent.in_cs p) eqn:Hcs.
    + destruct Hm as [-> _]. discriminate.
    + destruct Hm as [-> ->].
      destruct (Hheld t' Ht') as (j' & p' & Hj' & Hp' & Hpend).
      exists j', p'. split; [exact Hj'|]. split; [|exact Hpend].
      destruct (decide (t' = t)) as [->|Hne].
      * rewrite Hp in Hp'. injection Hp' as <-.
        destruct p; cbn in Hcs, Hpend; try discriminate; contradiction.
      * now rewrite list_lookup_insert_ne by congruence.
  - intros t' j' opts Hj' Hq. destruct (lookup_moved _ _ _ _ _ _ Hp Hq) as [[-> ?]|[Hne Hq0]];
      [discriminate | eauto].
  - intros t' r'. rewrite in_app_iff. cbn. split.
    + intros Hq. destruct (lookup_moved _ _ _ _ _ _ Hp Hq) as [[-> Heq]|[Hne Hq0]].
      * injection Heq as ->. right. now left.
      * left. now apply Hfin.
    + intros [Hin|[Heq|[]]].
      * destruct (decide (t' = t)) as [->|Hne].
        -- destruct Hfresh. apply in_map_iff. now exists (t, r').
        -- rewrite list_lookup_insert_ne by congruence. now apply Hfin.
      * injection Heq as <- <-. now apply lookup_moved_self with p.
  - rewrite map_app. cbn. apply NoDup_app. split; [exact Hnd|]. split.
    + intros x Hx Hx'. apply list_elem_of_In in Hx. apply list_elem_of_singleton in Hx'.
      now subst x.
    + apply NoDup_singleton.
Qed.

(** A goroutine takes the free mutex. *)
Lemma Inv_acquire start c h before t j opts :
  Inv start c h before ->
  jobs !! t = Some j ->
  concurrent.pcs c !! t = Some (concurrent.AtLock opts) ->
  concurrent.mu (concurrent.shared c) = None ->
  Inv start
    {| concurrent.shared := concurrent.set_mu (Some t) (concurrent.shared c);
       concurrent.pcs := <[t := concurrent.AtCheckNil opts]> (concurrent.pcs c) |} h before.
Proof.
  intros HI Hj Hp Hmu.
  destruct HI as [Hlen Hser Hhold Hfree Hheld Hwait Hfin Hnd].
  split; cbn.
  - now rewrite length_insert.
  - exact Hser.
  - intros t' q Hq Hq'. destruct (lookup_moved _ _ _ _ _ _ Hp Hq) as [[-> ->]|[Hne Hq0]];
      [reflexivity|].
    pose proof (Hhold t' q Hq0 Hq') as Ht'. congruence.
  - discriminate.
  - intros t' [= <-]. exists j, (concurrent.AtCheckNil opts).
    split; [exact Hj|]. split; [now apply lookup_moved_self with (concurrent.AtLock opts)|].
    cbn. split; [now apply (Hwait t) | now apply Hfree].
  - intros t' j' opts' Hj' Hq. destruct (lookup_moved _ _ _ _ _ _ Hp Hq) as [[-> ?]|[Hne Hq0]];
      [discriminate | eauto].
  - intros t' r. rewrite <- Hfin. split; intros Hq.
    + destruct (lookup_moved _ _ _ _ _ _ Hp Hq) as [[-> ?]|[Hne Hq0]];
        [discriminate | exact Hq0].
    + destruct (decide (t' = t)) as [->|Hne].
      * rewrite Hp in Hq. discriminate.
      * now rewrite list_lookup_insert_ne by congruence.
  - exact Hnd.
Qed.

(** Every step keeps the invariant, for the same history or for the
    history with the goroutine that finished added. *)
Lemma Inv_step start c c' h before :
  Inv start c h before -> step c c' -> exists h' before', Inv start c' h' before'.
Proof.
  intros HI Hstep. destruct Hstep as [c t j p p' s' Hj Hp Hst].
  destruct c as [[m now] ps]. cbn in Hp, Hst.
  destruct p as [|opts|opts|o|o cli|o|o cli|r|r]; cbn in Hst.
  - (* loading the configuration *)
    destruct (worker.getClient_options MatchWithIntegrations
                (concurrent.proc j) (concurrent.jargs j)) as [opts|err] eqn:Hopts;
      injection Hst as <- <-.
    + exists h, before.
      now apply (Inv_outside _ _ _ _ t j concurrent.AtResolve opts HI).
    + exists (h ++ [(t, Err err)]), before.
      apply (Inv_finish _ _ _ _ t j concurrent.AtResolve (Err err) before m HI);
        try easy.
      unfold worker.getClient. now rewrite Hopts.
  - (* Lock *)
    destruct m as [t'|]; [discriminate|]. injection Hst as <- <-.
    exists h, before. now apply (Inv_acquire _ _ _ _ t j opts HI).
  - (* opts == nil *)
    destruct (holder_pending _ _ _ _ _ _ _ HI Hj Hp eq_refl) as [_ [Hres Hnow]].
    cbn in Hnow. subst now. exists h, before.
    destruct opts as [o|]; injection Hst as <- <-.
    + now apply (Inv_inside _ _ _ _ t j (concurrent.AtCheckNil (Some o)) _ _ HI).
    + apply (Inv_inside _ _ _ _ t j (concurrent.AtCheckNil None) _ _ HI); try easy.
      exists None. split; [exact Hres | reflexivity].
  - (* the lookup *)
    destruct (holder_pending _ _ _ _ _ _ _ HI Hj Hp eq_refl) as [_ [Hres Hnow]].
    cbn in Hnow. subst now. injection Hst as <- <-. exists h, before.
    now apply (Inv_inside _ _ _ _ t j (concurrent.AtLookup o) _ _ HI).
  - (* the match *)
    destruct (holder_pending _ _ _ _ _ _ _ HI Hj Hp eq_refl) as [_ (Hres & Hnow & Hcli)].
    cbn in Hnow. subst now. exists h, before.
    destruct cli as [cli|]; [destruct (worker.FreeScoutConfigMatches cli o) eqn:Hm|];
      injection Hst as <- <-.
    + apply (Inv_inside _ _ _ _ t j (concurrent.AtMatch o (Some cli)) _ _ HI); try easy.
      exists (Some o). split; [exact Hres|].
      now apply getClient_locked_hit.
    + apply (Inv_inside _ _ _ _ t j (concurrent.AtMatch o (Some cli)) _ _ HI); try easy.
      repeat split; try easy. intros cli' Hcli'. unfold concurrent.key_of in *. congruence.
    + apply (Inv_inside _ _ _ _ t j (concurrent.AtMatch o None) _ _ HI); try easy.
      repeat split; try easy. intros cli' Hcli'. unfold concurrent.key_of in *. congruence.
  - (* the constructor *)
    destruct (holder_pending _ _ _ _ _ _ _ HI Hj Hp eq_refl) as [_ (Hres & Hnow & Hmiss)].
    cbn in Hnow. subst now. exists h, before.
    destruct (worker.NewClientFunc (concurrent.proc j) (Some o)) as [cli|err] eqn:Hnew;
      injection Hst as <- <-.
    + now apply (Inv_inside _ _ _ _ t j (concurrent.AtNew o) _ _ HI).
    + apply (Inv_inside _ _ _ _ t j (concurrent.AtNew o) _ _ HI); try easy.
      exists (Some o). split; [exact Hres|].
      rewrite (getClient_locked_miss _ _ _ _ Hmiss).
      now apply getClient_build_Err.
  - (* the store *)
    destruct (holder_pending _ _ _ _ _ _ _ HI Hj Hp eq_refl)
      as [_ (Hres & Hmiss & Hnew & Hnow)].
    cbn in Hnow. subst now. exists h, before. injection Hst as <- <-.
    apply (Inv_inside _ _ _ _ t j (concurrent.AtStore o cli) _ _ HI); try easy.
    exists (Some o). split; [exact Hres|].
    rewrite (getClient_locked_miss _ _ _ _ Hmiss).
    now rewrite (getClient_build_Ok _ _ _ _ _ Hnew).
  - (* Unlock *)
    destruct (holder_pending _ _ _ _ _ _ _ HI Hj Hp eq_refl) as [_ (opts & Hres & Hrun)].
    cbn in Hrun. injection Hst as <- <-.
    exists (h ++ [(t, r)]), now.
    apply (Inv_finish _ _ _ _ t j (concurrent.AtUnlock r) r now None HI); try easy.
    now rewrite (getClient_resolved _ _ _ _ _ Hres).
  - discriminate.
Qed.

Lemma reachable_Inv start c :
  reachable start c -> exists h before, Inv start c h before.
Proof.
  induction 1 as [|c c' _ (h & before & HI) Hstep].
  - exists [], start. apply Inv_init.
  - eapply Inv_step; eauto.
Qed.

(** A schedule is a run. *)
Lemma turn_reachable start c t :
  reachable start c -> reachable start (concurrent.turn MatchWithIntegrations jobs t c).
Proof.
  intros Hr. unfold concurrent.turn.
  destruct (jobs !! t) as [j|] eqn:Hj; [|exact Hr].
  destruct (concurrent.pcs c !! t) as [p|] eqn:Hp; [|exact Hr].
  destruct (concurrent.step_thread MatchWithIntegrations t j p (concurrent.shared c))
    as [[p' s']|] eqn:Hst; [|exact Hr].
  eapply concurrent.reachable_step; [exact Hr|]. econstructor; eauto.
Qed.

Lemma run_schedule_reachable start sched c :
  reachable start c ->
  reachable start (concurrent.run_schedule MatchWithIntegrations jobs sched c).
Proof.
  revert c. induction sched as [|t sched IH]; intros c Hr; [exact Hr|].
  cbn. apply IH. now apply turn_reachable.
Qed.

(** Jobs that race on one key with one configuration, from which a client
    that matches it can be built: run one after the other, they call the
    constructor at most once, and once one of them has run the cache holds a
    matching client. *)
Lemma Serial_one_construction start h st key o :
  (forall t j, jobs !! t = Some j ->
     concurrent.key_of j = key
     /\ concurrent.resolved MatchWithIntegrations j (Some o)
     /\ exists cli, worker.NewClientFunc (concurrent.proc j) (Some o) = Ok cli
                    /\ worker.FreeScoutConfigMatches cli o = true) ->
  Serial start h st ->
  (h = [] /\ st = start)
  \/ ((exists cli, worker.clientsCache st !! key = Some cli
                   /\ worker.FreeScoutConfigMatches cli o = true)
      /\ (worker.constructions st = worker.constructions start
          \/ worker.constructions st = worker.constructions start ++ [o])).
Proof.
  intros Hjobs Hser. induction Hser as [|h st t j Hser IH Hj]; [now left|]. right.
  destruct (Hjobs t j Hj) as (Hkey & Hres & cli & Hnew & Hm).
  rewrite (getClient_resolved _ _ _ _ _ Hres).
  unfold concurrent.key_of in Hkey. rewrite Hkey.
  assert (Hbuild :
    worker.getClient_build (concurrent.proc j) key o st
    = (Ok (Some cli), {| worker.clientsCache := <[key := cli]> (worker.clientsCache st);
                         worker.constructions := worker.constructions st ++ [o] |}))
    by now apply getClient_build_Ok.
  assert (Hhit : forall cli0, worker.clientsCache st !! key = Some cli0 ->
                 worker.FreeScoutConfigMatches cli0 o = true ->
                 worker.getClient_locked (concurrent.proc j) key (Some o) st
                 = (Ok (Some cli0), st))
    by (intros; now apply getClient_locked_hit).
  destruct IH as [[-> ->]|[(cli0 & Hc0 & Hm0) Hlog]].
  - unfold worker.getClient_locked.
    destruct (worker.clientsCache start !! key) as [cli0|] eqn:Hc0;
      [destruct (worker.FreeScoutConfigMatches cli0 o) eqn:Hm0|].
    + cbn. split; [eauto | now left].
    + rewrite Hbuild. cbn. split; [|now right].
      exists cli. split; [apply lookup_insert_eq | exact Hm].
    + rewrite Hbuild. cbn. split; [|now right].
      exists cli. split; [apply lookup_insert_eq | exact Hm].
  - rewrite (Hhit cli0 Hc0 Hm0). cbn. split; [eauto | exact Hlog].
Qed.

(** C4. In every configuration that concurrent jobs can reach:
    (1) a goroutine whose next step reads or writes the clients map holds
    the mutex, and so does a goroutine whose step changes the cache;
    (2) at most one goroutine is between [Lock] and [Unlock];
    (3) the part of [getClient] under the mutex is one atomic unit: the
    goroutines that have finished got the results, and (when the mutex is
    free) left the cache, of a run of their jobs one after the other;
    (4) jobs that race on one key with one configuration from which a
    matching client can be built call the constructor at most once between
    them, however their steps interleave;
    (5) the resolution of the configuration is outside the mutex: a
    goroutine that resolves can move whoever holds the mutex, and leaves the
    shared state as it is. *)
Theorem getClient_mutex_atomic start c :
  reachable start c ->
  (forall t j p, jobs !! t = Some j -> concurrent.pcs c !! t = Some p ->
     (concurrent.touches_map p = true
      \/ exists p' s', concurrent.step_thread MatchWithIntegrations t j p (concurrent.shared c)
                       = Some (p', s')
                       /\ concurrent.cache s' <> concurrent.cache (concurrent.shared c)) ->
     concurrent.mu (concurrent.shared c) = Some t)
  /\ (forall t1 t2 p1 p2,
        concurrent.pcs c !! t1 = Some p1 -> concurrent.pcs c !! t2 = Some p2 ->
        concurrent.in_cs p1 = true -> concurrent.in_cs p2 = true -> t1 = t2)
  /\ (exists h before,
        Serial start h before
        /\ NoDup (map fst h)
        /\ (forall t r, concurrent.pcs c !! t = Some (concurrent.Finished r) <-> In (t, r) h)
        /\ (concurrent.mu (concurrent.shared c) = None ->
            concurrent.cache (concurrent.shared c) = before))
  /\ (forall key o,
        (forall t j, jobs !! t = Some j ->
           concurrent.key_of j = key
           /\ concurrent.resolved MatchWithIntegrations j (Some o)
           /\ exists cli, worker.NewClientFunc (concurrent.proc j) (Some o) = Ok cli
                          /\ worker.FreeScoutConfigMatches cli o = true) ->
        concurrent.mu (concurrent.shared c) = None ->
        let log := worker.constructions (concurrent.cache (concurrent.shared c)) in
        log = worker.constructions start \/ log = worker.constructions start ++ [o])
  /\ (forall t j, jobs !! t = Some j -> concurrent.pcs c !! t = Some concurrent.AtResolve ->
        exists p', concurrent.step_thread MatchWithIntegrations t j concurrent.AtResolve
                     (concurrent.shared c) = Some (p', concurrent.shared c)
                   /\ concurrent.in_cs p' = false).
Proof.
  intros Hreach. destruct (reachable_Inv _ _ Hreach) as (h & before & HI).
  split; [|split; [|split; [|split]]].
  - intros t j p Hj Hp Htouch.
    apply (concurrent.inv_holder _ _ _ _ _ _ HI t p Hp).
    destruct Htouch as [Ht|(p' & s' & Hst & Hne)].
    + destruct p; cbn in Ht; try discriminate; reflexivity.
    + destruct p as [|?|[?|]|?|? [?|]|?|? ?|?|?]; cbn in Hst |- *; try reflexivity.
      * destruct (worker.getClient_options _ _ _); injection Hst as <- <-; now destruct Hne.
      * destruct (concurrent.mu _); [discriminate|]. injection Hst as <- <-. now destruct Hne.
      * discriminate.
  - intros t1 t2 p1 p2 H1 H2 Hc1 Hc2.
    pose proof (concurrent.inv_holder _ _ _ _ _ _ HI t1 p1 H1 Hc1).
    pose proof (concurrent.inv_holder _ _ _ _ _ _ HI t2 p2 H2 Hc2). congruence.
  - exists h, before. destruct HI. auto.
  - intros key o Hjobs Hfree log. subst log.
    rewrite (concurrent.inv_free _ _ _ _ _ _ HI Hfree).
    destruct (Serial_one_construction _ _ _ _ _ Hjobs (concurrent.inv_serial _ _ _ _ _ _ HI))
      as [[_ ->]|[_ Hlog]]; [now left | exact Hlog].
  - intros t j Hj Hp. cbn.
    destruct (worker.getClient_options _ _ _); eauto.
Qed.
End ThreadFacts.

(** The witness of C4: two jobs race on the key ["vuln:"]. While goroutine
    0 holds the mutex, goroutine 1 can resolve its configuration; when both
    have finished, the constructor has been called once and both got the
    client it built. *)
Lemma getClient_mutex_atomic_witness :
  let o := sample.options sample.url_plain in
  let cli := {| externalsvc.opts := o |} in
  let mid := sample.run_schedule sample.url_plain sample.schedule_mid in
  let final := sample.run_schedule sample.url_plain sample.schedule_full in
  (concurrent.mu (concurrent.shared mid) = Some 0%nat
   /\ concurrent.pcs mid = [concurrent.AtCheckNil (Some o); concurrent.AtResolve]
   /\ concurrent.step_thread (client_of_C := sample.client) sample.MatchWithIntegrations
        1 {| concurrent.proc := sample.processor [sample.integration sample.url_plain true];
             concurrent.jargs := sample.vuln_args |}
        concurrent.AtResolve (concurrent.shared mid)
      = Some (concurrent.AtLock (Some o), concurrent.shared mid))
  /\ (concurrent.mu (concurrent.shared final) = None
      /\ concurrent.pcs final
         = [concurrent.Finished (Ok (Some cli)); concurrent.Finished (Ok (Some cli))]
      /\ worker.constructions (concurrent.cache (concurrent.shared final)) = [o]).
Proof.
  cbv zeta. split.
  - split; [vm_compute; reflexivity|]. split; [vm_compute; reflexivity|].
    vm_compute. reflexivity.
  - split; [vm_compute; reflexivity|]. split; [vm_compute; reflexivity|].
    pose proof (getClient_mutex_atomic (client_of_C := sample.client)
                  sample.MatchWithIntegrations (sample.racing_jobs sample.url_plain)
                  sample.empty_cache
                  (sample.run_schedule sample.url_plain sample.schedule_full)
                  (run_schedule_reachable _ _ _ _ _
                     (concurrent.reachable_init _ _ _))) as (_ & _ & _ & H & _).
    destruct (H "vuln:" (sample.options sample.url_plain)) as [Hlog|Hlog].
    + intros t j Hj. assert (Hj' : j = {| concurrent.proc :=
                                 sample.processor [sample.integration sample.url_plain true];
                               concurrent.jargs := sample.vuln_args |}).
      { destruct t as [|[|t]]; cbn in Hj; [congruence | congruence | discriminate]. }
      subst j. split; [reflexivity|]. split; [reflexivity|].
      eexists. split; reflexivity.
    + vm_compute. reflexivity.
    + exfalso. vm_compute in Hlog. discriminate.
    + exact Hlog.
Defined.

(** * Further properties *)

(** ** Cache keys *)

Section KeyFacts.
Context {float64 Time : Type}.
Implicit Types (a b : worker.freeScoutArgs float64 Time).

Lemma getClient_team_vuln a :
  worker.FailingPolicy a = None -> worker.getClient_team a = None.
Proof. unfold worker.getClient_team, worker.integrationType. now intros ->. Qed.

Lemma getClient_team_policy a fp :
  worker.FailingPolicy a = Some fp -> worker.getClient_team a = worker.TeamID fp.
Proof. unfold worker.getClient_team, worker.integrationType. now intros ->. Qed.

(** The three shapes of a key. *)
Lemma getClient_key_shape a :
  worker.getClient_key a
  = worker.integrationType a +:+ ":"
    +:+ match worker.getClient_team a with
        | Some teamID => fmt_uint teamID
        | None => EmptyString
        end.
Proof.
  unfold worker.getClient_key. destruct (worker.getClient_team a).
  - now rewrite append_assoc.
  - reflexivity.
Qed.

(** X1. Cache keys do not collide: two jobs have the same key exactly when
    they are of the same integration type and of the same team (or both of
    no team). In particular a vulnerability job and a failing policy job
    never share a cached client, nor do the failing policy jobs of two
    teams. *)
Theorem getClient_key_inj a b :
  worker.getClient_key a = worker.getClient_key b
  <-> worker.integrationType a = worker.integrationType b
      /\ worker.getClient_team a = worker.getClient_team b.
Proof.
  split.
  - rewrite !getClient_key_shape.
    unfold worker.getClient_team, worker.integrationType.
    destruct (worker.FailingPolicy a) as [fa|], (worker.FailingPolicy b) as [fb|];
      cbn; try discriminate; [|auto].
    intros H. split; [reflexivity|].
    injection H as H.
    destruct (worker.TeamID fa) as [ta|], (worker.TeamID fb) as [tb|]; [| | |reflexivity].
    + f_equal. now apply fmt_uint_inj.
    + now destruct (fmt_uint_not_empty ta).
    + symmetry in H. now destruct (fmt_uint_not_empty tb).
  - intros [Ht Hteam]. now rewrite !getClient_key_shape, Ht, Hteam.
Qed.
End KeyFacts.

(** ** Configuration resolution *)

Lemma first_enabled_None cond (l : list fleet.FreescoutIntegration) :
  worker.first_enabled cond l = None <-> forallb (fun i => negb (cond i)) l = true.
Proof.
  induction l as [|i l IH]; cbn; [tauto|].
  destruct (cond i); cbn; [split; discriminate | exact IH].
Qed.


Lemma first_enabled_ext cond cond' (l : list fleet.FreescoutIntegration) :
  (forall i, cond i = cond' i) ->
  worker.first_enabled cond l = worker.first_enabled cond' l.
Proof.
  intros H. induction l as [|i l IH]; cbn; [reflexivity|]. now rewrite H, IH.
Qed.

Section ResolutionFacts.
Context {C : Type} {float64 Time TeamIntegrations : Type}.
Variable MatchWithIntegrations :
  TeamIntegrations -> fleet.Integrations -> result fleet.Integrations.

Implicit Types (f : worker.FreeScout C TeamIntegrations).
Implicit Types (args : worker.freeScoutArgs float64 Time).
Implicit Types (intg : fleet.FreescoutIntegration).

(** The test of the global loop is the switch of the job's kind. *)
Lemma global_test args intg :
  String.eqb (worker.integrationType args) worker.intgTypeVuln
    && fleet.EnableSoftwareVulnerabilities intg
  || String.eqb (worker.integrationType args) worker.intgTypeFailingPolicy
     && fleet.EnableFailingPolicies intg
  = enabled_for args intg.
Proof.
  unfold worker.integrationType, enabled_for.
  destruct (worker.FailingPolicy args); cbn; [reflexivity|].
  now destruct (fleet.EnableSoftwareVulnerabilities intg).
Qed.

(** The test of the team loop, which only failing policy jobs reach. *)
Lemma team_test args intg teamID :
  worker.getClient_team args = Some teamID ->
  String.eqb (worker.integrationType args) worker.intgTypeFailingPolicy
    && fleet.EnableFailingPolicies intg
  = enabled_for args intg.
Proof.
  unfold worker.getClient_team, worker.integrationType, enabled_for.
  destruct (worker.FailingPolicy args); cbn; [reflexivity | discriminate].
Qed.

(** The integrations a job consults: those of the global configuration,
    or for a job of a team those [MatchWithIntegrations] returns for the
    team. *)
Lemma getClient_options_consulted f args ac :
  worker.AppConfig (worker.ds f) = Ok ac ->
  worker.getClient_options MatchWithIntegrations f args
  = match worker.getClient_team args with
    | None =>
        Ok (worker.first_enabled (enabled_for args)
              (fleet.Freescout (fleet.ac_Integrations ac)))
    | Some teamID =>
        try tm <- worker.TeamLite (worker.ds f) teamID;
        try intgs <- MatchWithIntegrations (worker.Integrations (worker.Config tm))
                       (fleet.ac_Integrations ac);
        Ok (worker.first_enabled (enabled_for args) (fleet.Freescout intgs))
    end.
Proof.
  intros Hac. unfold worker.getClient_options. rewrite Hac. cbn.
  destruct (worker.getClient_team args) as [teamID|] eqn:Ht.
  - destruct (worker.TeamLite (worker.ds f) teamID) as [tm|e]; cbn; [|reflexivity].
    destruct (MatchWithIntegrations _ _) as [intgs|e]; cbn; [|reflexivity].
    f_equal. apply first_enabled_ext. intros i. now apply team_test with teamID.
  - f_equal. apply first_enabled_ext. intros i. apply global_test.
Qed.


(** When resolution fails: the datastore failed. *)
Lemma getClient_options_Err f args e :
  worker.getClient_options MatchWithIntegrations f args = Err e
  <-> worker.AppConfig (worker.ds f) = Err e
      \/ exists ac teamID,
           worker.AppConfig (worker.ds f) = Ok ac
           /\ worker.getClient_team args = Some teamID
           /\ (worker.TeamLite (worker.ds f) teamID = Err e
               \/ exists tm, worker.TeamLite (worker.ds f) teamID = Ok tm
                    /\ MatchWithIntegrations (worker.Integrations (worker.Config tm))
                         (fleet.ac_Integrations ac) = Err e).
Proof.
  destruct (worker.AppConfig (worker.ds f)) as [ac|e0] eqn:Hac.
  - rewrite (getClient_options_consulted _ _ _ Hac).
    destruct (worker.getClient_team args) as [teamID|] eqn:Ht.
    + destruct (worker.TeamLite (worker.ds f) teamID) as [tm|e1] eqn:Htm; cbn.
      * destruct (MatchWithIntegrations _ _) as [intgs|e2] eqn:Hm; cbn.
        -- split; [discriminate|].
           intros [?|(ac' & t' & Hac' & Ht' & [Htm'|(tm' & Htm' & Hm')])]; congruence.
        -- split.
           ++ intros [= ->]. right. exists ac, teamID. repeat split. right. now exists tm.
           ++ intros [?|(ac' & t' & Hac' & Ht' & [Htm'|(tm' & Htm' & Hm')])]; congruence.
      * split.
        -- intros [= ->]. right. exists ac, teamID. repeat split. now left.
        -- intros [?|(ac' & t' & Hac' & Ht' & [Htm'|(tm' & Htm' & Hm')])]; congruence.
    + split; [discriminate|].
      intros [?|(ac' & t' & _ & ? & _)]; discriminate.
  - unfold worker.getClient_options. rewrite Hac. cbn. split.
    + intros [= ->]. now left.
    + intros [[= ->]|(ac' & t' & ? & _)]; [reflexivity | discriminate].
Qed.
End ResolutionFacts.

(** ** The cache after a call *)

Section CachePostState.
Context {C W : Type} {client_of_C : worker.FreeScoutClient C W}.
Context {float64 Time TeamIntegrations : Type}.
Variable MatchWithIntegrations :
  TeamIntegrations -> fleet.Integrations -> result fleet.Integrations.

Implicit Types (f : worker.FreeScout C TeamIntegrations) (st : worker.Cache C).
Implicit Types (key : string) (o : externalsvc.FreeScoutOptions) (cli : C).
Implicit Types (args : worker.freeScoutArgs float64 Time).

(** The four outcomes of the part of [getClient] under the mutex. *)
Lemma getClient_locked_cases f key opts st :
  (opts = None
   /\ worker.getClient_locked f key opts st
      = (Ok None, {| worker.clientsCache := delete key (worker.clientsCache st);
                     worker.constructions := worker.constructions st |}))
  \/ (exists o cli, opts = Some o
        /\ worker.clientsCache st !! key = Some cli
        /\ worker.FreeScoutConfigMatches cli o = true
        /\ worker.getClient_locked f key opts st = (Ok (Some cli), st))
  \/ (exists o cli, opts = Some o
        /\ (forall cli', worker.clientsCache st !! key = Some cli' ->
                         worker.FreeScoutConfigMatches cli' o = false)
        /\ worker.NewClientFunc f (Some o) = Ok cli
        /\ worker.getClient_locked f key opts st
           = (Ok (Some cli),
              {| worker.clientsCache := <[key := cli]> (worker.clientsCache st);
                 worker.constructions := worker.constructions st ++ [o] |}))
  \/ (exists o e, opts = Some o
        /\ (forall cli', worker.clientsCache st !! key = Some cli' ->
                         worker.FreeScoutConfigMatches cli' o = false)
        /\ worker.NewClientFunc f (Some o) = Err e
        /\ worker.getClient_locked f key opts st
           = (Err e,
              {| worker.clientsCache := worker.clientsCache st;
                 worker.constructions := worker.constructions st ++ [o] |})).
Proof.
  destruct opts as [o|]; [|now left]. right.
  destruct (worker.clientsCache st !! key) as [cli0|] eqn:Hk;
    [destruct (worker.FreeScoutConfigMatches cli0 o) eqn:Hm|].
  - left. exists o, cli0. repeat (split; [solve [reflexivity | assumption | intros; congruence]|]).
    now apply getClient_locked_hit.
  - right.
    assert (Hmiss : forall cli', worker.clientsCache st !! key = Some cli' ->
                                 worker.FreeScoutConfigMatches cli' o = false)
      by (intros cli' Hc; congruence).
    rewrite (getClient_locked_miss _ _ _ _ Hmiss).
    destruct (worker.NewClientFunc f (Some o)) as [cli|e] eqn:Hn.
    + left. exists o, cli. repeat (split; [solve [reflexivity | assumption | intros; congruence]|]).
      now apply getClient_build_Ok.
    + right. exists o, e. repeat (split; [solve [reflexivity | assumption | intros; congruence]|]).
      now apply getClient_build_Err.
  - right.
    assert (Hmiss : forall cli', worker.clientsCache st !! key = Some cli' ->
                                 worker.FreeScoutConfigMatches cli' o = false)
      by (intros cli' Hc; congruence).
    rewrite (getClient_locked_miss _ _ _ _ Hmiss).
    destruct (worker.NewClientFunc f (Some o)) as [cli|e] eqn:Hn.
    + left. exists o, cli. repeat (split; [solve [reflexivity | assumption | intros; congruence]|]).
      now apply getClient_build_Ok.
    + right. exists o, e. repeat (split; [solve [reflexivity | assumption | intros; congruence]|]).
      now apply getClient_build_Err.
Qed.

(** X3. After any call of [getClient], the entry of the job's key is the
    client the call returned, and there is none when it returned none; a
    call that returns an error leaves the whole map as it was; and no call
    changes the entry of any other key. *)
Theorem getClient_post_state f args st :
  let key := worker.getClient_key args in
  let r := worker.getClient MatchWithIntegrations f args st in
  delete key (worker.clientsCache (snd r)) = delete key (worker.clientsCache st)
  /\ match fst r with
     | Ok (Some cli) => worker.clientsCache (snd r) !! key = Some cli
     | Ok None => worker.clientsCache (snd r) !! key = None
     | Err _ => worker.clientsCache (snd r) = worker.clientsCache st
     end.
Proof.
  cbv zeta. unfold worker.getClient.
  destruct (worker.getClient_options MatchWithIntegrations f args) as [opts|e];
    [|now split].
  destruct (getClient_locked_cases f (worker.getClient_key args) opts st)
    as [[_ ->]|[(o & cli & _ & Hk & _ & ->)|[(o & cli & _ & _ & _ & ->)
       |(o & e & _ & _ & _ & ->)]]]; cbn.
  - split; [apply delete_delete_eq | apply lookup_delete_eq].
  - now split.
  - split; [apply delete_insert_eq | apply lookup_insert_eq].
  - now split.
Qed.

(** X4. One call of [getClient] calls the constructor at most once. It
    calls it only with the options it resolved and only when the cache holds
    no client for the key that matches them, and then the call returns what
    the constructor returned. *)
Theorem getClient_constructs_at_most_once f args st :
  let key := worker.getClient_key args in
  let r := worker.getClient MatchWithIntegrations f args st in
  worker.constructions (snd r) = worker.constructions st
  \/ exists o,
       worker.getClient_options MatchWithIntegrations f args = Ok (Some o)
       /\ worker.constructions (snd r) = worker.constructions st ++ [o]
       /\ (forall cli, worker.clientsCache st !! key = Some cli ->
                       worker.FreeScoutConfigMatches cli o = false)
       /\ fst r = match worker.NewClientFunc f (Some o) with
                  | Ok cli => Ok (Some cli)
                  | Err e => Err e
                  end.
Proof.
  cbv zeta. unfold worker.getClient.
  destruct (worker.getClient_options MatchWithIntegrations f args) as [opts|e];
    [|now left].
  destruct (getClient_locked_cases f (worker.getClient_key args) opts st)
    as [[_ ->]|[(o & cli & _ & Hk & _ & ->)|[(o & cli & -> & Hmiss & Hn & ->)
       |(o & e & -> & Hmiss & Hn & ->)]]]; cbn; try (now left).
  - right. exists o. rewrite Hn. auto.
  - right. exists o. rewrite Hn. auto.
Qed.

(** A client that the cache returns for [o] matches [o], provided the
    constructor builds clients that match the options they are built from. *)
Lemma getClient_twice f args st o cli :
  worker.getClient_options MatchWithIntegrations f args = Ok (Some o) ->
  (forall cli', worker.NewClientFunc f (Some o) = Ok cli' ->
                worker.FreeScoutConfigMatches cli' o = true) ->
  fst (worker.getClient MatchWithIntegrations f args st) = Ok (Some cli) ->
  worker.getClient MatchWithIntegrations f args
    (snd (worker.getClient MatchWithIntegrations f args st))
  = (Ok (Some cli), snd (worker.getClient MatchWithIntegrations f args st)).
Proof.
  intros Hopts Hfaith.
  rewrite !(getClient_resolved _ _ _ _ _ Hopts).
  destruct (getClient_locked_cases f (worker.getClient_key args) (Some o) st)
    as [[? _]|[(o' & cli' & [= <-] & Hk & Hm & ->)|[(o' & cli' & [= <-] & _ & Hn & ->)
       |(o' & e & _ & _ & _ & ->)]]]; cbn [fst snd]; try discriminate.
  - intros [= <-]. now apply getClient_locked_hit.
  - intros [= <-]. apply getClient_locked_hit; cbn; [apply lookup_insert_eq | auto].
Qed.
End CachePostState.

(** ** Running a job: what happens before and at the call of the client *)

Section RunPaths.
Context {C W : Type} {client_of_C : worker.FreeScoutClient C W}.
Context {float64 Time TeamIntegrations : Type}.
Variable MatchWithIntegrations :
  TeamIntegrations -> fleet.Integrations -> result fleet.Integrations.
Variable json_Unmarshal : string -> result (worker.freeScoutArgs float64 Time).
Variable fmt_float64 : float64 -> string.
Variable fmt_Time : Time -> string.
Variable nvdCVEURL : string.

Implicit Types (f : worker.FreeScout C TeamIntegrations) (st : worker.Cache C) (w : W).
Implicit Types (args : worker.freeScoutArgs float64 Time) (j : string).

(** X5. A job fails before anything is looked up or sent when its payload
    does not decode, and before the cache is touched when the datastore
    fails while the configuration is resolved (the application
    configuration, or for a job of a team the team or the matching of its
    integrations). [Run] returns the error under the label of the failed
    step; the cache, the constructor and the client are not touched. *)
Theorem Run_fails_before_dispatch f j st w :
  (forall e, json_Unmarshal j = Err e ->
     worker.Run MatchWithIntegrations json_Unmarshal fmt_float64 fmt_Time nvdCVEURL f j st w
     = (Err (ctxerr_Wrap e "unmarshal args"), st, w))
  /\ (forall args e, json_Unmarshal j = Ok args ->
        (worker.AppConfig (worker.ds f) = Err e
         \/ exists ac teamID,
              worker.AppConfig (worker.ds f) = Ok ac
              /\ worker.getClient_team args = Some teamID
              /\ (worker.TeamLite (worker.ds f) teamID = Err e
                  \/ exists tm, worker.TeamLite (worker.ds f) teamID = Ok tm
                       /\ MatchWithIntegrations (worker.Integrations (worker.Config tm))
                            (fleet.ac_Integrations ac) = Err e)) ->
        worker.Run MatchWithIntegrations json_Unmarshal fmt_float64 fmt_Time nvdCVEURL f j st w
        = (Err (ctxerr_Wrap e "get FreeScout client"), st, w)).
Proof.
  split.
  - intros e Hj. unfold worker.Run. now rewrite Hj.
  - intros args e Hj Hds. apply getClient_options_Err in Hds.
    unfold worker.Run, worker.getClient. now rewrite Hj, Hds.
Qed.

(** X6. A job that runs when no configured integration has the switch of
    its kind on (the integration was disabled after the job was queued)
    succeeds without calling the client, and the client cached for its key,
    if any, is dropped. *)
Theorem Run_integration_disabled f j args ac st w :
  json_Unmarshal j = Ok args ->
  worker.AppConfig (worker.ds f) = Ok ac ->
  worker.getClient_team args = None ->
  forallb (fun i => negb (enabled_for args i))
    (fleet.Freescout (fleet.ac_Integrations ac)) = true ->
  worker.Run MatchWithIntegrations json_Unmarshal fmt_float64 fmt_Time nvdCVEURL f j st w
  = (Ok tt,
     {| worker.clientsCache := delete (worker.getClient_key args) (worker.clientsCache st);
        worker.constructions := worker.constructions st |},
     w).
Proof.
  intros Hj Hac Hteam Hoff.
  assert (Hopts : worker.getClient_options MatchWithIntegrations f args = Ok None).
  { rewrite (getClient_options_consulted _ _ _ _ Hac), Hteam. f_equal.
    now apply first_enabled_None. }
  unfold worker.Run. rewrite Hj. now rewrite (getClient_resolved _ _ _ _ _ Hopts).
Qed.

(** X7. What a job does once [getClient] has yielded a client, by its
    payload. A job with a failing policy payload asks the datastore for
    nothing and calls the client exactly once, with the summary and the
    description rendered from that payload. A job with a vulnerability
    payload only first asks the datastore for the affected hosts, by CVE
    when the payload carries no software IDs and by software IDs otherwise;
    if that fails the client is not called, otherwise it is called exactly
    once, with the summary and the description rendered from the
    vulnerability and those hosts. In both cases [Run] succeeds exactly when
    the client does, and returns the client's error labelled. A job with
    neither payload does not call the client: [Run] fails with "invalid job
    args", and the client stays in the cache. *)
Theorem Run_calls_client_once f j args st st' cli w :
  json_Unmarshal j = Ok args ->
  worker.getClient MatchWithIntegrations f args st = (Ok (Some cli), st') ->
  (forall vargs,
     worker.Vulnerability args = Some vargs -> worker.FailingPolicy args = None ->
     worker.Run MatchWithIntegrations json_Unmarshal fmt_float64 fmt_Time nvdCVEURL f j st w
     = match match worker.AffectedSoftwareIDs vargs with
             | [] => worker.HostsByCVE (worker.ds f) (worker.CVE vargs)
             | ids => worker.HostVulnSummariesBySoftwareIDs (worker.ds f) ids
             end with
       | Err e => (Err (ctxerr_Wrap e "fetching hosts"), st', w)
       | Ok hosts =>
           let a := worker.runVuln_tplArgs nvdCVEURL f vargs hosts in
           match worker.CreateFreeScoutConversation cli (worker.VulnSummary a)
                   (worker.VulnDescription fmt_float64 fmt_Time a) w with
           | (Err e, w') => (Err (ctxerr_Wrap e "create conversation"), st', w')
           | (Ok _, w') => (Ok tt, st', w')
           end
       end)
  /\ (forall fp,
        worker.FailingPolicy args = Some fp ->
        let a := worker.newFailingPoliciesTplArgs (worker.FleetURL f) fp in
        worker.Run MatchWithIntegrations json_Unmarshal fmt_float64 fmt_Time nvdCVEURL f j st w
        = match worker.CreateFreeScoutConversation cli (worker.FailingPolicySummary a)
                  (worker.FailingPolicyDescription a) w with
          | (Err e, w') => (Err (ctxerr_Wrap e "create conversation"), st', w')
          | (Ok _, w') => (Ok tt, st', w')
          end)
  /\ (worker.Vulnerability args = None -> worker.FailingPolicy args = None ->
      worker.Run MatchWithIntegrations json_Unmarshal fmt_float64 fmt_Time nvdCVEURL f j st w
      = (Err (errors_New "invalid job args"), st', w)).
Proof.
  intros Hj Hg. split; [|split].
  3:{ intros Hv Hp. unfold worker.Run. rewrite Hj, Hg.
      rewrite (integrationType_vuln _ Hp).
      cbn [String.eqb Ascii.eqb Bool.eqb worker.intgTypeVuln].
      unfold worker.runVuln. now rewrite Hv. }
  - intros vargs Hv Hp. unfold worker.Run. rewrite Hj, Hg.
    rewrite (integrationType_vuln _ Hp). cbn [String.eqb Ascii.eqb Bool.eqb worker.intgTypeVuln].
    unfold worker.runVuln, worker.runVuln_hosts. rewrite Hv.
    destruct (worker.AffectedSoftwareIDs vargs) as [|i ids]; cbn [length Nat.eqb].
    + destruct (worker.HostsByCVE _ _) as [hosts|e]; [|reflexivity].
      unfold worker.createTemplatedConversation, worker.Execute. cbv zeta.
      now destruct (worker.CreateFreeScoutConversation _ _ _ _) as [[id|e] w'].
    + destruct (worker.HostVulnSummariesBySoftwareIDs _ _) as [hosts|e]; [|reflexivity].
      unfold worker.createTemplatedConversation, worker.Execute. cbv zeta.
      now destruct (worker.CreateFreeScoutConversation _ _ _ _) as [[id|e] w'].
  - intros fp Hp a. unfold worker.Run. rewrite Hj, Hg.
    rewrite (integrationType_failingPolicy _ _ Hp).
    cbn [String.eqb Ascii.eqb Bool.eqb worker.intgTypeVuln worker.intgTypeFailingPolicy].
    unfold worker.runFailingPolicy. rewrite Hp.
    unfold worker.createTemplatedConversation, worker.Execute. fold a.
    now destruct (worker.CreateFreeScoutConversation _ _ _ _) as [[id|e] w'].
Qed.
End RunPaths.


(** The witness of X6: the integration is disabled after a job has filled
    the cache. *)
Lemma Run_integration_disabled_witness :
  sample.Run [sample.integration sample.url_plain false] sample.vuln_payload
    (sample.cache_after sample.url_plain) (sample.net 0)
  = (Ok tt,
     {| worker.clientsCache :=
          delete "vuln:" (worker.clientsCache (sample.cache_after sample.url_plain));
        worker.constructions := [sample.options sample.url_plain] |},
     sample.net 0).
Proof.
  exact (Run_integration_disabled (client_of_C := sample.client)
           sample.MatchWithIntegrations sample.json_Unmarshal
           sample.fmt_float64 sample.fmt_Time sample.nvdCVEURL
           (sample.processor [sample.integration sample.url_plain false])
           sample.vuln_payload sample.vuln_args _
           (sample.cache_after sample.url_plain) (sample.net 0)
           eq_refl eq_refl eq_refl eq_refl).
Defined.

(** The witness of X7: the vulnerability job of the sample payload, with
    the integration enabled and no conversation on the service yet. *)
Lemma Run_calls_client_once_witness :
  let r := sample.Run [sample.integration sample.url_plain true] sample.vuln_payload
             sample.empty_cache (sample.net 0) in
  fst (fst r) = Ok tt /\ length (externalsvc.sent (snd r)) = 2%nat.
Proof.
  cbv zeta.
  pose proof (Run_calls_client_once (client_of_C := sample.client)
                sample.MatchWithIntegrations sample.json_Unmarshal
                sample.fmt_float64 sample.fmt_Time sample.nvdCVEURL
                (sample.processor [sample.integration sample.url_plain true])
                sample.vuln_payload sample.vuln_args sample.empty_cache
                (sample.cache_after sample.url_plain)
                {| externalsvc.opts := sample.options sample.url_plain |}
                (sample.net 0) eq_refl) as H.
  destruct H as [H _]; [vm_compute; reflexivity|].
  unfold sample.Run. rewrite (H _ eq_refl eq_refl). vm_compute. split; reflexivity.
Defined.

(** ** Reuse of the cached client *)

Section Reuse.
Variable url_Parse : string -> result externalsvc.url_URL.
Variable json_Decode : string -> result externalsvc.freeScoutConversationsResponse.
Variable strconv_ParseInt : string -> result Z.
Variable W : Type.
Variable http_Do : externalsvc.http_Request -> W -> result externalsvc.http_Response * W.
Context {float64 Time TeamIntegrations : Type}.
Variable MatchWithIntegrations :
  TeamIntegrations -> fleet.Integrations -> result fleet.Integrations.

(** X8. With the API client and options whose URL has no trailing slash,
    a job that follows a job which got a client for the same key and the same
    options gets that same client: the constructor is not called again and
    the cache stays as the first job left it. *)
Theorem getClient_reuses_client
    (f : worker.FreeScout externalsvc.FreeScout TeamIntegrations)
    (args : worker.freeScoutArgs float64 Time)
    (st : worker.Cache externalsvc.FreeScout)
    (o : externalsvc.FreeScoutOptions) (c : externalsvc.FreeScout) :
  (forall p : option externalsvc.FreeScoutOptions,
      worker.NewClientFunc f p = externalsvc.NewFreeScoutClient url_Parse p) ->
  worker.getClient_options MatchWithIntegrations f args = Ok (Some o) ->
  ends_with_slash (externalsvc.URL o) = false ->
  let getClient :=
    worker.getClient
      (client_of_C := FreeScout_client url_Parse json_Decode strconv_ParseInt W http_Do)
      MatchWithIntegrations f args in
  fst (getClient st) = Ok (Some c) ->
  getClient (snd (getClient st)) = (Ok (Some c), snd (getClient st)).
Proof.
  intros Hf Hopts Hslash getClient Hfirst. subst getClient.
  apply (getClient_twice
           (client_of_C := FreeScout_client url_Parse json_Decode strconv_ParseInt W http_Do)
           MatchWithIntegrations f args st o c Hopts); [|exact Hfirst].
  intros cli' Hn. rewrite Hf in Hn. cbn.
  now apply (built_client_matches_exactly url_Parse o o cli' Hslash Hn).
Qed.
End Reuse.

(** The witness of X8: two jobs in a row with the integration at a URL
    without trailing slash. *)
Lemma getClient_reuses_client_witness :
  let intgs := [sample.integration sample.url_plain true] in
  let st1 := snd (sample.getClient intgs sample.vuln_args sample.empty_cache) in
  sample.getClient intgs sample.vuln_args st1
  = (Ok (Some {| externalsvc.opts := sample.options sample.url_plain |}), st1).
Proof.
  exact (getClient_reuses_client
           sample.url_Parse sample.json_Decode sample.strconv_ParseInt Z sample.http_Do
           sample.MatchWithIntegrations
           (sample.processor [sample.integration sample.url_plain true])
           sample.vuln_args sample.empty_cache
           (sample.options sample.url_plain)
           {| externalsvc.opts := sample.options sample.url_plain |}
           (fun _ => eq_refl) eq_refl eq_refl eq_refl).
Defined.

(** ** The API client: the requests of one call *)

Section ClientRequests.
Variable url_Parse : string -> result externalsvc.url_URL.
Variable json_Decode : string -> result externalsvc.freeScoutConversationsResponse.
Variable strconv_ParseInt : string -> result Z.
Variable W : Type.
Variable http_Do : externalsvc.http_Request -> W -> result externalsvc.http_Response * W.

Implicit Types (f : externalsvc.FreeScout) (n : externalsvc.Net W).
Implicit Types (subject message : string).

(** [CreateFreeScoutConversation] is the search followed by the thread or
    by the creation. *)
Lemma CreateFreeScoutConversation_parts f subject message n :
  externalsvc.CreateFreeScoutConversation url_Parse json_Decode strconv_ParseInt W http_Do
    f subject message n
  = match externalsvc.findExistingConversationID url_Parse json_Decode W http_Do
            f subject n with
    | (Err e, n1) => (Err e, n1)
    | (Ok existingID, n1) =>
        if 0 <? existingID then
          match externalsvc.createFreeScoutThread url_Parse W http_Do
                  f existingID message n1 with
          | (Err e, n2) => (Err e, n2)
          | (Ok _, n2) => (Ok existingID, n2)
          end
        else create_conversation url_Parse strconv_ParseInt W http_Do f subject message n1
    end.
Proof.
  unfold externalsvc.CreateFreeScoutConversation, externalsvc.bind at 1.
  destruct (externalsvc.findExistingConversationID _ _ _ _ _ _ _) as [[id|e] n1];
    [|reflexivity].
  destruct (0 <? id); [reflexivity|].
  unfold create_conversation, resource_id, externalsvc.bind, externalsvc.lift.
  destruct (externalsvc.http_NewRequest _ _ _ _) as [req|e]; [|reflexivity].
  destruct (externalsvc.client_Do _ _ _ _) as [[resp|e] n2]; [|reflexivity].
  destruct (negb _); [reflexivity|].
  destruct (String.eqb _ _); [reflexivity|].
  now destruct (strconv_ParseInt _).
Qed.

(** The search: nothing is sent when its target does not parse, and the
    search request is sent otherwise. *)
Lemma findExistingConversationID_run f subject n :
  let r := externalsvc.findExistingConversationID url_Parse json_Decode W http_Do f subject n in
  (exists e, r = (Err e, n))
  \/ externalsvc.sent (snd r) = externalsvc.sent n ++ [search_request f subject].
Proof.
  cbv zeta.
  unfold externalsvc.findExistingConversationID, externalsvc.bind, externalsvc.lift,
    externalsvc.http_NewRequest.
  destruct (url_Parse (externalsvc.search_endpoint f subject)) as [u|e]; cbn [result_bind];
    [|left; now exists e].
  right. unfold externalsvc.client_Do. rewrite (search_request_sent f subject).
  destruct (http_Do (search_request f subject) (externalsvc.world n)) as [[resp|e] w1];
    cbn; [|reflexivity].
  destruct (externalsvc.status_2xx resp); cbn; [|reflexivity].
  destruct (json_Decode (externalsvc.Body resp)) as [payload|e]; cbn; [|reflexivity].
  now destruct (externalsvc.Conversations payload).
Qed.

Lemma createFreeScoutThread_requests f id message n :
  let r := externalsvc.createFreeScoutThread url_Parse W http_Do f id message n in
  (exists e, r = (Err e, n))
  \/ externalsvc.sent (snd r) = externalsvc.sent n ++ [thread_request f id message].
Proof.
  cbv zeta.
  destruct (url_Parse (externalsvc.thread_endpoint f id)) as [u|e] eqn:Hu.
  - right. rewrite createFreeScoutThread_run by now rewrite Hu. reflexivity.
  - left. exists e.
    unfold externalsvc.createFreeScoutThread, externalsvc.bind, externalsvc.lift,
      externalsvc.http_NewRequest. now rewrite Hu.
Qed.

(** The creation: nothing is sent when its target does not parse; otherwise
    the creation request is sent, and the call returns the id of the answer
    when the answer has a 2xx status. *)
Lemma create_conversation_run f subject message n :
  let r := create_conversation url_Parse strconv_ParseInt W http_Do f subject message n in
  (exists e, r = (Err e, n))
  \/ (r = (match fst (http_Do (create_request f subject message) (externalsvc.world n)) with
           | Err e => Err e
           | Ok resp =>
               if externalsvc.status_2xx resp
               then Ok (resource_id strconv_ParseInt resp)
               else Err (externalsvc.request_failed resp)
           end,
           {| externalsvc.world :=
                snd (http_Do (create_request f subject message) (externalsvc.world n));
              externalsvc.sent := externalsvc.sent n ++ [create_request f subject message] |})).
Proof.
  cbv zeta.
  unfold create_conversation, externalsvc.bind, externalsvc.lift, externalsvc.http_NewRequest.
  destruct (url_Parse (externalsvc.conversations_endpoint f)) as [u|e]; cbn [result_bind];
    [|left; now exists e].
  right. unfold externalsvc.client_Do. rewrite (create_request_sent f subject message).
  destruct (http_Do (create_request f subject message) (externalsvc.world n))
    as [[resp|e] w2]; cbn; [|reflexivity].
  now destruct (externalsvc.status_2xx resp).
Qed.

(** The requests of one call, whatever the service answers. *)
Lemma CreateFreeScoutConversation_trace f subject message n :
  let r := externalsvc.CreateFreeScoutConversation url_Parse json_Decode strconv_ParseInt
             W http_Do f subject message n in
  exists l,
    externalsvc.sent (snd r) = externalsvc.sent n ++ l
    /\ (l = []
        \/ l = [search_request f subject]
        \/ (exists id, 0 < id /\ l = [search_request f subject; thread_request f id message])
        \/ l = [search_request f subject; create_request f subject message])
    /\ (forall id, fst r = Ok id ->
          (0 < id /\ l = [search_request f subject; thread_request f id message])
          \/ l = [search_request f subject; create_request f subject message])
    /\ Forall (fun req =>
                 externalsvc.ReqHeader req
                 = [("X-FreeScout-API-Key", externalsvc.APIToken (externalsvc.opts f));
                    ("Content-Type", "application/json")]) l.
Proof.
  cbv zeta. rewrite CreateFreeScoutConversation_parts.
  destruct (findExistingConversationID_run f subject n) as [[e ->]|Hs].
  { exists []. split; [now rewrite app_nil_r|]. split; [now left|].
    split; [intros id; discriminate | constructor]. }
  cbv zeta in Hs.
  destruct (externalsvc.findExistingConversationID _ _ _ _ _ _ _) as [[id|e] n1];
    cbn [fst snd] in *.
  2:{ exists [search_request f subject]. split; [exact Hs|]. split; [right; now left|].
      split; [intros id; discriminate | repeat constructor]. }
  destruct (0 <? id) eqn:Hid.
  - apply Z.ltb_lt in Hid.
    destruct (createFreeScoutThread_requests f id message n1) as [[e He]|Ht];
      cbv zeta in *.
    + rewrite He. exists [search_request f subject]. split; [exact Hs|].
      split; [right; now left|]. split; [intros id'; discriminate | repeat constructor].
    + destruct (externalsvc.createFreeScoutThread _ _ _ _ _ _ _) as [[u|e] n2];
        cbn [fst snd] in *;
        (exists [search_request f subject; thread_request f id message]);
        (split; [rewrite Ht, Hs, <- app_assoc; reflexivity|]);
        (split; [right; right; left; now exists id|]);
        (split; [|repeat constructor]).
      * intros id' [= <-]. now left.
      * intros id'; discriminate.
  - destruct (create_conversation_run f subject message n1) as [[e He]|Hc];
      cbv zeta in *.
    + rewrite He. exists [search_request f subject]. split; [exact Hs|].
      split; [right; now left|]. split; [intros id'; discriminate | repeat constructor].
    + rewrite Hc. cbn [fst snd externalsvc.sent].
      exists [search_request f subject; create_request f subject message].
      split; [rewrite Hs, <- app_assoc; reflexivity|].
      split; [now right; right; right|]. split; [now right | repeat constructor].
Qed.

(** X9. Whatever the service answers, one call of
    [CreateFreeScoutConversation] sends at most two requests: first the
    search, then either one thread for the conversation it found or one new
    conversation, never both. It sends the second only after a search that
    succeeded, and it returns an id only after a second request: the id of
    the conversation the thread went to, or the id of the new conversation.
    Every request carries the API key and the JSON content type. *)
Theorem CreateFreeScoutConversation_requests f subject message n :
  let r := externalsvc.CreateFreeScoutConversation url_Parse json_Decode strconv_ParseInt
             W http_Do f subject message n in
  exists l,
    externalsvc.sent (snd r) = externalsvc.sent n ++ l
    /\ (l = []
        \/ l = [search_request f subject]
        \/ (exists id, 0 < id /\ l = [search_request f subject; thread_request f id message])
        \/ l = [search_request f subject; create_request f subject message])
    /\ (forall id, fst r = Ok id ->
          (0 < id /\ l = [search_request f subject; thread_request f id message])
          \/ l = [search_request f subject; create_request f subject message])
    /\ Forall (fun req =>
                 externalsvc.ReqHeader req
                 = [("X-FreeScout-API-Key", externalsvc.APIToken (externalsvc.opts f));
                    ("Content-Type", "application/json")]) l.
Proof. apply CreateFreeScoutConversation_trace. Qed.

(** X10. A search that does not succeed ends the call: when the service
    cannot be reached, answers the search with a status that is not 2xx, or
    with a body that does not decode, [CreateFreeScoutConversation] returns
    that error after the search request alone. A status that is not 2xx is
    reported with the status code and the trimmed body of the answer. *)
Theorem CreateFreeScoutConversation_search_fails f subject message n :
  is_Ok (url_Parse (externalsvc.search_endpoint f subject)) = true ->
  let answer := http_Do (search_request f subject) (externalsvc.world n) in
  let failure :=
    match fst answer with
    | Err e => Some e
    | Ok resp =>
        if externalsvc.status_2xx resp then
          match json_Decode (externalsvc.Body resp) with
          | Err e => Some e
          | Ok _ => None
          end
        else Some (fmt_Errorf "freescout request failed: status %d: %s"
                     [fmt_int (externalsvc.StatusCode resp);
                      strings_TrimSpace (externalsvc.Body resp)])
    end in
  forall e, failure = Some e ->
    externalsvc.CreateFreeScoutConversation url_Parse json_Decode strconv_ParseInt
      W http_Do f subject message n
    = (Err e, {| externalsvc.world := snd answer;
                 externalsvc.sent := externalsvc.sent n ++ [search_request f subject] |}).
Proof.
  intros Hu answer failure e Hfail. subst failure answer.
  rewrite CreateFreeScoutConversation_parts.
  unfold externalsvc.findExistingConversationID, externalsvc.bind, externalsvc.lift.
  rewrite (http_NewRequest_Ok _ _ _ _ Hu).
  unfold externalsvc.client_Do. rewrite (search_request_sent f subject).
  destruct (http_Do (search_request f subject) (externalsvc.world n)) as [[resp|e'] w1];
    cbn [fst snd] in *.
  - destruct (externalsvc.status_2xx resp); cbn [negb].
    + destruct (json_Decode (externalsvc.Body resp)) as [payload|e']; [discriminate|].
      now injection Hfail as ->.
    + now injection Hfail as <-.
  - now injection Hfail as ->.
Qed.

(** X11. When the search finds no conversation and the service accepts
    the new conversation, the call succeeds whatever the [Resource-ID]
    header of the answer holds: it returns the header read as a decimal
    number, and [0] when the header is absent or is no number. *)
Theorem CreateFreeScoutConversation_created_id f subject message n resp w1 payload resp2 w2 :
  is_Ok (url_Parse (externalsvc.search_endpoint f subject)) = true ->
  http_Do (search_request f subject) (externalsvc.world n) = (Ok resp, w1) ->
  externalsvc.status_2xx resp = true ->
  json_Decode (externalsvc.Body resp) = Ok payload ->
  externalsvc.Conversations payload = [] ->
  is_Ok (url_Parse (externalsvc.conversations_endpoint f)) = true ->
  http_Do (create_request f subject message) w1 = (Ok resp2, w2) ->
  externalsvc.status_2xx resp2 = true ->
  let header := externalsvc.Header_Get resp2 "Resource-ID" in
  fst (externalsvc.CreateFreeScoutConversation url_Parse json_Decode strconv_ParseInt
         W http_Do f subject message n)
  = Ok (match strconv_ParseInt header with
        | Ok id => if String.eqb header EmptyString then 0 else id
        | Err _ => 0
        end).
Proof.
  intros Hu Hdo H2 Hdec Hnil Hu2 Hdo2 H22 header.
  rewrite CreateFreeScoutConversation_parts.
  rewrite (findExistingConversationID_Ok url_Parse json_Decode W http_Do
             f subject n resp w1 payload Hu Hdo H2 Hdec).
  rewrite Hnil. cbn [Z.ltb Z.compare].
  destruct (create_conversation_run f subject message
              {| externalsvc.world := w1;
                 externalsvc.sent := externalsvc.sent n ++ [search_request f subject] |})
    as [[e He]|Hc]; cbv zeta in *.
  - exfalso. revert He.
    unfold create_conversation, externalsvc.bind, externalsvc.lift.
    rewrite (http_NewRequest_Ok _ _ _ _ Hu2).
    unfold externalsvc.client_Do. rewrite (create_request_sent f subject message).
    cbn [externalsvc.world]. rewrite Hdo2, H22. cbn. discriminate.
  - rewrite Hc. cbn [externalsvc.world fst]. rewrite Hdo2. cbn [fst]. rewrite H22.
    unfold resource_id. fold header.
    destruct (String.eqb header EmptyString); [|reflexivity].
    now destruct (strconv_ParseInt header).
Qed.
End ClientRequests.

Lemma CreateFreeScoutConversation_search_fails_witness :
  externalsvc.CreateFreeScoutConversation sample.url_Parse sample.json_Decode
    sample.strconv_ParseInt Z scenarios.http_Do_down scenarios.api_client
    "CVE-2024-0001 detected on 60 host(s)" "text" (sample.net 0)
  = (Err (fmt_Errorf "freescout request failed: status %d: %s"
            ["503"; "down for maintenance"]),
     {| externalsvc.world := 0;
        externalsvc.sent :=
          [search_request scenarios.api_client "CVE-2024-0001 detected on 60 host(s)"] |}).
Proof.
  exact (CreateFreeScoutConversation_search_fails sample.url_Parse sample.json_Decode
           sample.strconv_ParseInt Z scenarios.http_Do_down scenarios.api_client
           "CVE-2024-0001 detected on 60 host(s)" "text" (sample.net 0)
           eq_refl _ eq_refl).
Defined.

Lemma CreateFreeScoutConversation_created_id_witness :
  fst (externalsvc.CreateFreeScoutConversation sample.url_Parse sample.json_Decode
         sample.strconv_ParseInt Z sample.http_Do scenarios.api_client
         "CVE-2024-0001 detected on 60 host(s)" "text" (sample.net 0))
  = Ok 12.
Proof.
  exact (CreateFreeScoutConversation_created_id sample.url_Parse sample.json_Decode
           sample.strconv_ParseInt Z sample.http_Do scenarios.api_client
           "CVE-2024-0001 detected on 60 host(s)" "text" (sample.net 0)
           _ _ _ _ _ eq_refl eq_refl eq_refl eq_refl eq_refl eq_refl eq_refl eq_refl).
Defined.

(** ** The constructor and the matcher *)

Lemma TrimRight_slash_split (s : string) :
  exists k, s = TrimRight_slash s +:+ slashes k.
Proof.
  induction s as [|c s [k IH]].
  - exists 0%nat. reflexivity.
  - cbn [TrimRight_slash]. destruct (TrimRight_slash s) as [|c' s'] eqn:E.
    + destruct (Ascii.eqb c slash) eqn:Ec.
      * apply Ascii.eqb_eq in Ec. subst c. exists (S k). rewrite IH at 1. reflexivity.
      * exists k. rewrite IH at 1. reflexivity.
    + exists k. rewrite IH at 1. reflexivity.
Qed.

Lemma cleaned_idempotent (o : externalsvc.FreeScoutOptions) : cleaned (cleaned o) = cleaned o.
Proof.
  unfold cleaned at 1 3. cbn.
  now rewrite (TrimRight_slash_no_slash _ (TrimRight_slash_ends (externalsvc.URL o))).
Qed.

Section ConstructorFacts.
Variable url_Parse : string -> result externalsvc.url_URL.

(** X12. What a client that was built holds: the URL it was given less its
    trailing slashes, and the other options as given. Since a URL that
    starts with a slash has no scheme, the URL it holds is not empty: the
    endpoints derived from it are absolute. *)
Theorem NewFreeScoutClient_stores (o : externalsvc.FreeScoutOptions)
    (c : externalsvc.FreeScout) :
  externalsvc.NewFreeScoutClient url_Parse (Some o) = Ok c ->
  (exists k, externalsvc.URL o = externalsvc.URL (externalsvc.opts c) +:+ slashes k)
  /\ ends_with_slash (externalsvc.URL (externalsvc.opts c)) = false
  /\ externalsvc.APIToken (externalsvc.opts c) = externalsvc.APIToken o
  /\ externalsvc.MailboxID (externalsvc.opts c) = externalsvc.MailboxID o
  /\ externalsvc.CustomerEmail (externalsvc.opts c) = externalsvc.CustomerEmail o
  /\ externalsvc.AssignTo (externalsvc.opts c) = externalsvc.AssignTo o
  /\ ((forall s u, url_Parse (String slash s) = Ok u ->
         externalsvc.Scheme u = EmptyString) ->
      externalsvc.URL (externalsvc.opts c) <> EmptyString).
Proof.
  intros Hc. pose proof (NewFreeScoutClient_Ok url_Parse o c Hc) as Ho.
  rewrite Ho. cbn [cleaned externalsvc.URL externalsvc.APIToken externalsvc.MailboxID
                     externalsvc.CustomerEmail externalsvc.AssignTo].
  split; [apply TrimRight_slash_split|].
  split; [apply TrimRight_slash_ends|].
  do 4 (split; [reflexivity|]).
  intros Hslash Hempty.
  destruct (TrimRight_slash_split (externalsvc.URL o)) as [k Hk].
  rewrite Hempty in Hk. change (EmptyString +:+ slashes k) with (slashes k) in Hk.
  revert Hc. unfold externalsvc.NewFreeScoutClient. rewrite Hk.
  destruct k as [|k]; [discriminate|]. cbn [slashes String.eqb].
  destruct (url_Parse (String slash (slashes k))) as [u|e] eqn:Hu; cbn [result_bind];
    [|discriminate].
  now rewrite (Hslash _ _ Hu).
Qed.

(** X13. What a client that was built matches: the options it was built
    from with the trailing slashes of the URL removed, and no others. So it
    matches the options it was built from exactly when their URL does not
    end in a slash; it always matches the options it holds, and building a
    client from those gives the same client. *)
Theorem FreeScoutConfigMatches_built (o : externalsvc.FreeScoutOptions)
    (c : externalsvc.FreeScout) :
  externalsvc.NewFreeScoutClient url_Parse (Some o) = Ok c ->
  (forall o', externalsvc.FreeScoutConfigMatches c o' = true <-> o' = cleaned o)
  /\ externalsvc.FreeScoutConfigMatches c o = negb (ends_with_slash (externalsvc.URL o))
  /\ externalsvc.FreeScoutConfigMatches c (externalsvc.opts c) = true
  /\ (forall c', externalsvc.NewFreeScoutClient url_Parse (Some (externalsvc.opts c)) = Ok c' ->
        c' = c).
Proof.
  intros Hc. pose proof (NewFreeScoutClient_Ok url_Parse o c Hc) as Ho.
  split; [|split; [|split]].
  - intros o'. rewrite FreeScoutConfigMatches_iff, Ho. split; congruence.
  - destruct (ends_with_slash (externalsvc.URL o)) eqn:Hs; cbn [negb].
    + now apply (built_client_mismatch url_Parse).
    + now apply (built_client_matches_exactly url_Parse o o c Hs Hc).
  - now apply FreeScoutConfigMatches_iff.
  - intros c' Hc'. apply NewFreeScoutClient_Ok in Hc'.
    rewrite Ho, cleaned_idempotent, <- Ho in Hc'. destruct c, c'. cbn in Hc'. now subst.
Qed.
End ConstructorFacts.

Lemma sample_url_Parse_slash (s : string) (u : externalsvc.url_URL) :
  sample.url_Parse (String slash s) = Ok u -> externalsvc.Scheme u = EmptyString.
Proof.
  unfold sample.url_Parse. cbn [sample.before].
  change (Ascii.eqb "#" slash) with false. cbn iota.
  cbn [sample.before]. change (Ascii.eqb "?" slash) with false. cbn iota.
  cbn [sample.getScheme]. change (sample.is_letter slash) with false.
  change (sample.is_digit slash) with false. cbn -[String.prefix String.substring].
  intros [= <-]. reflexivity.
Qed.

Lemma NewFreeScoutClient_stores_witness :
  (exists k, sample.url_slash = sample.url_plain +:+ slashes k)
  /\ ends_with_slash sample.url_plain = false
  /\ sample.url_plain <> EmptyString.
Proof.
  destruct (NewFreeScoutClient_stores sample.url_Parse (sample.options sample.url_slash)
              scenarios.api_client eq_refl) as (Hk & Hs & _ & _ & _ & _ & Hne).
  split; [exact Hk|]. split; [exact Hs|]. exact (Hne sample_url_Parse_slash).
Defined.

Lemma FreeScoutConfigMatches_built_witness :
  externalsvc.FreeScoutConfigMatches scenarios.api_client (sample.options sample.url_slash)
  = false
  /\ externalsvc.FreeScoutConfigMatches scenarios.api_client (sample.options sample.url_plain)
     = true.
Proof.
  destruct (FreeScoutConfigMatches_built sample.url_Parse (sample.options sample.url_slash)
              scenarios.api_client eq_refl) as (_ & Hm & Hown & _).
  split; [exact Hm | exact Hown].
Defined.

(** ** The earlier revision of the client *)

Section PreviousRevision.
Variable url_Parse : string -> result externalsvc.url_URL.
Variable strconv_ParseInt : string -> result Z.
Variable W : Type.
Variable http_Do : externalsvc.http_Request -> W -> result externalsvc.http_Response * W.

Implicit Types (f : externalsvc.FreeScout) (n : externalsvc.Net W).

Lemma prev_CreateFreeScoutConversation_run f subject message n :
  is_Ok (url_Parse (externalsvc.conversations_endpoint f)) = true ->
  externalsvc_prev.CreateFreeScoutConversation url_Parse strconv_ParseInt W http_Do
    f subject message n
  = (match fst (http_Do (externalsvc_prev.create_request f subject message)
                  (externalsvc.world n)) with
     | Err e => Err e
     | Ok resp =>
         if externalsvc.status_2xx resp
         then Ok (resource_id strconv_ParseInt resp)
         else Err (externalsvc.request_failed resp)
     end,
     {| externalsvc.world :=
          snd (http_Do (externalsvc_prev.create_request f subject message)
                 (externalsvc.world n));
        externalsvc.sent :=
          externalsvc.sent n ++ [externalsvc_prev.create_request f subject message] |}).
Proof.
  intros Hu.
  unfold externalsvc_prev.CreateFreeScoutConversation, externalsvc.bind at 1, externalsvc.lift.
  rewrite (http_NewRequest_Ok _ _ _ _ Hu).
  unfold externalsvc.bind, externalsvc.client_Do.
  fold (externalsvc_prev.create_request f subject message).
  destruct (http_Do (externalsvc_prev.create_request f subject message) (externalsvc.world n))
    as [[resp|e] w2]; cbn [fst snd]; [|reflexivity].
  destruct (externalsvc.status_2xx resp); cbn [negb]; [|reflexivity].
  unfold resource_id, externalsvc.ret.
  destruct (String.eqb _ _); [reflexivity|].
  now destruct (strconv_ParseInt _).
Qed.

(** X14. The earlier revision of [CreateFreeScoutConversation] does not
    look for an existing conversation: every call sends one request, which
    creates a conversation, so two calls with the same subject create two
    conversations. Its payload is the payload of the later revision with the
    [imported] flag set, and it reads the answer as the later revision reads
    the answer to a creation. *)
Theorem prev_CreateFreeScoutConversation_no_search f subject message message' n :
  is_Ok (url_Parse (externalsvc.conversations_endpoint f)) = true ->
  let r1 := externalsvc_prev.CreateFreeScoutConversation url_Parse strconv_ParseInt W http_Do
              f subject message n in
  let r2 := externalsvc_prev.CreateFreeScoutConversation url_Parse strconv_ParseInt W http_Do
              f subject message' (snd r1) in
  externalsvc.sent (snd r2)
  = externalsvc.sent n ++ [externalsvc_prev.create_request f subject message;
                           externalsvc_prev.create_request f subject message']
  /\ is_create (externalsvc_prev.create_request f subject message) = true
  /\ externalsvc_prev.conversation_payload f subject message
     = set_Imported true (externalsvc.conversation_payload f subject message)
  /\ externalsvc.cp_Imported (externalsvc.conversation_payload f subject message) = false
  /\ fst r1 = match fst (http_Do (externalsvc_prev.create_request f subject message)
                           (externalsvc.world n)) with
              | Err e => Err e
              | Ok resp =>
                  if externalsvc.status_2xx resp
                  then Ok (resource_id strconv_ParseInt resp)
                  else Err (externalsvc.request_failed resp)
              end.
Proof.
  intros Hu r1 r2. subst r2 r1.
  rewrite !(prev_CreateFreeScoutConversation_run _ _ _ _ Hu). cbn [fst snd externalsvc.sent].
  split; [now rewrite <- app_assoc|]. split; [reflexivity|].
  split; [|split; [|reflexivity]].
  - unfold externalsvc_prev.conversation_payload, externalsvc.conversation_payload.
    now destruct (0 <? _).
  - unfold externalsvc.conversation_payload. now destruct (0 <? _).
Qed.
End PreviousRevision.

Lemma prev_CreateFreeScoutConversation_no_search_witness :
  sample.created
    (snd (externalsvc_prev.CreateFreeScoutConversation sample.url_Parse
            sample.strconv_ParseInt Z sample.http_Do scenarios.api_client "subject" "second"
            (snd (externalsvc_prev.CreateFreeScoutConversation sample.url_Parse
                    sample.strconv_ParseInt Z sample.http_Do scenarios.api_client
                    "subject" "first" (sample.net 0)))))
  = [("subject", ["first"]); ("subject", ["second"])].
Proof.
  unfold sample.created.
  rewrite (proj1 (prev_CreateFreeScoutConversation_no_search sample.url_Parse
                    sample.strconv_ParseInt Z sample.http_Do scenarios.api_client
                    "subject" "first" "second" (sample.net 0) eq_refl)).
  reflexivity.
Defined.

(** ** Queueing jobs *)

Section GroupingFacts.
Implicit Types (vulns : list queue.SoftwareVulnerability) (cve : string).

(** The IDs of the software affected by the vulnerabilities of [cve], in
    the order of the list. *)
Local Abbreviation ids_of vulns cve :=
  (map queue.Affected (filter (fun v => queue.GetCVE v = cve) vulns)).

Lemma fold_group_lookup vulns (m : gmap string (list nat)) cve :
  fold_left queue.group_step vulns m !! cve
  = match ids_of vulns cve with
    | [] => m !! cve
    | ids => Some (default [] (m !! cve) ++ ids)
    end.
Proof.
  revert m. induction vulns as [|v vulns IH]; intros m; [reflexivity|].
  cbn [fold_left]. rewrite IH. unfold queue.group_step. rewrite filter_cons.
  destruct (decide (queue.GetCVE v = cve)) as [<-|Hne].
  - rewrite lookup_insert_eq. cbn [map].
    destruct (ids_of vulns (queue.GetCVE v)) as [|i ids]; [reflexivity|].
    cbn [default from_option id]. now rewrite <- app_assoc.
  - now rewrite lookup_insert_ne.
Qed.

Lemma cveGrouped_lookup vulns cve :
  queue.cveGrouped vulns !! cve
  = match ids_of vulns cve with
    | [] => None
    | ids => Some ids
    end.
Proof.
  unfold queue.cveGrouped. rewrite fold_group_lookup, lookup_empty.
  now destruct (ids_of vulns cve).
Qed.

Lemma ids_of_nil vulns cve :
  ids_of vulns cve = [] <-> ~ In cve (map queue.GetCVE vulns).
Proof.
  induction vulns as [|v vulns IH]; [cbn; tauto|].
  rewrite filter_cons. cbn [map In].
  destruct (decide (queue.GetCVE v = cve)) as [Heq|Hne]; cbn [map].
  - split; [discriminate | tauto].
  - rewrite IH. tauto.
Qed.

Lemma cveGrouped_Some vulns cve ids :
  queue.cveGrouped vulns !! cve = Some ids
  <-> ids = ids_of vulns cve /\ In cve (map queue.GetCVE vulns).
Proof.
  rewrite cveGrouped_lookup. split.
  - intros H. destruct (ids_of vulns cve) as [|i l] eqn:E; [discriminate|].
    injection H as <-. split; [reflexivity|].
    destruct (in_dec string_dec cve (map queue.GetCVE vulns)) as [Hin|Hout]; [exact Hin|].
    apply ids_of_nil in Hout. congruence.
  - intros [-> Hin]. destruct (ids_of vulns cve) as [|i l] eqn:E; [|reflexivity].
    apply ids_of_nil in E. contradiction.
Qed.

(** The entries of the grouping: one for each CVE of the list. *)
Lemma cveGrouped_entries vulns :
  map_to_list (queue.cveGrouped vulns)
  ≡ₚ map (fun cve => (cve, ids_of vulns cve)) (remove_dups (map queue.GetCVE vulns)).
Proof.
  apply NoDup_Permutation.
  - apply NoDup_map_to_list.
  - change (NoDup ((fun cve => (cve, ids_of vulns cve))
                     <$> remove_dups (map queue.GetCVE vulns))).
    apply NoDup_fmap_2; [|apply NoDup_remove_dups].
    intros a b [= ->]. reflexivity.
  - intros [cve ids]. rewrite elem_of_map_to_list, cveGrouped_Some.
    change (map (fun cve => (cve, ids_of vulns cve)) (remove_dups (map queue.GetCVE vulns)))
      with ((fun cve => (cve, ids_of vulns cve)) <$> remove_dups (map queue.GetCVE vulns)).
    rewrite list_elem_of_fmap. split.
    + intros [-> Hin]. exists cve. split; [reflexivity|].
      now apply elem_of_remove_dups, list_elem_of_In.
    + intros (c & [= -> ->] & Hin). split; [reflexivity|].
      now apply list_elem_of_In, elem_of_remove_dups.
Qed.
End GroupingFacts.

Section QueueFacts.
Context {float64 Time : Type}.
Variable Q : Type.
Variable QueueJob : string -> worker.freeScoutArgs float64 Time -> Q -> result nat * Q.
Variable range_map : gmap string (list nat) -> list (string * list nat).

Implicit Types (q : @queue.Queue float64 Time Q).
Implicit Types (vulns : list queue.SoftwareVulnerability).
Implicit Types (cveMeta : gmap string (queue.CVEMeta float64 Time)).

(** The call of [QueueJob] for one entry of the grouping. *)
Local Abbreviation call_of cveMeta :=
  (fun entry : string * list nat =>
     (queue.freescoutName, queue.vuln_job cveMeta (fst entry) (snd entry))).

Lemma store_after_cons (c : string * worker.freeScoutArgs float64 Time)
    (l : list (string * worker.freeScoutArgs float64 Time)) (s : Q) :
  queue.store_after QueueJob (c :: l) s
  = queue.store_after QueueJob l (snd (QueueJob (fst c) (snd c) s)).
Proof. reflexivity. Qed.

Lemma queue_each_calls cveMeta (entries : list (string * list nat)) q :
  exists k,
    (k <= length entries)%nat
    /\ queue.calls (snd (queue.queue_each Q QueueJob cveMeta entries q))
       = queue.calls q ++ map (call_of cveMeta) (firstn k entries)
    /\ queue.store (snd (queue.queue_each Q QueueJob cveMeta entries q))
       = queue.store_after QueueJob (map (call_of cveMeta) (firstn k entries)) (queue.store q)
    /\ (forall i c,
          map (call_of cveMeta) (firstn k entries) !! i = Some c ->
          (S i < k)%nat \/ fst (queue.queue_each Q QueueJob cveMeta entries q) = Ok tt ->
          is_Ok (fst (QueueJob (fst c) (snd c)
                        (queue.store_after QueueJob
                           (firstn i (map (call_of cveMeta) (firstn k entries)))
                           (queue.store q)))) = true)
    /\ (fst (queue.queue_each Q QueueJob cveMeta entries q) = Ok tt -> k = length entries)
    /\ (forall e, fst (queue.queue_each Q QueueJob cveMeta entries q) = Err e ->
          exists k' c e',
            k = S k'
            /\ map (call_of cveMeta) (firstn k entries) !! k' = Some c
            /\ fst (QueueJob (fst c) (snd c)
                      (queue.store_after QueueJob
                         (firstn k' (map (call_of cveMeta) (firstn k entries)))
                         (queue.store q))) = Err e'
            /\ e = ctxerr_Wrap e' "queueing job").
Proof.
  revert q. induction entries as [|[cve ids] rest IH]; intros q.
  - exists 0%nat. cbn. rewrite app_nil_r.
    split; [lia|]. split; [reflexivity|]. split; [reflexivity|].
    split; [intros i c; discriminate|]. split; [reflexivity | discriminate].
  - cbn [queue.queue_each]. unfold queue.queue_job.
    destruct (QueueJob queue.freescoutName (queue.vuln_job cveMeta cve ids) (queue.store q))
      as [[id|e] s'] eqn:Hcall.
    + destruct (IH {| queue.store := s';
                      queue.calls := queue.calls q
                                     ++ [(queue.freescoutName,
                                          queue.vuln_job cveMeta cve ids)] |})
        as (k & Hk & Hcalls & Hstore & Hok & Hall & Herr).
      cbn [queue.store queue.calls] in *.
      exists (S k). cbn [firstn map fst snd length].
      split; [lia|]. split; [rewrite Hcalls; now rewrite <- app_assoc|].
      split; [rewrite store_after_cons; cbn [fst snd]; now rewrite Hcall|].
      split; [|split].
      * intros [|i] c Hc Hi.
        -- injection Hc as <-. cbn. now rewrite Hcall.
        -- cbn [firstn]. rewrite store_after_cons. cbn [fst snd]. rewrite Hcall. cbn [snd].
           apply (Hok i c Hc). destruct Hi as [Hi|Hi]; [left; lia | now right].
      * intros H. f_equal. now apply Hall.
      * intros e H. destruct (Herr e H) as (k' & c & e' & -> & Hc & He & ->).
        exists (S k'), c, e'. split; [reflexivity|]. split; [exact Hc|].
        split; [|reflexivity].
        cbn [firstn]. rewrite store_after_cons. cbn [fst snd]. now rewrite Hcall.
    + exists 1%nat. cbn [fst snd queue.calls queue.store firstn map length].
      split; [lia|]. split; [reflexivity|].
      split; [cbn; now rewrite Hcall|].
      split; [|split; [discriminate|]].
      * intros i c Hc [Hi|Hi]; [lia | discriminate].
      * intros e' [= <-]. exists 0%nat, (queue.freescoutName, queue.vuln_job cveMeta cve ids), e.
        split; [reflexivity|]. split; [reflexivity|]. split; [|reflexivity].
        cbn. now rewrite Hcall.
Qed.

(** The job of an entry of the grouping is the job expected for its
    CVE. *)
Lemma vuln_job_expected cveMeta vulns (cve : string) :
  queue.vuln_job cveMeta cve
    (map queue.Affected (filter (fun v => queue.GetCVE v = cve) vulns))
  = queue.expected_job cveMeta vulns cve.
Proof.
  unfold queue.vuln_job, queue.expected_job. now destruct (cveMeta !! cve).
Qed.

(** X15. [QueueFreeScoutVulnJobs] calls [QueueJob] for the entries of the
    grouping in the order the loop meets them, each on the store the call
    before it left, and stops at the first call that fails. The calls made
    are those of a prefix of the entries, and the store is the one they
    leave: the jobs queued before a failure stay queued. Every call but the
    last one made succeeded. When the function succeeds, the last one
    succeeded too and the calls are those of all entries; when it fails, the
    last call made is the one that failed, and its error is returned under
    the label [queueing job]. *)
Theorem QueueFreeScoutVulnJobs_stops_at_first_error vulns cveMeta q :
  let res := queue.QueueFreeScoutVulnJobs Q QueueJob range_map vulns cveMeta q in
  let entries := range_map (queue.cveGrouped vulns) in
  exists k,
    let made := map (call_of cveMeta) (firstn k entries) in
    let outcome := fun (i : nat) (c : string * worker.freeScoutArgs float64 Time) =>
      fst (QueueJob (fst c) (snd c)
             (queue.store_after QueueJob (firstn i made) (queue.store q))) in
    (k <= length entries)%nat
    /\ queue.calls (snd res) = queue.calls q ++ made
    /\ queue.store (snd res) = queue.store_after QueueJob made (queue.store q)
    /\ (forall i c, made !! i = Some c -> (S i < k)%nat \/ fst res = Ok tt ->
          is_Ok (outcome i c) = true)
    /\ (fst res = Ok tt -> k = length entries)
    /\ (forall e, fst res = Err e ->
          exists k' c e',
            k = S k' /\ made !! k' = Some c /\ outcome k' c = Err e'
            /\ e = ctxerr_Wrap e' "queueing job").
Proof. apply queue_each_calls. Qed.

(** X16. When every job can be queued, [QueueFreeScoutVulnJobs] queues
    exactly one job for each CVE among the recent vulnerabilities, in some
    order: the job of a CVE carries the IDs of the software affected by the
    vulnerabilities of that CVE, in the order of the list, and the metadata
    of the CVE if the metadata map has any. It relies on the loop over the
    map meeting each entry once. *)
Theorem QueueFreeScoutVulnJobs_one_job_per_CVE vulns cveMeta q :
  range_map (queue.cveGrouped vulns) ≡ₚ map_to_list (queue.cveGrouped vulns) ->
  fst (queue.QueueFreeScoutVulnJobs Q QueueJob range_map vulns cveMeta q) = Ok tt ->
  exists jobs,
    queue.calls (snd (queue.QueueFreeScoutVulnJobs Q QueueJob range_map vulns cveMeta q))
    = queue.calls q ++ map (pair queue.freescoutName) jobs
    /\ jobs ≡ₚ map (queue.expected_job cveMeta vulns)
                 (remove_dups (map queue.GetCVE vulns)).
Proof.
  intros Hrange Hok. unfold queue.QueueFreeScoutVulnJobs in *.
  destruct (queue_each_calls cveMeta (range_map (queue.cveGrouped vulns)) q)
    as (k & _ & Hcalls & _ & _ & Hall & _).
  rewrite (Hall Hok), firstn_all in Hcalls.
  exists (map (fun entry => queue.vuln_job cveMeta (fst entry) (snd entry))
            (range_map (queue.cveGrouped vulns))).
  split; [now rewrite Hcalls, map_map|].
  rewrite Hrange, cveGrouped_entries, map_map. cbn [fst snd].
  erewrite map_ext; [reflexivity|]. intros cve. apply vuln_job_expected.
Qed.

(** X17. Every job [QueueFreeScoutVulnJobs] queues, also when a later
    call fails, is one [Run] accepts as a vulnerability job: it is queued
    under the name of the worker's job, it has a vulnerability payload and no
    failing policy payload, so its cache key is [vuln:] and no team is
    consulted; and its list of software IDs is not empty (it holds the
    software of the recent vulnerabilities of its CVE), so [runVuln] looks
    the hosts up by software IDs and never by CVE. *)
Theorem QueueFreeScoutVulnJobs_jobs_run vulns cveMeta q :
  range_map (queue.cveGrouped vulns) ≡ₚ map_to_list (queue.cveGrouped vulns) ->
  exists new,
    queue.calls (snd (queue.QueueFreeScoutVulnJobs Q QueueJob range_map vulns cveMeta q))
    = queue.calls q ++ new
    /\ Forall
         (fun call =>
            fst call = "freescout"
            /\ worker.getClient_key (snd call) = "vuln:"
            /\ worker.getClient_team (snd call) = None
            /\ worker.FailingPolicy (snd call) = None
            /\ exists vargs,
                 worker.Vulnerability (snd call) = Some vargs
                 /\ (forall id, In id (worker.AffectedSoftwareIDs vargs) <->
                       exists v, In v vulns /\ queue.GetCVE v = worker.CVE vargs
                                 /\ queue.Affected v = id)
                 /\ forall (C TeamIntegrations : Type)
                      (f : worker.FreeScout C TeamIntegrations),
                      worker.runVuln_hosts f vargs
                      = worker.HostVulnSummariesBySoftwareIDs (worker.ds f)
                          (worker.AffectedSoftwareIDs vargs))
         new.
Proof.
  intros Hrange. unfold queue.QueueFreeScoutVulnJobs.
  destruct (queue_each_calls cveMeta (range_map (queue.cveGrouped vulns)) q)
    as (k & _ & Hcalls & _).
  eexists. split; [exact Hcalls|].
  change (map ?g ?l) with (g <$> l). apply Forall_fmap, Forall_take.
  apply Forall_forall. intros [cve ids] Hin. rewrite Hrange in Hin.
  apply elem_of_map_to_list, cveGrouped_Some in Hin. destruct Hin as [Hids Hcve].
  cbn [fst snd compose].
  assert (Hne : ids <> []).
  { rewrite Hids. intros Hnil. now apply ids_of_nil in Hnil. }
  split; [reflexivity|].
  assert (Hargs : exists vargs,
            queue.vuln_job cveMeta cve ids
            = {| worker.Vulnerability := Some vargs; worker.FailingPolicy := None |}
            /\ worker.CVE vargs = cve /\ worker.AffectedSoftwareIDs vargs = ids).
  { unfold queue.vuln_job. destruct (cveMeta !! cve); eexists; repeat split. }
  destruct Hargs as (vargs & -> & Hc & Hi).
  split; [reflexivity|]. split; [reflexivity|]. split; [reflexivity|].
  exists vargs. split; [reflexivity|]. split.
  - intros id. rewrite Hi, Hc, Hids, in_map_iff. split.
    + intros (v & Hv & Hf). apply list_elem_of_In, list_elem_of_filter in Hf.
      exists v. destruct Hf as [Hf Hf']. split; [now apply list_elem_of_In|]. now split.
    + intros (v & Hv & Hf & Ha). exists v. split; [exact Ha|].
      apply list_elem_of_In, list_elem_of_filter. split; [exact Hf|].
      now apply list_elem_of_In.
  - intros C TeamIntegrations f. unfold worker.runVuln_hosts. rewrite Hi.
    destruct ids; [contradiction | reflexivity].
Qed.

(** X18. [QueueFreeScoutFailingPolicyJob] queues nothing for a policy
    without failing hosts and succeeds. Otherwise it calls [QueueJob] once,
    with a job that has the failing policy payload (the policy, its team and
    the hosts) and no vulnerability payload, and returns the error of that
    call under the label [queueing job]. [Run] takes that job for a failing
    policy job, resolves the configuration of the team of the policy, and
    caches the client under [failingPolicy:] followed by the team ID. *)
Theorem QueueFreeScoutFailingPolicyJob_calls (policy : queue.Policy)
    (hosts : list fleet.PolicySetHost) q :
  let res := queue.QueueFreeScoutFailingPolicyJob Q QueueJob policy hosts q in
  let args := queue.failing_policy_job policy hosts in
  (hosts = [] -> res = (Ok tt, q))
  /\ (hosts <> [] ->
      queue.calls (snd res) = queue.calls q ++ [("freescout", args)]
      /\ queue.store (snd res) = snd (QueueJob "freescout" args (queue.store q))
      /\ fst res = match fst (QueueJob "freescout" args (queue.store q)) with
                   | Ok _ => Ok tt
                   | Err e => Err (ctxerr_Wrap e "queueing job")
                   end)
  /\ worker.Vulnerability args = None
  /\ (exists fp, worker.FailingPolicy args = Some fp
        /\ worker.PolicyID fp = queue.policy_ID policy
        /\ worker.PolicyName fp = queue.policy_Name policy
        /\ worker.PolicyCritical fp = queue.policy_Critical policy
        /\ worker.fp_Hosts fp = hosts)
  /\ worker.integrationType args = "failingPolicy"
  /\ worker.getClient_team args = queue.policy_TeamID policy
  /\ worker.getClient_key args
     = "failingPolicy:" +:+ match queue.policy_TeamID policy with
                            | Some teamID => fmt_uint teamID
                            | None => EmptyString
                            end.
Proof.
  cbv zeta. unfold queue.QueueFreeScoutFailingPolicyJob.
  split; [now intros ->|]. split.
  - intros Hne. destruct hosts as [|h hosts]; [contradiction|]. cbn [length Nat.eqb].
    unfold queue.queue_job, queue.freescoutName.
    now destruct (QueueJob _ _ _) as [[id|e] s'].
  - split; [reflexivity|]. split; [eexists; repeat split|].
    split; [reflexivity|]. split; [reflexivity|].
    unfold worker.getClient_key, worker.getClient_team. cbn.
    destruct (queue.policy_TeamID policy); [reflexivity|].
    now rewrite append_empty_r.
Qed.
End QueueFacts.

Lemma QueueFreeScoutVulnJobs_one_job_per_CVE_witness :
  exists jobs,
    queue.calls (snd (queue.QueueFreeScoutVulnJobs nat scenarios.QueueJob scenarios.range_map
                        scenarios.recentVulns scenarios.cveMeta scenarios.empty_queue))
    = map (pair "freescout") jobs
    /\ jobs ≡ₚ [ {| worker.Vulnerability :=
                      Some {| worker.CVE := "CVE-2024-0001";
                              worker.AffectedSoftwareIDs := [1%nat; 2%nat];
                              worker.EPSSProbability := None;
                              worker.CVSSScore := None;
                              worker.CISAKnownExploit := None;
                              worker.CVEPublished := None |};
                    worker.FailingPolicy := None |};
                 {| worker.Vulnerability :=
                      Some {| worker.CVE := "CVE-2024-0002";
                              worker.AffectedSoftwareIDs := [7%nat];
                              worker.EPSSProbability := Some "0.5";
                              worker.CVSSScore := Some "9.8";
                              worker.CISAKnownExploit := Some true;
                              worker.CVEPublished := None |};
                    worker.FailingPolicy := None |} ].
Proof.
  destruct (QueueFreeScoutVulnJobs_one_job_per_CVE nat scenarios.QueueJob scenarios.range_map
              scenarios.recentVulns scenarios.cveMeta scenarios.empty_queue)
    as (jobs & Hcalls & Hjobs).
  - reflexivity.
  - vm_compute. reflexivity.
  - exists jobs. split; [exact Hcalls|]. rewrite Hjobs. vm_compute. apply perm_swap.
Defined.

Lemma QueueFreeScoutVulnJobs_jobs_run_witness :
  exists new,
    queue.calls (snd (queue.QueueFreeScoutVulnJobs nat scenarios.QueueJob_full
                        scenarios.range_map scenarios.recentVulns scenarios.cveMeta
                        scenarios.empty_queue))
    = new
    /\ length new = 1%nat
    /\ Forall (fun call => worker.getClient_key (snd call) = "vuln:") new.
Proof.
  destruct (QueueFreeScoutVulnJobs_jobs_run nat scenarios.QueueJob_full scenarios.range_map
              scenarios.recentVulns scenarios.cveMeta scenarios.empty_queue)
    as (new & Hcalls & Hnew).
  - reflexivity.
  - exists new. split; [exact Hcalls|]. split.
    + cbn [queue.calls scenarios.empty_queue app] in Hcalls. rewrite <- Hcalls.
      vm_compute. reflexivity.
    + eapply Forall_impl; [exact Hnew|]. intros call H. apply H.
Defined.

(** ** Concurrent jobs: progress and termination *)

Lemma forallb_false_lookup {A : Type} (f : A -> bool) (l : list A) :
  forallb f l = false -> exists t x, l !! t = Some x /\ f x = false.
Proof.
  induction l as [|a l IH]; [discriminate|]. cbn [forallb].
  destruct (f a) eqn:Ha; cbn [andb].
  - intros H. destruct (IH H) as (t & x & Hx & Hf). now exists (S t), x.
  - intros _. now exists 0%nat, a.
Qed.

Lemma forallb_true_lookup {A : Type} (f : A -> bool) (l : list A) t x :
  forallb f l = true -> l !! t = Some x -> f x = true.
Proof.
  revert t. induction l as [|a l IH]; intros t; [discriminate|]. cbn [forallb].
  intros [Ha Hl]%andb_true_iff. destruct t as [|t]; cbn.
  - now intros [= <-].
  - now apply IH.
Qed.

Section ProgressFacts.
Context {C W : Type} {client_of_C : worker.FreeScoutClient C W}.
Context {float64 Time TeamIntegrations : Type}.
Variable MatchWithIntegrations :
  TeamIntegrations -> fleet.Integrations -> result fleet.Integrations.
Variable jobs : list (@concurrent.job C float64 Time TeamIntegrations).

Implicit Types (c : @concurrent.config C) (t : nat) (p : @concurrent.pc C).
Implicit Types (j : @concurrent.job C float64 Time TeamIntegrations).
Implicit Types (start : worker.Cache C).

Lemma list_sum_insert (l : list (@concurrent.pc C)) t p p' :
  l !! t = Some p ->
  (list_sum (map steps_left (<[t := p']> l)) + steps_left p
   = list_sum (map steps_left l) + steps_left p')%nat.
Proof.
  revert t. induction l as [|a l IH]; intros t; [discriminate|].
  destruct t as [|t].
  - intros [= ->]. cbn. lia.
  - intros H. specialize (IH t H).
    change (<[S t := p']> (a :: l)) with (a :: <[t := p']> l).
    unfold list_sum in *. cbn [map fold_right]. lia.
Qed.

Lemma step_thread_decreases t j p s p' s' :
  concurrent.step_thread MatchWithIntegrations t j p s = Some (p', s') ->
  (steps_left p' < steps_left p)%nat.
Proof.
  destruct p as [|opts|[o|]|o|o [cli|]|o|o cli|r|r]; cbn.
  - destruct (worker.getClient_options _ _ _); intros [= <- _]; cbn; lia.
  - destruct (concurrent.mu s); [discriminate|]. intros [= <- _]; cbn; lia.
  - intros [= <- _]; cbn; lia.
  - intros [= <- _]; cbn; lia.
  - intros [= <- _]; cbn; lia.
  - destruct (worker.FreeScoutConfigMatches cli o); intros [= <- _]; cbn; lia.
  - intros [= <- _]; cbn; lia.
  - destruct (worker.NewClientFunc _ _); intros [= <- _]; cbn; lia.
  - intros [= <- _]; cbn; lia.
  - intros [= <- _]; cbn; lia.
  - discriminate.
Qed.

Lemma step_decreases c c' :
  concurrent.step MatchWithIntegrations jobs c c' ->
  (total_steps_left c' < total_steps_left c)%nat.
Proof.
  intros [c1 t j p p' s' Hj Hp Hstep]. unfold total_steps_left. cbn [concurrent.pcs].
  pose proof (list_sum_insert _ t p p' Hp) as Hsum.
  pose proof (step_thread_decreases _ _ _ _ _ _ Hstep). lia.
Qed.

Lemma total_steps_left_init start :
  total_steps_left (concurrent.init jobs start) = (8 * length jobs)%nat.
Proof.
  unfold total_steps_left, concurrent.init. cbn [concurrent.pcs].
  induction (length jobs) as [|n IH]; [reflexivity|]. unfold list_sum in *.
  cbn [replicate map fold_right]. rewrite IH. cbn [steps_left]. lia.
Qed.

Lemma in_cs_can_move t j p s :
  concurrent.in_cs p = true ->
  exists r, concurrent.step_thread MatchWithIntegrations t j p s = Some r.
Proof.
  destruct p as [|opts|[o|]|o|o [cli|]|o|o cli|r|r]; cbn; try discriminate; intros _;
    try (eexists; reflexivity).
  - destruct (worker.FreeScoutConfigMatches cli o); eexists; reflexivity.
  - destruct (worker.NewClientFunc _ _); eexists; reflexivity.
Qed.

Lemma pending_in_cs j p (before now : worker.Cache C) :
  concurrent.pending MatchWithIntegrations j p before now -> concurrent.in_cs p = true.
Proof. destruct p; cbn; tauto. Qed.

(** X19. Concurrent jobs do not deadlock in [getClient]: in every
    configuration they can reach, some goroutine can take a step unless all
    of them have returned, and when all have returned the mutex is free. *)
Theorem getClient_no_deadlock start c :
  concurrent.reachable MatchWithIntegrations jobs start c ->
  ((exists c', concurrent.step MatchWithIntegrations jobs c c') \/ concurrent.finished jobs c)
  /\ ((exists c', concurrent.step MatchWithIntegrations jobs c c') ->
      ~ concurrent.finished jobs c)
  /\ (concurrent.finished jobs c -> concurrent.mu (concurrent.shared c) = None).
Proof.
  intros Hr. destruct (reachable_Inv MatchWithIntegrations jobs start c Hr)
    as (h & before & HI).
  split; [|split].
  - destruct (forallb is_finished (concurrent.pcs c)) eqn:Hall.
    + right. intros t j Hj.
      destruct (lookup_lt_is_Some_2 (concurrent.pcs c) t) as [p Hp].
      { rewrite (concurrent.inv_length _ _ _ _ _ _ HI). eapply lookup_lt_Some, Hj. }
      pose proof (forallb_true_lookup _ _ _ _ Hall Hp) as Hfin.
      destruct p; try discriminate. eexists. exact Hp.
    + left. apply forallb_false_lookup in Hall as (t & p & Hp & Hfin).
      destruct (concurrent.mu (concurrent.shared c)) as [t'|] eqn:Hmu.
      * destruct (concurrent.inv_held _ _ _ _ _ _ HI t' Hmu) as (j' & p' & Hj' & Hp' & Hpend).
        destruct (in_cs_can_move t' j' p' (concurrent.shared c)
                    (pending_in_cs _ _ _ _ Hpend)) as [[p'' s''] Hstep].
        eexists. eapply concurrent.step_at; eassumption.
      * destruct (lookup_lt_is_Some_2 jobs t) as [j Hj].
        { rewrite <- (concurrent.inv_length _ _ _ _ _ _ HI). eapply lookup_lt_Some, Hp. }
        assert (Hout : concurrent.in_cs p = false).
        { destruct (concurrent.in_cs p) eqn:Hcs; [|reflexivity].
          pose proof (concurrent.inv_holder _ _ _ _ _ _ HI t p Hp Hcs). congruence. }
        destruct p; try discriminate.
        -- destruct (worker.getClient_options MatchWithIntegrations (concurrent.proc j)
                       (concurrent.jargs j)) as [opts|e] eqn:Hopts;
             eexists; eapply concurrent.step_at; try eassumption; cbn; rewrite Hopts;
             reflexivity.
        -- eexists. eapply concurrent.step_at; try eassumption. cbn. rewrite Hmu. reflexivity.
  - intros [c' [c1 t j p p' s' Hj Hp Hstep]] Hfin.
    destruct (Hfin t j Hj) as [r Hr']. rewrite Hp in Hr'. injection Hr' as ->.
    discriminate.
  - intros Hfin. destruct (concurrent.mu (concurrent.shared c)) as [t|] eqn:Hmu;
      [|reflexivity].
    destruct (concurrent.inv_held _ _ _ _ _ _ HI t Hmu) as (j & p & Hj & Hp & Hpend).
    destruct (Hfin t j Hj) as [r Hr']. rewrite Hp in Hr'. injection Hr' as ->.
    destruct Hpend.
Qed.

(** X20. Concurrent jobs leave [getClient] after a bounded number of
    steps: every run from the start takes at most eight steps for each job,
    less the steps the goroutines still have ahead of them. With X19, every
    run can be continued until all goroutines have returned, and cannot be
    continued for ever. *)
Theorem getClient_run_bounded start k c :
  steps MatchWithIntegrations jobs k (concurrent.init jobs start) c ->
  (k + total_steps_left c <= 8 * length jobs)%nat.
Proof.
  remember (concurrent.init jobs start) as c0 eqn:Hc0.
  induction 1 as [c|k c c' c'' Hsteps IH Hstep].
  - subst c. rewrite total_steps_left_init. lia.
  - specialize (IH Hc0). pose proof (step_decreases _ _ Hstep). lia.
Qed.
End ProgressFacts.

Section ScheduleFacts.
Context {C W : Type} {client_of_C : worker.FreeScoutClient C W}.
Context {float64 Time TeamIntegrations : Type}.
Variable MatchWithIntegrations :
  TeamIntegrations -> fleet.Integrations -> result fleet.Integrations.
Variable jobs : list (@concurrent.job C float64 Time TeamIntegrations).

(** A turn of a goroutine that can move is a step. *)
Lemma turn_step (c : @concurrent.config C) (t : nat)
    (j : @concurrent.job C float64 Time TeamIntegrations) (p : @concurrent.pc C)
    (r : @concurrent.pc C * @concurrent.Shared C) :
  jobs !! t = Some j ->
  concurrent.pcs c !! t = Some p ->
  concurrent.step_thread MatchWithIntegrations t j p (concurrent.shared c) = Some r ->
  concurrent.step MatchWithIntegrations jobs c
    (concurrent.turn MatchWithIntegrations jobs t c).
Proof.
  intros Hj Hp Hstep. unfold concurrent.turn. rewrite Hj, Hp, Hstep. destruct r as [p' s'].
  now apply (concurrent.step_at _ _ c t j p p' s').
Qed.
End ScheduleFacts.

Lemma getClient_no_deadlock_witness :
  let mid := sample.run_schedule sample.url_plain sample.schedule_mid in
  (exists c', concurrent.step (client_of_C := sample.client) sample.MatchWithIntegrations
                (sample.racing_jobs sample.url_plain) mid c')
  /\ ~ concurrent.finished (sample.racing_jobs sample.url_plain) mid.
Proof.
  cbv zeta.
  destruct (getClient_no_deadlock (client_of_C := sample.client)
              sample.MatchWithIntegrations (sample.racing_jobs sample.url_plain)
              sample.empty_cache
              (sample.run_schedule sample.url_plain sample.schedule_mid)
              (run_schedule_reachable _ _ _ _ _ (concurrent.reachable_init _ _ _)))
    as (Hprog & _ & _).
  assert (Hnf : ~ concurrent.finished (sample.racing_jobs sample.url_plain)
                  (sample.run_schedule sample.url_plain sample.schedule_mid)).
  { intros Hf. destruct (Hf 0%nat _ eq_refl) as [r Hr]. vm_compute in Hr. discriminate. }
  split; [|exact Hnf]. destruct Hprog as [Hs|Hf]; [exact Hs | contradiction].
Defined.

Lemma getClient_run_bounded_witness :
  (2 + total_steps_left (sample.run_schedule sample.url_plain sample.schedule_mid)
   <= 8 * 2)%nat.
Proof.
  apply (getClient_run_bounded (client_of_C := sample.client) sample.MatchWithIntegrations
           (sample.racing_jobs sample.url_plain) sample.empty_cache 2
           (sample.run_schedule sample.url_plain sample.schedule_mid)).
  unfold sample.run_schedule, sample.schedule_mid, concurrent.run_schedule. cbn [fold_left].
  eapply steps_S; [eapply steps_S; [apply steps_O|]|];
    eapply (turn_step (client_of_C := sample.client)); reflexivity.
Defined.

(** ** A job from end to end *)

Section EndToEnd.
Variable url_Parse : string -> result externalsvc.url_URL.
Variable json_Decode : string -> result externalsvc.freeScoutConversationsResponse.
Variable strconv_ParseInt : string -> result Z.
Variable W : Type.
Variable http_Do : externalsvc.http_Request -> W -> result externalsvc.http_Response * W.
Context {float64 Time TeamIntegrations : Type}.
Variable MatchWithIntegrations :
  TeamIntegrations -> fleet.Integrations -> result fleet.Integrations.
Variable json_Unmarshal : string -> result (worker.freeScoutArgs float64 Time).
Variable fmt_float64 : float64 -> string.
Variable fmt_Time : Time -> string.
Variable nvdCVEURL : string.

(** The worker with the API client as its client. *)
Local Abbreviation api := (FreeScout_client url_Parse json_Decode strconv_ParseInt W http_Do).

Implicit Types (f : worker.FreeScout externalsvc.FreeScout TeamIntegrations).
Implicit Types (st : worker.Cache externalsvc.FreeScout) (n : externalsvc.Net W).
Implicit Types (args : worker.freeScoutArgs float64 Time) (cli : externalsvc.FreeScout).

Lemma getClient_returned_cached f args st st' cli :
  worker.getClient (client_of_C := api) MatchWithIntegrations f args st = (Ok (Some cli), st') ->
  worker.clientsCache st' !! worker.getClient_key args = Some cli.
Proof.
  unfold worker.getClient.
  destruct (worker.getClient_options MatchWithIntegrations f args) as [opts|e];
    [|discriminate].
  destruct (getClient_locked_cases (client_of_C := api) f (worker.getClient_key args) opts st)
    as [[_ ->]|[(o & c & _ & Hk & _ & ->)|[(o & c & _ & _ & _ & ->)
       |(o & e & _ & _ & _ & ->)]]]; intros [= <- <-]; cbn.
  - exact Hk.
  - apply lookup_insert_eq.
Qed.

Lemma createTemplatedConversation_trace {A : Type} cli (summary desc : A -> string) (a : A) n :
  let r := worker.createTemplatedConversation (client_of_C := api) cli
             (worker.Execute summary) (worker.Execute desc) a n in
  exists l,
    externalsvc.sent (snd r) = externalsvc.sent n ++ l
    /\ (is_Ok (fst r) = true -> length l = 2%nat)
    /\ (l = []
        \/ l = [search_request cli (summary a)]
        \/ (exists id, 0 < id
              /\ l = [search_request cli (summary a); thread_request cli id (desc a)])
        \/ l = [search_request cli (summary a); create_request cli (summary a) (desc a)]).
Proof.
  cbv zeta. unfold worker.createTemplatedConversation, worker.Execute.
  cbn [worker.CreateFreeScoutConversation FreeScout_client].
  destruct (CreateFreeScoutConversation_trace url_Parse json_Decode strconv_ParseInt W http_Do
              cli (summary a) (desc a) n) as (l & Hsent & Hshape & Hid & _).
  cbv zeta in *.
  destruct (externalsvc.CreateFreeScoutConversation _ _ _ _ _ _ _ _ _) as [[id|e] n'];
    cbn [fst snd is_Ok] in *; exists l; (split; [exact Hsent|]); (split; [|exact Hshape]).
  - intros _. destruct (Hid id eq_refl) as [[_ ->]| ->]; reflexivity.
  - discriminate.
Qed.

(** X21. One job from end to end, with the API client: whatever the
    datastore and the service answer, [Run] sends at most two requests, the
    search and then one thread or one new conversation, and it sends them
    only when the payload decodes and [getClient] returns a client: to that
    client, which the cache holds for the key of the job when [Run] returns.
    The requests are those of the API as written out in [search_request],
    [thread_request] and [create_request]: the subject searched for is the
    summary rendered from the job, and the text sent is the description
    rendered from it. A job that fails before the client is called (its
    payload does not decode or holds neither sub-payload, [getClient] fails,
    the hosts cannot be fetched) or whose integration is disabled sends
    nothing; a job that succeeds sent nothing or both requests. *)
Theorem Run_requests f j st n :
  let res := worker.Run (client_of_C := api) MatchWithIntegrations json_Unmarshal
               fmt_float64 fmt_Time nvdCVEURL f j st n in
  exists l,
    externalsvc.sent (snd res) = externalsvc.sent n ++ l
    /\ (fst (fst res) = Ok tt -> l = [] \/ length l = 2%nat)
    /\ (l = []
        \/ exists args cli subject message,
             json_Unmarshal j = Ok args
             /\ fst (worker.getClient (client_of_C := api) MatchWithIntegrations f args st)
                = Ok (Some cli)
             /\ worker.clientsCache (snd (fst res)) !! worker.getClient_key args = Some cli
             /\ ((exists vargs hosts,
                    worker.FailingPolicy args = None
                    /\ worker.Vulnerability args = Some vargs
                    /\ worker.runVuln_hosts f vargs = Ok hosts
                    /\ subject = worker.VulnSummary (worker.runVuln_tplArgs nvdCVEURL f vargs hosts)
                    /\ message = worker.VulnDescription fmt_float64 fmt_Time
                                   (worker.runVuln_tplArgs nvdCVEURL f vargs hosts))
                 \/ (exists fp,
                       worker.FailingPolicy args = Some fp
                       /\ subject = worker.FailingPolicySummary
                                      (worker.newFailingPoliciesTplArgs (worker.FleetURL f) fp)
                       /\ message = worker.FailingPolicyDescription
                                      (worker.newFailingPoliciesTplArgs (worker.FleetURL f) fp)))
             /\ (l = [search_request cli subject]
                 \/ (exists id, 0 < id
                       /\ l = [search_request cli subject; thread_request cli id message])
                 \/ l = [search_request cli subject; create_request cli subject message])).
Proof.
  cbv zeta. unfold worker.Run.
  destruct (json_Unmarshal j) as [args|e] eqn:Hj.
  2:{ exists []. rewrite app_nil_r. cbn. split; [reflexivity|]. split; now left. }
  destruct (worker.getClient _ _ _ _) as [[[cli|]|e] st'] eqn:Hg.
  2,3: exists []; rewrite app_nil_r; cbn; (split; [reflexivity|]); split; now left.
  pose proof (getClient_returned_cached _ _ _ _ _ Hg) as Hcache.
  destruct (worker.FailingPolicy args) as [fp|] eqn:Hfp.
  - rewrite (integrationType_failingPolicy _ _ Hfp).
    cbn [String.eqb Ascii.eqb Bool.eqb worker.intgTypeVuln worker.intgTypeFailingPolicy].
    unfold worker.runFailingPolicy. rewrite Hfp.
    destruct (createTemplatedConversation_trace cli worker.FailingPolicySummary
                worker.FailingPolicyDescription
                (worker.newFailingPoliciesTplArgs (worker.FleetURL f) fp) n)
      as (l & Hsent & Hok & Hshape). cbv zeta in *.
    destruct (worker.createTemplatedConversation _ _ _ _ _) as [[id|e] n'];
      cbn [fst snd is_Ok] in *; exists l; (split; [exact Hsent|]).
    + split; [intros _; right; now apply Hok|].
      destruct Hshape as [->|Hshape]; [now left|]. right.
      exists args, cli. do 2 eexists. split; [reflexivity|].
      split; [now rewrite Hg|]. split; [exact Hcache|].
      split; [|exact Hshape]. right. exists fp. repeat split; assumption || reflexivity.
    + split; [discriminate|].
      destruct Hshape as [->|Hshape]; [now left|]. right.
      exists args, cli. do 2 eexists. split; [reflexivity|].
      split; [now rewrite Hg|]. split; [exact Hcache|].
      split; [|exact Hshape]. right. exists fp. repeat split; assumption || reflexivity.
  - rewrite (integrationType_vuln _ Hfp).
    cbn [String.eqb Ascii.eqb Bool.eqb worker.intgTypeVuln].
    unfold worker.runVuln.
    destruct (worker.Vulnerability args) as [vargs|] eqn:Hv.
    2:{ exists []. rewrite app_nil_r. cbn. split; [reflexivity|]. split; [discriminate|].
        now left. }
    destruct (worker.runVuln_hosts f vargs) as [hosts|e] eqn:Hh.
    2:{ exists []. rewrite app_nil_r. cbn. split; [reflexivity|]. split; [discriminate|].
        now left. }
    destruct (createTemplatedConversation_trace cli worker.VulnSummary
                (worker.VulnDescription fmt_float64 fmt_Time)
                (worker.runVuln_tplArgs nvdCVEURL f vargs hosts) n)
      as (l & Hsent & Hok & Hshape). cbv zeta in *.
    destruct (worker.createTemplatedConversation _ _ _ _ _) as [[id|e] n'];
      cbn [fst snd is_Ok] in *; exists l; (split; [exact Hsent|]).
    + split; [intros _; right; now apply Hok|].
      destruct Hshape as [->|Hshape]; [now left|]. right.
      exists args, cli. do 2 eexists. split; [reflexivity|].
      split; [now rewrite Hg|]. split; [exact Hcache|].
      split; [|exact Hshape]. left. exists vargs, hosts.
      repeat split; assumption || reflexivity.
    + split; [discriminate|].
      destruct Hshape as [->|Hshape]; [now left|]. right.
      exists args, cli. do 2 eexists. split; [reflexivity|].
      split; [now rewrite Hg|]. split; [exact Hcache|].
      split; [|exact Hshape]. left. exists vargs, hosts.
      repeat split; assumption || reflexivity.
Qed.
End EndToEnd.

(** ** The summaries as subjects *)

(** X22. A summary determines what it counts: two vulnerability
    summaries are the same text exactly when they name the same CVE and the
    same number of hosts, and two failing policy summaries exactly when they
    name the same policy and the same number of hosts. *)
Theorem summaries_determine_subject :
  (forall (float64 Time : Type) (a b : @worker.freeScoutVulnTplArgs float64 Time),
     worker.VulnSummary a = worker.VulnSummary b
     <-> worker.vt_CVE a = worker.vt_CVE b
         /\ length (worker.vt_Hosts a) = length (worker.vt_Hosts b))
  /\ (forall a b : worker.failingPoliciesTplArgs,
        worker.FailingPolicySummary a = worker.FailingPolicySummary b
        <-> worker.fpt_PolicyName a = worker.fpt_PolicyName b
            /\ length (worker.fpt_Hosts a) = length (worker.fpt_Hosts b)).
Proof.
  split; [intros float64 Time a b | intros a b];
    (split; [|now intros [Hn Hl]; unfold worker.VulnSummary,
                worker.FailingPolicySummary; rewrite Hn, Hl]).
  - unfold worker.VulnSummary. intros H.
    change ("Vulnerability " +:+ worker.vt_CVE a +:+ (" detected on" +:+ " ")
            +:+ fmt_uint (length (worker.vt_Hosts a)) +:+ " host(s)"
            = "Vulnerability " +:+ worker.vt_CVE b +:+ (" detected on" +:+ " ")
              +:+ fmt_uint (length (worker.vt_Hosts b)) +:+ " host(s)") in H.
    rewrite <- !(append_assoc "Vulnerability ") in H.
    apply numbered_string_inj in H as [Ha Hn]. split; [|exact Hn].
    apply (f_equal list_ascii_of_string) in Ha. rewrite !list_ascii_of_string_app in Ha.
    now apply app_inv_head, list_ascii_of_string_inj in Ha.
  - unfold worker.FailingPolicySummary. intros H.
    change (worker.fpt_PolicyName a +:+ (" policy failed on" +:+ " ")
            +:+ fmt_uint (length (worker.fpt_Hosts a)) +:+ " host(s)"
            = worker.fpt_PolicyName b +:+ (" policy failed on" +:+ " ")
              +:+ fmt_uint (length (worker.fpt_Hosts b)) +:+ " host(s)") in H.
    now apply numbered_string_inj in H.
Qed.
